(** * elasticsearch-mcp: the export pipeline and its validators

    A shallow embedding of the TypeScript sources
      - src/tools/delete-document.ts and src/tools/search-elasticsearch.ts
        (validateQueryDepth),
      - src/tools/insert-data.ts (validateDocument, validateNestedObject),
      - src/errors/handlers.ts (handleError, sanitizeError),
      - src/tools/export-to-csv.ts (generateFilename, determineFields,
        extractFieldNames, extractFieldValue, exportDataWithScroll and the
        finalization step of execute),
    and the properties of the specification settled against them.

    Conventions.
      - A JavaScript value that came out of JSON is a [json]; [undefined]
        is [None] in an [option json].  Numbers are integers ([Z]);
        fractional numbers are outside the model.
      - An object is the list of its own enumerable entries, in the order
        of [Object.entries].  Where the code reads a property under a
        name that the caller chooses ([extractFieldValue]), the members
        inherited from [Object.prototype] are modelled as well.
      - A string is a sequence of 8-bit code units; [length] counts them.
      - A [throw] is the [Throw] constructor of [result]; an awaited
        promise that rejects is a [Throw] as well.
      - Collaborators (cluster client, CSV writer, file system, clock) are
        explicit arguments: scripted answers for the client and the writer,
        a finite map for the file system. *)

From Stdlib Require Import ZArith String Ascii List Bool Lia DecimalString.
From stdpp Require Import base strings gmap.
Import ListNotations.

(** ** JavaScript values and primitives *)

Module Js.

#[local] Set Warnings "-register-all".

Inductive json : Type :=
| JNull
| JBool (b : bool)
| JNum (n : Z)
| JStr (s : string)
| JArr (items : list json)
| JObj (entries : list (string * json)).

(** Induction over [json] that reaches inside arrays and objects. *)
Section JsonInd.
Variable P : json -> Prop.
Hypothesis HNull : P JNull.
Hypothesis HBool : forall b, P (JBool b).
Hypothesis HNum : forall n, P (JNum n).
Hypothesis HStr : forall s, P (JStr s).
Hypothesis HArr : forall items, Forall P items -> P (JArr items).
Hypothesis HObj : forall entries, Forall (fun kv => P (snd kv)) entries -> P (JObj entries).

Fixpoint json_ind' (v : json) : P v :=
  match v with
  | JNull => HNull
  | JBool b => HBool b
  | JNum n => HNum n
  | JStr s => HStr s
  | JArr items =>
      HArr items
        ((fix go (l : list json) : Forall P l :=
            match l with
            | [] => List.Forall_nil P
            | x :: r => List.Forall_cons P x r (json_ind' x) (go r)
            end) items)
  | JObj entries =>
      HObj entries
        ((fix go (l : list (string * json)) : Forall (fun kv => P (snd kv)) l :=
            match l with
            | [] => List.Forall_nil _
            | kv :: r => List.Forall_cons _ kv r (json_ind' (snd kv)) (go r)
            end) entries)
  end.
End JsonInd.

(** The errors of src/errors/handlers.ts: the subclasses of
    [ElasticMCPError] with their message and context, any other thrown
    [Error] (a rejected client call, a failed write), and a thrown value
    that is no [Error] at all. *)
Inductive error : Type :=
| ValidationError (message : string) (context : option (list (string * json)))
| ConnectionError (message : string) (context : option (list (string * json)))
| AuthenticationError (message : string) (context : option (list (string * json)))
| NotFoundError (message : string) (context : option (list (string * json)))
| RateLimitError (message : string) (context : option (list (string * json)))
| ElasticsearchError (message : string) (context : option (list (string * json)))
| OtherError (name message : string)
| ThrownValue (v : json).

Inductive result (A : Type) : Type :=
| Ok (a : A)
| Throw (e : error).
Arguments Ok {A} a.
Arguments Throw {A} e.

Definition bind {A B} (r : result A) (k : A -> result B) : result B :=
  match r with
  | Ok a => k a
  | Throw e => Throw e
  end.

Notation "'do' x <- r ; k" := (bind r (fun x => k))
  (at level 10, x name, r at level 100, k at level 200).

(** [typeof v === 'object' && v !== null] *)
Definition is_object_or_array (v : json) : bool :=
  match v with JObj _ | JArr _ => true | _ => false end.

(** JavaScript truthiness of a value ([None] is [undefined]). *)
Definition truthy (v : option json) : bool :=
  match v with
  | None | Some JNull => false
  | Some (JBool b) => b
  | Some (JNum n) => negb (n =? 0)%Z
  | Some (JStr s) => negb (String.eqb s EmptyString)
  | Some (JArr _) | Some (JObj _) => true
  end.

(** [o[k]] on the own entries of an object: the first entry named [k]. *)
Fixpoint lookup_entry (k : string) (entries : list (string * json)) : option json :=
  match entries with
  | [] => None
  | (k', v) :: rest => if String.eqb k' k then Some v else lookup_entry k rest
  end.

(** [v[k]] for a property name that no array, string or number carries
    ([mappings], [properties], [type], a record's field): defined on
    objects only, [undefined] elsewhere. *)
Definition get_prop (v : json) (k : string) : option json :=
  match v with
  | JObj entries => lookup_entry k entries
  | _ => None
  end.

(** *** Strings *)

Definition Z_to_string (n : Z) : string := NilZero.string_of_int (Z.to_int n).

(** [s.startsWith(p)] *)
Fixpoint startsWith (s p : string) {struct p} : bool :=
  match p, s with
  | EmptyString, _ => true
  | String c p', String d s' => Ascii.eqb c d && startsWith s' p'
  | String _ _, EmptyString => false
  end.

(** [s.includes(p)] *)
Fixpoint includes (s p : string) : bool :=
  startsWith s p ||
  match s with
  | EmptyString => false
  | String _ s' => includes s' p
  end.

(** [s.endsWith(p)] *)
Fixpoint endsWith (s p : string) : bool :=
  String.eqb s p ||
  match s with
  | EmptyString => false
  | String _ s' => endsWith s' p
  end.

Definition is_upper (c : ascii) : bool :=
  let n := nat_of_ascii c in (65 <=? n)%nat && (n <=? 90)%nat.
Definition is_lower (c : ascii) : bool :=
  let n := nat_of_ascii c in (97 <=? n)%nat && (n <=? 122)%nat.
Definition is_digit (c : ascii) : bool :=
  let n := nat_of_ascii c in (48 <=? n)%nat && (n <=? 57)%nat.

Definition lower_char (c : ascii) : ascii :=
  if is_upper c then ascii_of_nat (nat_of_ascii c + 32) else c.

(** [s.toLowerCase()] on the ASCII letters. *)
Fixpoint toLowerCase (s : string) : string :=
  match s with
  | EmptyString => EmptyString
  | String c s' => String (lower_char c) (toLowerCase s')
  end.

(** [s.split(sep)] for a one-character separator: never empty. *)
Fixpoint split (sep : ascii) (s : string) : list string :=
  match s with
  | EmptyString => [EmptyString]
  | String c s' =>
      if Ascii.eqb c sep then EmptyString :: split sep s'
      else match split sep s' with
           | [] => [String c EmptyString]
           | hd :: tl => String c hd :: tl
           end
  end.

Fixpoint string_map (f : ascii -> ascii) (s : string) : string :=
  match s with
  | EmptyString => EmptyString
  | String c s' => String (f c) (string_map f s')
  end.

Fixpoint string_forallb (f : ascii -> bool) (s : string) : bool :=
  match s with
  | EmptyString => true
  | String c s' => f c && string_forallb f s'
  end.

Fixpoint join (sep : string) (l : list string) : string :=
  match l with
  | [] => EmptyString
  | [x] => x
  | x :: rest => x +:+ sep +:+ join sep rest
  end.

(** *** Object.entries and Object.keys *)

Fixpoint indexed {A : Type} (i : nat) (l : list A) : list (string * A) :=
  match l with
  | [] => []
  | x :: rest => (Z_to_string (Z.of_nat i), x) :: indexed (S i) rest
  end.

Fixpoint chars (s : string) : list json :=
  match s with
  | EmptyString => []
  | String c s' => JStr (String c EmptyString) :: chars s'
  end.

(** [Object.entries(v)] for a value that is neither [null] nor
    [undefined]. *)
Definition Object_entries (v : json) : list (string * json) :=
  match v with
  | JObj entries => entries
  | JArr items => indexed 0 items
  | JStr s => indexed 0 (chars s)
  | _ => []
  end.

Definition Object_keys (v : json) : list string := List.map fst (Object_entries v).

(** *** JSON.stringify *)

Definition quote_char : ascii := ascii_of_nat 34.
Definition backslash : ascii := ascii_of_nat 92.

Definition hex_digit (n : nat) : ascii :=
  if (n <? 10)%nat then ascii_of_nat (48 + n) else ascii_of_nat (87 + n).

(** One code unit inside a quoted JSON string. *)
Definition escape_char (c : ascii) : string :=
  let n := nat_of_ascii c in
  if Ascii.eqb c quote_char then String backslash (String quote_char EmptyString)
  else if Ascii.eqb c backslash then String backslash (String backslash EmptyString)
  else if (n =? 8)%nat then "\b"
  else if (n =? 12)%nat then "\f"
  else if (n =? 10)%nat then "\n"
  else if (n =? 13)%nat then "\r"
  else if (n =? 9)%nat then "\t"
  else if (n <? 32)%nat then
    "\u00" +:+ String (hex_digit (n / 16)) (String (hex_digit (n mod 16)) EmptyString)
  else String c EmptyString.

Fixpoint escape (s : string) : string :=
  match s with
  | EmptyString => EmptyString
  | String c s' => escape_char c +:+ escape s'
  end.

Definition quote (s : string) : string :=
  String quote_char (escape s +:+ String quote_char EmptyString).

(** [JSON.stringify(v)] without indentation. *)
Fixpoint JSON_stringify (v : json) : string :=
  match v with
  | JNull => "null"
  | JBool true => "true"
  | JBool false => "false"
  | JNum n => Z_to_string n
  | JStr s => quote s
  | JArr items => "[" +:+ join "," (List.map JSON_stringify items) +:+ "]"
  | JObj entries =>
      "{" +:+ join "," (List.map (fun kv => quote (fst kv) +:+ ":" +:+ JSON_stringify (snd kv))
                                entries) +:+ "}"
  end.

End Js.

Import Js.

(** ** Query depth validation
    [validateQueryDepth] of src/tools/delete-document.ts (lines 186-198);
    src/tools/search-elasticsearch.ts carries the same text. *)

Module QueryDepth.

Definition MAX_QUERY_DEPTH : nat := 20.

Definition depth_exceeded : error :=
  ValidationError
    ("Query nesting exceeds maximum depth of " +:+ Z_to_string (Z.of_nat MAX_QUERY_DEPTH))
    None.

(** The call [validateQueryDepth(value, depth)] on an object [value]:
    the depth test, then the loop over [Object.values(obj)], which
    recurses into plain-object values only. *)
Fixpoint walk (value : json) (depth : nat) {struct value} : result unit :=
  match value with
  | JObj entries =>
      if (MAX_QUERY_DEPTH <? depth)%nat then Throw depth_exceeded
      else
        (fix loop (es : list (string * json)) : result unit :=
           match es with
           | [] => Ok tt
           | (_, v) :: rest =>
               match v with
               | JObj _ =>
                   match walk v (S depth) with
                   | Ok _ => loop rest
                   | Throw e => Throw e
                   end
               | _ => loop rest
               end
           end) entries
  | _ => Ok tt
  end.

Definition validateQueryDepth (obj : list (string * json)) (depth : nat) : result unit :=
  walk (JObj obj) depth.

(** The body of the [for] loop, from a given position. *)
Fixpoint loop_values (es : list (string * json)) (depth : nat) : result unit :=
  match es with
  | [] => Ok tt
  | (_, JObj sub) :: rest =>
      match validateQueryDepth sub (S depth) with
      | Ok _ => loop_values rest depth
      | Throw e => Throw e
      end
  | _ :: rest => loop_values rest depth
  end.

(** Nesting depth of a filter tree: the longest chain of objects nested
    directly as values of objects, counted in nesting steps below the
    root (the root is at depth 0, a value of the root at depth 1);
    arrays and what they hold do not count. *)
Fixpoint nesting_depth (v : json) : nat :=
  match v with
  | JObj entries =>
      (fix over (es : list (string * json)) : nat :=
         match es with
         | [] => 0
         | (_, x) :: rest =>
             Nat.max (match x with JObj _ => S (nesting_depth x) | _ => 0 end)
                     (over rest)
         end) entries
  | _ => 0
  end.

(** [n] objects wrapped around [v], each under key [k]. *)
Fixpoint nest (k : string) (n : nat) (v : json) : json :=
  match n with
  | 0 => v
  | S n' => JObj [(k, nest k n' v)]
  end.

(** *** The source's equations *)

Lemma validateQueryDepth_eq (obj : list (string * json)) (depth : nat) :
  validateQueryDepth obj depth =
  if (MAX_QUERY_DEPTH <? depth)%nat then Throw depth_exceeded
  else loop_values obj depth.
Proof.
  unfold validateQueryDepth. cbn [walk].
  destruct (MAX_QUERY_DEPTH <? depth)%nat; [reflexivity|].
  induction obj as [|[k v] rest IH]; [reflexivity|].
  cbn [loop_values]. rewrite <- IH.
  destruct v; reflexivity.
Qed.

Lemma depth_exceeded_message :
  depth_exceeded = ValidationError "Query nesting exceeds maximum depth of 20" None.
Proof. reflexivity. Qed.

Lemma nesting_depth_cons (k : string) (x : json) (rest : list (string * json)) :
  nesting_depth (JObj ((k, x) :: rest)) =
  Nat.max (match x with JObj _ => S (nesting_depth x) | _ => 0 end)
          (nesting_depth (JObj rest)).
Proof. reflexivity. Qed.

Lemma nesting_depth_nest (k : string) (n : nat) (es : list (string * json)) :
  nesting_depth (nest k n (JObj es)) = n + nesting_depth (JObj es).
Proof.
  induction n as [|n IH]; [reflexivity|].
  cbn [nest]. rewrite nesting_depth_cons.
  destruct n as [|m].
  - cbn [nest] in *. change (nesting_depth (JObj [])) with 0. lia.
  - cbn [nest] in *. rewrite IH. change (nesting_depth (JObj [])) with 0. lia.
Qed.

(** The outcome of a call is decided by the depth reached. *)
Definition decided (v : json) : Prop :=
  match v with
  | JObj obj =>
      forall depth,
        validateQueryDepth obj depth =
        if (depth + nesting_depth v <=? MAX_QUERY_DEPTH)%nat then Ok tt
        else Throw depth_exceeded
  | _ => True
  end.

Lemma loop_values_decided (es : list (string * json)) :
  Forall (fun kv => decided (snd kv)) es ->
  forall depth, (depth <= MAX_QUERY_DEPTH)%nat ->
    loop_values es depth =
    if (depth + nesting_depth (JObj es) <=? MAX_QUERY_DEPTH)%nat then Ok tt
    else Throw depth_exceeded.
Proof.
  induction 1 as [|[k x] rest Hx _ IH]; intros depth Hd.
  - change (nesting_depth (JObj [])) with 0.
    destruct (Nat.leb_spec (depth + 0) MAX_QUERY_DEPTH); [reflexivity|lia].
  - rewrite nesting_depth_cons. specialize (IH depth Hd).
    destruct x as [| b | n | s | items | sub]; cbn [loop_values];
      try (rewrite IH, Nat.max_0_l; reflexivity).
    cbn [snd decided] in Hx. rewrite (Hx (S depth)).
    destruct (Nat.leb_spec (S depth + nesting_depth (JObj sub)) MAX_QUERY_DEPTH) as [Hs|Hs].
    + rewrite IH.
      destruct (Nat.leb_spec (depth + nesting_depth (JObj rest)) MAX_QUERY_DEPTH);
        destruct (Nat.leb_spec
                    (depth + Nat.max (S (nesting_depth (JObj sub))) (nesting_depth (JObj rest)))
                    MAX_QUERY_DEPTH); try reflexivity; lia.
    + destruct (Nat.leb_spec
                  (depth + Nat.max (S (nesting_depth (JObj sub))) (nesting_depth (JObj rest)))
                  MAX_QUERY_DEPTH); [lia|reflexivity].
Qed.

Lemma all_decided (v : json) : decided v.
Proof.
  induction v as [| | | | items _ | es IH] using json_ind'; cbn [decided]; auto.
  intros depth. rewrite validateQueryDepth_eq.
  destruct (Nat.ltb_spec MAX_QUERY_DEPTH depth) as [Hd|Hd].
  - destruct (Nat.leb_spec (depth + nesting_depth (JObj es)) MAX_QUERY_DEPTH); [lia|reflexivity].
  - apply loop_values_decided; assumption.
Qed.

Lemma validateQueryDepth_decided (obj : list (string * json)) (depth : nat) :
  validateQueryDepth obj depth =
  if (depth + nesting_depth (JObj obj) <=? MAX_QUERY_DEPTH)%nat then Ok tt
  else Throw depth_exceeded.
Proof. exact (all_decided (JObj obj) depth). Qed.

(** C3. Depth validation of a filter tree, started at depth 0 as
    [validateQuery] starts it: a tree whose longest chain of object-valued
    (non-array) nesting is more than 20 steps deep is rejected with the
    ValidationError "Query nesting exceeds maximum depth of 20"; a tree of
    depth exactly 20 is accepted. *)
Theorem validateQueryDepth_limit (obj : list (string * json)) :
  ((20 < nesting_depth (JObj obj))%nat ->
     validateQueryDepth obj 0 =
     Throw (ValidationError "Query nesting exceeds maximum depth of 20" None)) /\
  (nesting_depth (JObj obj) = 20%nat -> validateQueryDepth obj 0 = Ok tt).
Proof.
  rewrite validateQueryDepth_decided. cbn [Nat.add]. split; intros H.
  - destruct (Nat.leb_spec (nesting_depth (JObj obj)) MAX_QUERY_DEPTH) as [Hle|Hle].
    + unfold MAX_QUERY_DEPTH in Hle. lia.
    + reflexivity.
  - rewrite H. reflexivity.
Qed.

(** Arrays cut the chain: objects held in an array are not visited. *)
Lemma validateQueryDepth_skips_arrays (k : string) (items : list json) :
  validateQueryDepth [(k, JArr items)] 0 = Ok tt.
Proof. reflexivity. Qed.

Lemma validateQueryDepth_limit_witness :
  (let obj := [("bool", nest "bool" 20 (JObj []))] in
   (20 < nesting_depth (JObj obj))%nat /\
   validateQueryDepth obj 0 =
   Throw (ValidationError "Query nesting exceeds maximum depth of 20" None)) /\
  (let obj := [("bool", nest "bool" 19 (JObj []))] in
   nesting_depth (JObj obj) = 20%nat /\ validateQueryDepth obj 0 = Ok tt).
Proof.
  split; cbv zeta.
  - split; [vm_compute; lia|].
    apply (proj1 (validateQueryDepth_limit [("bool", nest "bool" 20 (JObj []))])).
    vm_compute; lia.
  - split; [reflexivity|].
    apply (proj2 (validateQueryDepth_limit [("bool", nest "bool" 19 (JObj []))])).
    reflexivity.
Defined.

End QueryDepth.

(** ** Document validation
    [validateDocument], [isValidDottedField] and [validateNestedObject] of
    src/tools/insert-data.ts (lines 102-160). *)

Module InsertData.

Definition reserved_field (key : string) : error :=
  ValidationError ("Field name '" +:+ key +:+ "' cannot start with underscore (reserved)") None.

Definition improper_dots (key : string) : error :=
  ValidationError ("Invalid field name '" +:+ key +:+ "': improper dot notation") None.

Definition name_too_long (key : string) : error :=
  ValidationError ("Field name '" +:+ key +:+ "' exceeds maximum length of 256 characters") None.

(** [!/^\.|\.$|\.\./.test(fieldName)] *)
Definition isValidDottedField (fieldName : string) : bool :=
  negb (startsWith fieldName "." || endsWith fieldName "." || includes fieldName "..").

(** The first [for] loop of [validateDocument], over [Object.keys]. *)
Fixpoint check_keys (keys : list string) : result unit :=
  match keys with
  | [] => Ok tt
  | key :: rest =>
      if startsWith key "_" then Throw (reserved_field key)
      else if includes key "." && negb (isValidDottedField key) then Throw (improper_dots key)
      else if (256 <? Z.of_nat (String.length key))%Z then Throw (name_too_long key)
      else check_keys rest
  end.

Definition MAX_NESTING_DEPTH : nat := 20.

Definition too_deep : error :=
  ValidationError
    ("Document nesting exceeds maximum depth of " +:+ Z_to_string (Z.of_nat MAX_NESTING_DEPTH))
    None.

Definition array_too_large (key : string) : error :=
  ValidationError ("Array field '" +:+ key +:+ "' contains too many elements (max 10,000)") None.

Definition string_too_long (key : string) : error :=
  ValidationError ("String field '" +:+ key +:+ "' exceeds maximum length of 1MB") None.

(** The two size tests that follow the recursive call in the loop body. *)
Definition check_value (key : string) (value : json) : result unit :=
  match value with
  | JArr items =>
      if (10000 <? Z.of_nat (length items))%Z then Throw (array_too_large key) else Ok tt
  | JStr s =>
      if (1024 * 1024 <? Z.of_nat (String.length s))%Z then Throw (string_too_long key)
      else Ok tt
  | _ => Ok tt
  end.

(** The call [validateNestedObject(value, depth)] on an object [value]. *)
Fixpoint walk (value : json) (depth : nat) {struct value} : result unit :=
  match value with
  | JObj entries =>
      if (MAX_NESTING_DEPTH <? depth)%nat then Throw too_deep
      else
        (fix loop (es : list (string * json)) : result unit :=
           match es with
           | [] => Ok tt
           | (key, v) :: rest =>
               match (match v with JObj _ => walk v (S depth) | _ => Ok tt end) with
               | Throw e => Throw e
               | Ok _ =>
                   match check_value key v with
                   | Throw e => Throw e
                   | Ok _ => loop rest
                   end
               end
           end) entries
  | _ => Ok tt
  end.

Definition validateNestedObject (obj : list (string * json)) (depth : nat) : result unit :=
  walk (JObj obj) depth.

Definition document_too_large : error :=
  ValidationError "Document size exceeds 100MB limit" None.

Definition validateDocument (document : list (string * json)) : result unit :=
  if (length (List.map fst document) =? 0)%nat
  then Throw (ValidationError "Document cannot be empty" None)
  else
    do _ <- check_keys (List.map fst document);
    let documentSize := Z.of_nat (String.length (JSON_stringify (JObj document))) in
    if (100 * 1024 * 1024 <? documentSize)%Z then Throw document_too_large
    else validateNestedObject document 0.

(** *** The write-payload invariants of the data model *)

(** A field name as the data model wants it: not starting with [_], dots
    only as separators (none leading, trailing or doubled), at most 256
    characters. *)
Definition valid_field_name (key : string) : bool :=
  negb (startsWith key "_")
  && negb (startsWith key ".") && negb (endsWith key ".") && negb (includes key "..")
  && (Z.of_nat (String.length key) <=? 256)%Z.

(** Every array has at most 10,000 elements and every string at most
    1 MiB, wherever it sits. *)
Fixpoint sizes_within_limits (v : json) : bool :=
  match v with
  | JStr s => (Z.of_nat (String.length s) <=? 1024 * 1024)%Z
  | JArr items =>
      (Z.of_nat (length items) <=? 10000)%Z && List.forallb sizes_within_limits items
  | JObj entries => List.forallb (fun kv => sizes_within_limits (snd kv)) entries
  | _ => true
  end.

Record valid_payload (document : list (string * json)) : Prop := {
  payload_nonempty : document <> [];
  payload_names : Forall (fun key => valid_field_name key = true) (List.map fst document);
  payload_size :
    (Z.of_nat (String.length (JSON_stringify (JObj document))) <= 100 * 1024 * 1024)%Z;
  payload_depth : (QueryDepth.nesting_depth (JObj document) <= 20)%nat;
  payload_sizes : sizes_within_limits (JObj document) = true
}.

(** Some key, at the top or nested in objects or arrays, starts with [_]. *)
Fixpoint has_reserved_key (v : json) : bool :=
  match v with
  | JArr items => List.existsb has_reserved_key items
  | JObj entries =>
      List.existsb (fun kv => startsWith (fst kv) "_" || has_reserved_key (snd kv)) entries
  | _ => false
  end.

(** [delete document[key]] *)
Definition remove_key (key : string) (document : list (string * json)) : list (string * json) :=
  List.filter (fun kv => negb (String.eqb (fst kv) key)) document.

(** *** Acceptance and rejection *)

Lemma check_keys_valid (keys : list string) :
  Forall (fun key => valid_field_name key = true) keys -> check_keys keys = Ok tt.
Proof.
  induction 1 as [|key rest Hk _ IH]; [reflexivity|].
  cbn [check_keys]. unfold valid_field_name in Hk.
  repeat (apply andb_prop in Hk; destruct Hk as [Hk ?]).
  apply negb_true_iff in Hk. rewrite Hk.
  unfold isValidDottedField.
  repeat match goal with H : negb _ = true |- _ => apply negb_true_iff in H; rewrite H end.
  cbn [orb negb]. rewrite andb_false_r.
  match goal with H : (_ <=? 256)%Z = true |- _ => apply Z.leb_le in H end.
  destruct (Z.ltb_spec 256 (Z.of_nat (String.length key))); [lia|exact IH].
Qed.

Lemma check_keys_first_reserved (keys : list string) (key : string) :
  List.In key keys -> startsWith key "_" = true ->
  (forall other, List.In other keys -> other <> key -> valid_field_name other = true) ->
  check_keys keys = Throw (reserved_field key).
Proof.
  intros Hin Hres. induction keys as [|k rest IH]; intros Hothers; [destruct Hin|].
  destruct (String.eqb_spec k key) as [->|Hne].
  - cbn [check_keys]. rewrite Hres. reflexivity.
  - assert (Hk : check_keys [k] = Ok tt).
    { apply check_keys_valid. constructor; [|constructor].
      apply Hothers; [left; reflexivity|exact Hne]. }
    cbn [check_keys] in Hk |- *.
    destruct (startsWith k "_"); [discriminate|].
    destruct (includes k "." && negb (isValidDottedField k)); [discriminate|].
    destruct (256 <? Z.of_nat (String.length k))%Z; [discriminate|].
    apply IH.
    + destruct Hin as [->|Hin]; [congruence|exact Hin].
    + intros other Ho. apply Hothers. right. exact Ho.
Qed.

Lemma walk_within_limits (v : json) :
  forall depth,
    (depth + QueryDepth.nesting_depth v <= MAX_NESTING_DEPTH)%nat ->
    sizes_within_limits v = true ->
    walk v depth = Ok tt.
Proof.
  induction v as [| | | | items _ | es IH] using json_ind'; try reflexivity.
  intros depth Hd Hs. cbn [walk].
  destruct (Nat.ltb_spec MAX_NESTING_DEPTH depth) as [Hlt|Hle]; [lia|].
  cbn [sizes_within_limits] in Hs. clear Hle.
  induction IH as [|[k x] rest Hx _ IHrest]; [reflexivity|].
  rewrite QueryDepth.nesting_depth_cons in Hd.
  cbn [List.forallb snd] in Hs. apply andb_prop in Hs. destruct Hs as [Hsx Hsrest].
  rewrite IHrest by (assumption || lia).
  destruct x as [| b | n | s | items | sub]; try reflexivity.
  - cbn [check_value]. cbn [sizes_within_limits] in Hsx. apply Z.leb_le in Hsx.
    destruct (Z.ltb_spec (1024 * 1024) (Z.of_nat (String.length s))); [lia|reflexivity].
  - cbn [check_value]. cbn [sizes_within_limits] in Hsx.
    apply andb_prop in Hsx. destruct Hsx as [Hlen _]. apply Z.leb_le in Hlen.
    destruct (Z.ltb_spec 10000 (Z.of_nat (length items))); [lia|reflexivity].
  - cbn [snd] in Hx. rewrite (Hx (S depth)) by (assumption || lia). reflexivity.
Qed.

(** Every payload that meets the invariants is accepted. *)
Lemma validateDocument_accepts (document : list (string * json)) :
  valid_payload document -> validateDocument document = Ok tt.
Proof.
  intros [Hne Hnames Hsize Hdepth Hsizes]. unfold validateDocument.
  destruct document as [|kv rest]; [congruence|].
  change (length (List.map fst (kv :: rest)) =? 0)%nat with false. cbv iota.
  rewrite check_keys_valid by exact Hnames. cbn [bind].
  destruct (Z.ltb_spec (100 * 1024 * 1024)
              (Z.of_nat (String.length (JSON_stringify (JObj (kv :: rest)))))); [lia|].
  apply walk_within_limits; [cbn [Nat.add]; exact Hdepth|exact Hsizes].
Qed.

Lemma check_keys_rejects (keys : list string) (key : string) :
  List.In key keys -> startsWith key "_" = true ->
  exists name,
    List.In name keys /\
    (check_keys keys = Throw (reserved_field name) \/
     check_keys keys = Throw (improper_dots name) \/
     check_keys keys = Throw (name_too_long name)).
Proof.
  intros Hin Hres. induction keys as [|k rest IH]; [destruct Hin|].
  cbn [check_keys].
  destruct (startsWith k "_") eqn:Hk; [exists k; split; [left; reflexivity|auto]|].
  destruct (includes k "." && negb (isValidDottedField k));
    [exists k; split; [left; reflexivity|auto]|].
  destruct (256 <? Z.of_nat (String.length k))%Z;
    [exists k; split; [left; reflexivity|auto]|].
  destruct Hin as [->|Hin]; [congruence|].
  destruct (IH Hin) as [name [Hname Hthrow]].
  exists name. split; [right; exact Hname|exact Hthrow].
Qed.

Lemma check_keys_reserved_after (before after : list string) (key : string) :
  Forall (fun name => valid_field_name name = true) before ->
  startsWith key "_" = true ->
  check_keys (before ++ key :: after) = Throw (reserved_field key).
Proof.
  intros Hbefore Hres. induction Hbefore as [|k rest Hk _ IH].
  - cbn [app check_keys]. rewrite Hres. reflexivity.
  - assert (Hone : check_keys [k] = Ok tt)
      by (apply check_keys_valid; constructor; [exact Hk|constructor]).
    cbn [app check_keys] in Hone |- *.
    destruct (startsWith k "_"); [discriminate|].
    destruct (includes k "." && negb (isValidDottedField k)); [discriminate|].
    destruct (256 <? Z.of_nat (String.length k))%Z; [discriminate|].
    exact IH.
Qed.

(** C4 (amended). A payload with a top-level key that starts with [_] is
    always rejected, with the ValidationError of a top-level field name:
    the reserved-field error that names this key when the top-level
    names before it are valid, and otherwise the reserved-field,
    dot-notation or length error of an earlier name.  Once the key is
    removed, a remainder that meets the payload invariants (non-empty,
    valid names, sizes and depth within limits) is accepted.  Keys below
    the top level are not examined. *)
Theorem validateDocument_reserved_top_level (document : list (string * json)) (key : string) :
  List.In key (List.map fst document) ->
  startsWith key "_" = true ->
  (exists name,
     List.In name (List.map fst document) /\
     (validateDocument document = Throw (reserved_field name) \/
      validateDocument document = Throw (improper_dots name) \/
      validateDocument document = Throw (name_too_long name))) /\
  (forall before after,
     List.map fst document = before ++ key :: after ->
     Forall (fun name => valid_field_name name = true) before ->
     validateDocument document =
       Throw (ValidationError
                ("Field name '" +:+ key +:+ "' cannot start with underscore (reserved)") None))
  /\ (valid_payload (remove_key key document) ->
      validateDocument (remove_key key document) = Ok tt).
Proof.
  intros Hin Hres.
  assert (Hcheck : validateDocument document =
                   do _ <- check_keys (List.map fst document);
                   if (100 * 1024 * 1024
                       <? Z.of_nat (String.length (JSON_stringify (JObj document))))%Z
                   then Throw document_too_large
                   else validateNestedObject document 0).
  { unfold validateDocument. destruct document as [|kv rest]; [destruct Hin|]. reflexivity. }
  split; [|split].
  - destruct (check_keys_rejects _ key Hin Hres) as [name [Hname Hthrow]].
    exists name. split; [exact Hname|].
    rewrite Hcheck. destruct Hthrow as [->|[->| ->]]; auto.
  - intros before after Hkeys Hbefore.
    rewrite Hcheck, Hkeys, (check_keys_reserved_after before after key Hbefore Hres).
    reflexivity.
  - apply validateDocument_accepts.
Qed.

(** C4 as stated fails below the top level: a payload whose only
    underscore key is nested passes validation. *)
Lemma validateDocument_nested_reserved_accepted :
  let document := [("user", JObj [("_id", JStr "u1")])] in
  has_reserved_key (JObj document) = true /\ validateDocument document = Ok tt.
Proof. split; vm_compute; reflexivity. Qed.

Lemma valid_payload_example : valid_payload [("title", JStr "t")].
Proof.
  split.
  - discriminate.
  - repeat constructor.
  - vm_compute. discriminate.
  - vm_compute. lia.
  - reflexivity.
Defined.

(** A dot-notation error of an earlier name comes before the
    reserved-field error. *)
Lemma validateDocument_earlier_name_first :
  validateDocument [("a..b", JNum 1); ("_id", JStr "u1")] = Throw (improper_dots "a..b") /\
  validateDocument [("_a", JNum 1); ("_b", JNum 2)] = Throw (reserved_field "_a").
Proof. split; reflexivity. Qed.

Lemma validateDocument_reserved_top_level_witness :
  validateDocument [("_id", JNum 1)] =
    Throw (ValidationError "Field name '_id' cannot start with underscore (reserved)" None) /\
  (let document := [("title", JStr "t"); ("_id", JStr "u1")] in
   validateDocument document =
     Throw (ValidationError "Field name '_id' cannot start with underscore (reserved)" None)
   /\ validateDocument (remove_key "_id" document) = Ok tt).
Proof.
  cbv zeta. split; [|split].
  - apply (proj1 (proj2 (validateDocument_reserved_top_level [("_id", JNum 1)] "_id"
                           ltac:(left; reflexivity) eq_refl)) [] []).
    + reflexivity.
    + constructor.
  - apply (proj1 (proj2 (validateDocument_reserved_top_level
                           [("title", JStr "t"); ("_id", JStr "u1")] "_id"
                           ltac:(right; left; reflexivity) eq_refl)) ["title"] []).
    + reflexivity.
    + repeat constructor.
  - apply (proj2 (proj2 (validateDocument_reserved_top_level
                           [("title", JStr "t"); ("_id", JStr "u1")] "_id"
                           ltac:(right; left; reflexivity) eq_refl))).
    exact valid_payload_example.
Defined.

End InsertData.

(** ** Error responses
    [handleError] and [sanitizeError] of src/errors/handlers.ts. *)

Module Errors.

Record ErrorResponse : Type := {
  code : string;
  message : string;
  statusCode : Z;
  context : option (list (string * json));
  timestamp : string;
  requestId : option string
}.

(** [handleError(error, requestId)]; [now] is [new Date().toISOString()]. *)
Definition handleError (now : string) (e : error) (requestId : option string) : ErrorResponse :=
  let mcp code status message context :=
    {| code := code; message := message; statusCode := status; context := context;
       timestamp := now; requestId := requestId |} in
  match e with
  | ValidationError m c => mcp "VALIDATION_ERROR" 400%Z m c
  | ConnectionError m c => mcp "CONNECTION_ERROR" 503%Z m c
  | AuthenticationError m c => mcp "AUTHENTICATION_ERROR" 401%Z m c
  | NotFoundError m c => mcp "NOT_FOUND" 404%Z m c
  | RateLimitError m c => mcp "RATE_LIMIT_EXCEEDED" 429%Z m c
  | ElasticsearchError m c => mcp "ELASTICSEARCH_ERROR" 500%Z m c
  | OtherError _ _ => mcp "INTERNAL_ERROR" 500%Z "An unexpected error occurred" None
  | ThrownValue _ => mcp "UNKNOWN_ERROR" 500%Z "An unknown error occurred" None
  end.

Definition sensitiveKeys : list string :=
  ["password"; "apiKey"; "token"; "secret"; "auth"; "authorization"; "credential"].

(** [sensitiveKeys.some(sensitive => key.toLowerCase().includes(sensitive))] *)
Definition is_sensitive (key : string) : bool :=
  List.existsb (fun sensitive => includes (toLowerCase key) sensitive) sensitiveKeys.

(** The loop over [Object.keys(context)]: an assignment to an existing key
    keeps its position. *)
Definition mask_context (ctx : list (string * json)) : list (string * json) :=
  List.map (fun kv => if is_sensitive (fst kv) then (fst kv, JStr "***") else kv) ctx.

Definition sanitizeError (resp : ErrorResponse) : ErrorResponse :=
  match context resp with
  | Some ctx =>
      {| code := code resp; message := message resp; statusCode := statusCode resp;
         context := Some (mask_context ctx);
         timestamp := timestamp resp; requestId := requestId resp |}
  | None => resp
  end.

(** *** What the specification calls sensitive *)

(** A key is sensitive when, letter case aside, it contains one of the
    names the specification lists. *)
Definition names_secret (key : string) : bool :=
  List.existsb (fun name => includes (toLowerCase key) (toLowerCase name))
    ["password"; "apiKey"; "token"; "secret"; "auth"; "authorization"; "credential"].

(** The names of the list that are written in lower case. *)
Definition lower_case_names : list string :=
  ["password"; "token"; "secret"; "auth"; "authorization"; "credential"].

Definition names_lower_case_secret (key : string) : bool :=
  List.existsb (fun name => includes (toLowerCase key) name) lower_case_names.

(** Every value stored under a sensitive key, at any depth, is the
    mask ["***"]. *)
Fixpoint fully_masked (v : json) : bool :=
  match v with
  | JArr items => List.forallb fully_masked items
  | JObj entries =>
      List.forallb
        (fun kv =>
           if names_secret (fst kv)
           then match snd kv with JStr s => String.eqb s "***" | _ => false end
           else fully_masked (snd kv))
        entries
  | _ => true
  end.

(** *** Substrings of lower-cased keys *)

Lemma lower_char_not_upper (c : ascii) : is_upper (lower_char c) = false.
Proof. destruct c as [[] [] [] [] [] [] [] []]; reflexivity. Qed.

Lemma toLowerCase_no_upper (s : string) :
  string_forallb (fun c => negb (is_upper c)) (toLowerCase s) = true.
Proof.
  induction s as [|c s IH]; [reflexivity|].
  cbn [toLowerCase string_forallb]. rewrite lower_char_not_upper, IH. reflexivity.
Qed.

Lemma startsWith_forallb (f : ascii -> bool) (p s : string) :
  startsWith s p = true -> string_forallb f s = true -> string_forallb f p = true.
Proof.
  revert s. induction p as [|c p IH]; intros s Hp Hs; [reflexivity|].
  destruct s as [|d s]; [discriminate|].
  cbn [startsWith string_forallb] in *.
  apply andb_prop in Hp. destruct Hp as [Hc Hp].
  apply andb_prop in Hs. destruct Hs as [Hd Hs].
  apply Ascii.eqb_eq in Hc. subst d. rewrite Hd. cbn [andb]. exact (IH s Hp Hs).
Qed.

Lemma includes_forallb (f : ascii -> bool) (p s : string) :
  includes s p = true -> string_forallb f s = true -> string_forallb f p = true.
Proof.
  induction s as [|d s IH]; intros Hp Hs.
  - cbn [includes] in Hp. rewrite orb_false_r in Hp. exact (startsWith_forallb f p _ Hp Hs).
  - cbn [includes] in Hp. apply orb_prop in Hp. destruct Hp as [Hp|Hp].
    + exact (startsWith_forallb f p _ Hp Hs).
    + cbn [string_forallb] in Hs. apply andb_prop in Hs. destruct Hs as [_ Hs]. auto.
Qed.

(** The entry [apiKey] of [sensitiveKeys] has a capital letter and is
    compared with a lower-cased key: it never matches. *)
Lemma apiKey_never_matches (key : string) : includes (toLowerCase key) "apiKey" = false.
Proof.
  destruct (includes (toLowerCase key) "apiKey") eqn:H; [|reflexivity].
  pose proof (includes_forallb _ _ _ H (toLowerCase_no_upper key)) as Hf.
  vm_compute in Hf. discriminate.
Qed.

Lemma is_sensitive_lower_case_names (key : string) :
  is_sensitive key = names_lower_case_secret key.
Proof.
  unfold is_sensitive, names_lower_case_secret, sensitiveKeys, lower_case_names.
  cbn [List.existsb]. rewrite apiKey_never_matches. reflexivity.
Qed.

Lemma mask_context_keys (ctx : list (string * json)) :
  List.map fst (mask_context ctx) = List.map fst ctx.
Proof.
  unfold mask_context. rewrite List.map_map. apply List.map_ext.
  intros [k v]. cbn [fst]. destruct (is_sensitive k); reflexivity.
Qed.

Lemma mask_context_sensitive (ctx : list (string * json)) (key : string) (v : json) :
  is_sensitive key = true -> List.In (key, v) (mask_context ctx) -> v = JStr "***".
Proof.
  intros Hs Hin. unfold mask_context in Hin. apply List.in_map_iff in Hin.
  destruct Hin as [[k x] [Heq _]]. cbn [fst] in Heq.
  destruct (is_sensitive k) eqn:Hk.
  - congruence.
  - injection Heq as -> ->. congruence.
Qed.

Lemma mask_context_other (ctx : list (string * json)) (key : string) (v : json) :
  is_sensitive key = false -> List.In (key, v) ctx -> List.In (key, v) (mask_context ctx).
Proof.
  intros Hs Hin. unfold mask_context. apply List.in_map_iff.
  exists (key, v). cbn [fst]. rewrite Hs. split; [reflexivity|exact Hin].
Qed.

(** C9 (amended). When the context of an error response has a top-level
    key whose lower-cased form contains one of password, token, secret,
    auth, authorization or credential, [sanitizeError] returns a response
    with the same code, message and status and with the same context
    keys, in which every value stored under that key is ["***"].  Keys
    inside the context's values are not examined. *)
Theorem sanitizeError_masks_top_level
  (resp : ErrorResponse) (ctx : list (string * json)) (key : string) :
  context resp = Some ctx ->
  List.In key (List.map fst ctx) ->
  names_lower_case_secret key = true ->
  exists ctx',
    context (sanitizeError resp) = Some ctx' /\
    List.map fst ctx' = List.map fst ctx /\
    (forall v, List.In (key, v) ctx' -> v = JStr "***") /\
    code (sanitizeError resp) = code resp /\
    message (sanitizeError resp) = message resp /\
    statusCode (sanitizeError resp) = statusCode resp.
Proof.
  intros Hctx _ Hname. unfold sanitizeError. rewrite Hctx.
  exists (mask_context ctx). cbn.
  repeat split; auto using mask_context_keys.
  intros v. apply mask_context_sensitive.
  rewrite is_sensitive_lower_case_names. exact Hname.
Qed.

(** The response built for an error that carries the tool arguments. *)
Definition nested_secret_response : ErrorResponse :=
  handleError "2024-01-15T10:30:00.000Z"
    (ElasticsearchError "Failed to insert document into Elasticsearch"
       (Some [("args", JObj [("index", JStr "users");
                             ("document", JObj [("password", JStr "hunter2")])]);
              ("originalError", JObj [("name", JStr "Error"); ("message", JStr "boom")])]))
    (Some "call-tool").

(** C9 as stated fails for a sensitive key below the top level: the
    password nested in the arguments survives [sanitizeError]. *)
Lemma sanitizeError_nested_secret_kept :
  sanitizeError nested_secret_response = nested_secret_response /\
  match context (sanitizeError nested_secret_response) with
  | Some ctx =>
      fully_masked (JObj ctx) = false /\
      get_prop (JObj ctx) "args" =
        Some (JObj [("index", JStr "users");
                    ("document", JObj [("password", JStr "hunter2")])])
  | None => False
  end.
Proof. split; [|split]; vm_compute; reflexivity. Qed.

(** A top-level [apiKey] is left as it is. *)
Lemma sanitizeError_apiKey_kept (resp : ErrorResponse) (secret : json) :
  context resp = Some [("apiKey", secret)] -> sanitizeError resp = resp.
Proof.
  intros H. unfold sanitizeError. rewrite H.
  destruct resp as [c m st cx ts rid]. cbn in *. subst cx. reflexivity.
Qed.

Lemma sanitizeError_masks_top_level_witness :
  exists ctx',
    context (sanitizeError
               (handleError "2024-01-15T10:30:00.000Z"
                  (ConnectionError "connect failed"
                     (Some [("node", JStr "https://es:9200"); ("Authorization", JStr "Basic abc")]))
                  None)) = Some ctx' /\
    forall v, List.In ("Authorization", v) ctx' -> v = JStr "***".
Proof.
  destruct (sanitizeError_masks_top_level
              (handleError "2024-01-15T10:30:00.000Z"
                 (ConnectionError "connect failed"
                    (Some [("node", JStr "https://es:9200"); ("Authorization", JStr "Basic abc")]))
                 None)
              [("node", JStr "https://es:9200"); ("Authorization", JStr "Basic abc")]
              "Authorization")
    as [ctx' [H1 [_ [H3 _]]]].
  - reflexivity.
  - right; left; reflexivity.
  - vm_compute; reflexivity.
  - exists ctx'. split; assumption.
Defined.

End Errors.

(** ** CSV export: the output file name
    [generateFilename] of src/tools/export-to-csv.ts (lines 132-145). *)

Module Filename.

(** The characters of the class [[a-zA-Z0-9._-]]. *)
Definition in_class (c : ascii) : bool :=
  is_lower c || is_upper c || is_digit c
  || Ascii.eqb c "." || Ascii.eqb c "_" || Ascii.eqb c "-".

(** [.replace(/[^a-zA-Z0-9._-]/g, '_')] *)
Definition replace_outside (s : string) : string :=
  string_map (fun c => if in_class c then c else "_"%char) s.

(** [.replace(/_{2,}/g, '_')]: of a run of underscores one is kept. *)
Fixpoint collapse_underscores (s : string) : string :=
  match s with
  | EmptyString => EmptyString
  | String c s' =>
      if Ascii.eqb c "_" && startsWith s' "_" then collapse_underscores s'
      else String c (collapse_underscores s')
  end.

Definition ensure_csv (sanitized : string) : string :=
  if endsWith sanitized ".csv" then sanitized else sanitized +:+ ".csv".

(** [new Date().toISOString().replace(/[:.]/g, '-').split('T')[0]] for
    the clock reading [now_iso]. *)
Definition timestamp (now_iso : string) : string :=
  let dashed :=
    string_map (fun c => if Ascii.eqb c ":" || Ascii.eqb c "." then "-"%char else c) now_iso in
  List.hd EmptyString (split "T" dashed).

(** [args.filename] is [None] when the caller gave none; the empty string
    is falsy and takes the second branch as well. *)
Definition generateFilename (now_iso : string) (index : string) (filename : option string)
  : string :=
  match filename with
  | Some name =>
      if negb (String.eqb name EmptyString)
      then ensure_csv (collapse_underscores (replace_outside name))
      else index +:+ "_export_" +:+ timestamp now_iso +:+ ".csv"
  | None => index +:+ "_export_" +:+ timestamp now_iso +:+ ".csv"
  end.

(** *** The specification's wording *)

Fixpoint string_filter (f : ascii -> bool) (s : string) : string :=
  match s with
  | EmptyString => EmptyString
  | String c s' => if f c then String c (string_filter f s') else string_filter f s'
  end.

(** "Strip characters outside [A-Za-z0-9._-]": the characters of the
    class, in order, the others dropped. *)
Definition strip_outside (s : string) : string := string_filter in_class s.

Definition not_underscore (c : ascii) : bool := negb (Ascii.eqb c "_").

(** A character that ends up as an underscore: outside the class, or an
    underscore already. *)
Definition becomes_underscore (c : ascii) : bool := negb (in_class c) || Ascii.eqb c "_".

Definition starts_with_underscored (s : string) : bool :=
  match s with
  | EmptyString => false
  | String c _ => becomes_underscore c
  end.

(** One pass over the name: every maximal run of characters that are
    outside the class or underscores gives a single underscore, every
    other character is copied. *)
Fixpoint squeeze (s : string) : string :=
  match s with
  | EmptyString => EmptyString
  | String c s' =>
      if becomes_underscore c
      then if starts_with_underscored s' then squeeze s' else String "_" (squeeze s')
      else String c (squeeze s')
  end.

(** A date as [toISOString] prints it: no [T], colon or dot inside. *)
Definition date_char (c : ascii) : bool :=
  negb (Ascii.eqb c "T") && negb (Ascii.eqb c ":") && negb (Ascii.eqb c ".").

(** *** Facts about the three steps *)

Lemma replaced_char (c : ascii) :
  (if in_class c then c else "_"%char) = (if becomes_underscore c then "_"%char else c).
Proof.
  unfold becomes_underscore. destruct (in_class c) eqn:Hc; cbn [negb orb]; [|reflexivity].
  destruct (Ascii.eqb_spec c "_"); congruence.
Qed.

Lemma startsWith_underscore (s : string) :
  startsWith s "_" = match s with String c _ => Ascii.eqb c "_" | EmptyString => false end.
Proof.
  destruct s as [|c s]; [reflexivity|].
  cbn [startsWith]. rewrite andb_true_r. apply Ascii.eqb_sym.
Qed.

Lemma replace_outside_starts (s : string) :
  startsWith (replace_outside s) "_" = starts_with_underscored s.
Proof.
  rewrite startsWith_underscore. destruct s as [|c s]; [reflexivity|].
  cbn [replace_outside string_map starts_with_underscored]. rewrite replaced_char.
  destruct (becomes_underscore c) eqn:Hb; [reflexivity|].
  unfold becomes_underscore in Hb. apply orb_false_elim in Hb. tauto.
Qed.

Lemma collapse_replace_squeeze (s : string) :
  collapse_underscores (replace_outside s) = squeeze s.
Proof.
  induction s as [|c s IH]; [reflexivity|].
  change (replace_outside (String c s))
    with (String (if in_class c then c else "_"%char) (replace_outside s)).
  cbn [collapse_underscores squeeze]. rewrite replaced_char, replace_outside_starts, IH.
  destruct (becomes_underscore c) eqn:Hb.
  - cbn [Ascii.eqb Bool.eqb andb]. destruct (starts_with_underscored s); reflexivity.
  - unfold becomes_underscore in Hb. apply orb_false_elim in Hb. destruct Hb as [_ Hb].
    rewrite Hb. reflexivity.
Qed.

Lemma replace_outside_in_class (s : string) :
  string_forallb in_class (replace_outside s) = true.
Proof.
  induction s as [|c s IH]; [reflexivity|].
  cbn [replace_outside string_map string_forallb]. fold (replace_outside s). rewrite IH.
  destruct (in_class c) eqn:Hc; [rewrite Hc|]; reflexivity.
Qed.

Lemma collapse_forallb (f : ascii -> bool) (s : string) :
  string_forallb f s = true -> string_forallb f (collapse_underscores s) = true.
Proof.
  induction s as [|c s IH]; [reflexivity|].
  cbn [string_forallb collapse_underscores]. intros H.
  apply andb_prop in H. destruct H as [Hc Hs].
  destruct (Ascii.eqb c "_" && startsWith s "_"); [auto|].
  cbn [string_forallb]. rewrite Hc. auto.
Qed.

Lemma collapse_starts (s : string) :
  startsWith (collapse_underscores s) "_" = startsWith s "_".
Proof.
  induction s as [|c s IH]; [reflexivity|].
  cbn [collapse_underscores].
  destruct (Ascii.eqb c "_" && startsWith s "_") eqn:Hd.
  - apply andb_prop in Hd. destruct Hd as [Hc Hs].
    rewrite IH, Hs, startsWith_underscore. symmetry. exact Hc.
  - rewrite !startsWith_underscore. reflexivity.
Qed.

Lemma startsWith_two_underscores (c : ascii) (s : string) :
  startsWith (String c s) "__" = Ascii.eqb c "_" && startsWith s "_".
Proof. cbn [startsWith]. rewrite (Ascii.eqb_sym "_" c). reflexivity. Qed.

Lemma collapse_no_double (s : string) :
  includes (collapse_underscores s) "__" = false.
Proof.
  induction s as [|c s IH]; [reflexivity|].
  cbn [collapse_underscores].
  destruct (Ascii.eqb c "_" && startsWith s "_") eqn:Hd; [exact IH|].
  cbn [includes]. rewrite IH, orb_false_r, startsWith_two_underscores, collapse_starts.
  exact Hd.
Qed.

Lemma collapse_keeps_others (s : string) :
  string_filter not_underscore (collapse_underscores s) = string_filter not_underscore s.
Proof.
  induction s as [|c s IH]; [reflexivity|].
  cbn [collapse_underscores].
  destruct (Ascii.eqb c "_" && startsWith s "_") eqn:Hd.
  - apply andb_prop in Hd. destruct Hd as [Hc _].
    cbn [string_filter]. unfold not_underscore at 2. rewrite Hc. exact IH.
  - cbn [string_filter]. rewrite IH. reflexivity.
Qed.

Lemma replace_keeps_class (s : string) :
  string_filter not_underscore (replace_outside s) =
  string_filter not_underscore (strip_outside s).
Proof.
  induction s as [|c s IH]; [reflexivity|].
  cbn [replace_outside string_map strip_outside string_filter].
  fold (replace_outside s). fold (strip_outside s).
  destruct (in_class c); cbn [string_filter].
  - rewrite IH. reflexivity.
  - exact IH.
Qed.

Lemma ensure_csv_suffix (s : string) : endsWith (ensure_csv s) ".csv" = true.
Proof.
  unfold ensure_csv. destruct (endsWith s ".csv") eqn:H; [exact H|].
  clear H. induction s as [|c s IH]; [reflexivity|].
  change (String c s +:+ ".csv") with (String c (s +:+ ".csv")).
  cbn [endsWith]. rewrite IH. apply orb_true_r.
Qed.

Lemma timestamp_date (date rest : string) :
  string_forallb date_char date = true ->
  timestamp (date +:+ "T" +:+ rest) = date.
Proof.
  unfold timestamp. induction date as [|c date IH]; intros Hd.
  - cbn [String.append string_map]. cbn [Ascii.eqb Bool.eqb orb andb split].
    reflexivity.
  - cbn [string_forallb] in Hd. apply andb_prop in Hd. destruct Hd as [Hc Hd].
    specialize (IH Hd). unfold date_char in Hc.
    apply andb_prop in Hc. destruct Hc as [Hc Hdot].
    apply andb_prop in Hc. destruct Hc as [HT Hcolon].
    apply negb_true_iff in HT, Hcolon, Hdot.
    change (String c date +:+ "T" +:+ rest) with (String c (date +:+ "T" +:+ rest)).
    cbn [string_map]. rewrite Hcolon, Hdot. cbn [orb split]. rewrite HT.
    destruct (split "T" _) as [|hd tl]; cbn [List.hd] in *; congruence.
Qed.

(** C8 (amended). For a non-empty caller-supplied name the output is
    the sanitized name, followed by [.csv] unless it already ends so,
    where the sanitized name is the input with every maximal run of
    underscores and of characters outside [A-Za-z0-9._-] replaced by one
    underscore (the characters are replaced, not dropped): it has only
    characters of the class, no two underscores in a row, and the same
    characters as the stripped input once underscores are left aside.
    Without a name, or with the empty name, the output is
    <index>_export_<date>.csv for the date part of the clock reading. *)
Theorem generateFilename_sanitized
  (now_iso index name date rest : string) :
  name <> EmptyString ->
  now_iso = date +:+ "T" +:+ rest ->
  string_forallb date_char date = true ->
  (exists sanitized,
      generateFilename now_iso index (Some name) =
        (if endsWith sanitized ".csv" then sanitized else sanitized +:+ ".csv") /\
      sanitized = squeeze name /\
      string_forallb in_class sanitized = true /\
      includes sanitized "__" = false /\
      string_filter not_underscore sanitized =
        string_filter not_underscore (strip_outside name) /\
      endsWith (generateFilename now_iso index (Some name)) ".csv" = true) /\
  generateFilename now_iso index None = index +:+ "_export_" +:+ date +:+ ".csv" /\
  generateFilename now_iso index (Some EmptyString) = index +:+ "_export_" +:+ date +:+ ".csv".
Proof.
  intros Hname Hnow Hdate. split.
  - exists (collapse_underscores (replace_outside name)).
    assert (Hgen : generateFilename now_iso index (Some name) =
                   ensure_csv (collapse_underscores (replace_outside name))).
    { unfold generateFilename. destruct (String.eqb_spec name EmptyString); [contradiction|].
      reflexivity. }
    rewrite Hgen. repeat split.
    + apply collapse_replace_squeeze.
    + apply collapse_forallb, replace_outside_in_class.
    + apply collapse_no_double.
    + rewrite collapse_keeps_others. apply replace_keeps_class.
    + apply ensure_csv_suffix.
  - subst now_iso. unfold generateFilename. cbn [String.eqb negb].
    rewrite (timestamp_date date rest Hdate). split; reflexivity.
Qed.

(** C8 as stated fails: a character outside the class is not stripped
    but turned into an underscore. *)
Lemma generateFilename_not_stripped :
  generateFilename "2024-01-15T10:30:00.000Z" "users" (Some "a b") = "a_b.csv" /\
  ensure_csv (strip_outside "a b") = "ab.csv" /\
  generateFilename "2024-01-15T10:30:00.000Z" "users" (Some "a b")
    <> ensure_csv (strip_outside "a b").
Proof. repeat split; [vm_compute; reflexivity ..|vm_compute; discriminate]. Qed.

Lemma generateFilename_sanitized_witness :
  generateFilename "2024-01-15T10:30:00.000Z" "users" (Some "my report (final).csv")
    = "my_report_final_.csv" /\
  generateFilename "2024-01-15T10:30:00.000Z" "users" None = "users_export_2024-01-15.csv".
Proof.
  destruct (generateFilename_sanitized
              "2024-01-15T10:30:00.000Z" "users" "my report (final).csv"
              "2024-01-15" "10:30:00.000Z")
    as [[sanitized [Hout [Hs _]]] [Hnone _]].
  - discriminate.
  - reflexivity.
  - reflexivity.
  - split; [|exact Hnone]. rewrite Hout, Hs. reflexivity.
Defined.

End Filename.

(** ** CSV export: columns and cells
    [determineFields], [extractFieldNames] and [extractFieldValue] of
    src/tools/export-to-csv.ts (lines 147-221 and 320-342). *)

Module Fields.

(** [prefix ? `${prefix}.${key}` : key] *)
Definition field_name (prefix key : string) : string :=
  if negb (String.eqb prefix EmptyString) then prefix +:+ "." +:+ key else key.

(** [extractFieldNames(properties, prefix)].  The loop body is [visit]:
    a value with a truthy [type] is a field, one with truthy [properties]
    and no [type] is descended into, anything else is skipped.  The
    inner [find] is the lookup of [fieldConfig.properties]. *)
Fixpoint extractFieldNames (properties : json) (prefix : string) {struct properties}
  : list string :=
  let visit (key : string) (value : json) : list string :=
    match value with
    | JObj config =>
        if truthy (lookup_entry "type" config) then [field_name prefix key]
        else
          (fix find (cs : list (string * json)) : list string :=
             match cs with
             | [] => []
             | (k, p) :: more =>
                 if String.eqb k "properties"
                 then if truthy (Some p) then extractFieldNames p (field_name prefix key) else []
                 else find more
             end) config
    | _ => []
    end in
  match properties with
  | JObj entries =>
      (fix each (es : list (string * json)) : list string :=
         match es with
         | [] => []
         | (key, value) :: rest => visit key value ++ each rest
         end) entries
  | JArr items =>
      (fix each (i : nat) (l : list json) : list string :=
         match l with
         | [] => []
         | value :: rest => visit (Z_to_string (Z.of_nat i)) value ++ each (S i) rest
         end) 0%nat items
  | _ => []
  end.

(** A search hit as the export reads it: [hit._source]. *)
Record Hit : Type := { _source : option json }.

(** The cluster client as [determineFields] uses it: the answer of
    [indices.getMapping] and the answer of the [n]-th sample search
    ([size: 1]), which is the list [hits.hits]. *)
Record MappingClient : Type := {
  getMapping : result json;
  sampleSearch : nat -> result (list Hit)
}.

(** [Object.keys(sampleDoc || {})] for the first hit, if there is one. *)
Definition sample_keys (hits : list Hit) : option (list string) :=
  match hits with
  | hit :: _ =>
      Some (match _source hit with
            | Some doc => if truthy (Some doc) then Object_keys doc else []
            | None => []
            end)
  | [] => None
  end.

(** [Object.values(mappingResponse)[0]?.mappings?.properties || {}] *)
Definition mapping_properties (mappingResponse : json) : json :=
  let indexMapping :=
    match Object_entries mappingResponse with
    | (_, v) :: _ => Some v
    | [] => None
    end in
  let mappings := match indexMapping with Some v => get_prop v "mappings" | None => None end in
  let properties := match mappings with Some v => get_prop v "properties" | None => None end in
  match properties with
  | Some p => if truthy (Some p) then p else JObj []
  | None => JObj []
  end.

Definition could_not_determine : error :=
  ValidationError "Could not determine fields to export and no fields specified" None.

(** The [catch] block; [n] sample searches were issued before it. *)
Definition fallback_after_failure (client : MappingClient) (n : nat) : result (list string) :=
  do hits <- sampleSearch client n;
  match sample_keys hits with
  | Some keys => Ok keys
  | None => Throw could_not_determine
  end.

Definition determineFields (fields : option (list string)) (client : MappingClient)
  : result (list string) :=
  match fields with
  | Some (f :: fs) => Ok (f :: fs)
  | _ =>
      match getMapping client with
      | Throw _ => fallback_after_failure client 0
      | Ok mappingResponse =>
          let fields := extractFieldNames (mapping_properties mappingResponse) EmptyString in
          if (length fields =? 0)%nat then
            match sampleSearch client 0 with
            | Throw _ => fallback_after_failure client 1
            | Ok hits =>
                match sample_keys hits with
                | Some keys => Ok keys
                | None => Ok fields
                end
            end
          else Ok fields
      end
  end.

(** What [extractFieldValue] can hold on its way and return.  Property
    access [value[part]] on an object of the document finds the object's
    own entry and, when there is none, what the object inherits from
    [Object.prototype]: one of its functions, or, under [__proto__], the
    prototype itself. *)
Inductive jsvalue : Type :=
| Data (v : json)
| Builtin (member : string)
| ObjectPrototype.

(** The function-valued members of [Object.prototype]. *)
Definition prototype_functions : list string :=
  ["constructor"; "__defineGetter__"; "__defineSetter__"; "hasOwnProperty";
   "__lookupGetter__"; "__lookupSetter__"; "isPrototypeOf"; "propertyIsEnumerable";
   "toString"; "valueOf"; "toLocaleString"].

Definition is_prototype_function (part : string) : bool :=
  List.existsb (String.eqb part) prototype_functions.

(** A name that every object answers without an entry of its own. *)
Definition is_inherited_name (part : string) : bool :=
  String.eqb part "__proto__" || is_prototype_function part.

(** [Object.prototype[part]] for a receiver whose prototype is [proto]:
    the getter of [__proto__] answers the receiver's prototype. *)
Definition prototype_member (part : string) (proto : jsvalue) : option jsvalue :=
  if String.eqb part "__proto__" then Some proto
  else if is_prototype_function part then Some (Builtin part)
  else None.

(** [value[part]] for an object of the document. *)
Definition get_member (entries : list (string * json)) (part : string) : option jsvalue :=
  match lookup_entry part entries with
  | Some v => Some (Data v)
  | None => prototype_member part ObjectPrototype
  end.

(** [extractFieldValue(source, fieldPath)]; the result [None] is
    [undefined], [Some (Data JNull)] is [null].  A function is neither
    [null] nor of type ['object']: inside the path it ends the walk with
    [null], at the end it is returned as it is.  [Object.prototype] is an
    object without enumerable entries: its prototype is [null] and its
    JSON text is [{}]. *)
Fixpoint follow (parts : list string) (value : option jsvalue) : option jsvalue :=
  match parts with
  | [] =>
      match value with
      | Some (Data (JObj _ as v)) | Some (Data (JArr _ as v)) =>
          Some (Data (JStr (JSON_stringify v)))
      | Some ObjectPrototype => Some (Data (JStr (JSON_stringify (JObj []))))
      | _ => value
      end
  | part :: rest =>
      match value with
      | None | Some (Data JNull) => Some (Data JNull)
      | Some (Data (JObj entries)) => follow rest (get_member entries part)
      | Some ObjectPrototype => follow rest (prototype_member part (Data JNull))
      | Some _ => Some (Data JNull)
      end
  end.

Definition extractFieldValue (source : option json) (fieldPath : string) : option jsvalue :=
  follow (split "." fieldPath) (option_map Data source).

(** The record built for one hit, by its own entries:
    [record[field] = extractFieldValue(...)] for every field, in order.
    An assignment to [__proto__] makes no entry: it goes to the setter
    that the record inherits. *)
Definition to_record (fields : list string) (hit : Hit) : list (string * option jsvalue) :=
  List.map (fun field => (field, extractFieldValue (_source hit) field))
    (List.filter (fun field => negb (String.eqb field "__proto__")) fields).

(** *** Field discovery, case by case *)

(** The loop body of [extractFieldNames], in the source's words. *)
Definition visit_entry (prefix key : string) (value : json) : list string :=
  if is_object_or_array value then
    if truthy (get_prop value "type") then [field_name prefix key]
    else
      match get_prop value "properties" with
      | Some p => if truthy (Some p) then extractFieldNames p (field_name prefix key) else []
      | None => []
      end
  else [].

Lemma extractFieldNames_cons (key : string) (value : json) (rest : list (string * json))
  (prefix : string) :
  extractFieldNames (JObj ((key, value) :: rest)) prefix =
  visit_entry prefix key value ++ extractFieldNames (JObj rest) prefix.
Proof.
  cbn [extractFieldNames]. f_equal.
  unfold visit_entry. destruct value as [| | | | items | config]; try reflexivity.
  cbn [is_object_or_array get_prop].
  destruct (truthy (lookup_entry "type" config)); [reflexivity|].
  induction config as [|[k p] more IH]; [reflexivity|].
  cbn [lookup_entry]. destruct (String.eqb k "properties"); [reflexivity|exact IH].
Qed.

Lemma extractFieldNames_nil (prefix : string) : extractFieldNames (JObj []) prefix = [].
Proof. reflexivity. Qed.

(** A caller's non-empty field list comes back as it is, whatever the
    cluster would answer. *)
Lemma determineFields_explicit (fields : list string) (client : MappingClient) :
  fields <> [] -> determineFields (Some fields) client = Ok fields.
Proof. destruct fields; [congruence|reflexivity]. Qed.

(** Without a field list, a mapping that has fields gives them. *)
Lemma determineFields_from_mapping (client : MappingClient) (mappingResponse : json) :
  getMapping client = Ok mappingResponse ->
  extractFieldNames (mapping_properties mappingResponse) EmptyString <> [] ->
  determineFields None client =
  Ok (extractFieldNames (mapping_properties mappingResponse) EmptyString).
Proof.
  intros Hm Hne. unfold determineFields. rewrite Hm.
  destruct (extractFieldNames _ _); [congruence|reflexivity].
Qed.

(** A mapping without fields: the keys of the one sample record. *)
Lemma determineFields_from_sample (client : MappingClient) (mappingResponse : json)
  (hit : Hit) (others : list Hit) (doc : list (string * json)) :
  getMapping client = Ok mappingResponse ->
  extractFieldNames (mapping_properties mappingResponse) EmptyString = [] ->
  sampleSearch client 0 = Ok (hit :: others) ->
  _source hit = Some (JObj doc) ->
  determineFields None client = Ok (List.map fst doc).
Proof.
  intros Hm He Hs Hd. unfold determineFields. rewrite Hm, He. cbn [length Nat.eqb].
  rewrite Hs. cbn [sample_keys]. rewrite Hd. reflexivity.
Qed.

(** The mapping lookup fails and the sample search finds nothing: the
    ValidationError of the [catch] block. *)
Lemma determineFields_lookup_failed_no_sample (client : MappingClient) (e : error) :
  getMapping client = Throw e ->
  sampleSearch client 0 = Ok [] ->
  determineFields None client = Throw could_not_determine.
Proof.
  intros Hm Hs. unfold determineFields, fallback_after_failure. rewrite Hm, Hs. reflexivity.
Qed.

(** The mapping lookup succeeds without fields and the sample search
    finds nothing: the empty field list is returned. *)
Lemma determineFields_no_fields_no_sample (client : MappingClient) (mappingResponse : json) :
  getMapping client = Ok mappingResponse ->
  extractFieldNames (mapping_properties mappingResponse) EmptyString = [] ->
  sampleSearch client 0 = Ok [] ->
  determineFields None client = Ok [].
Proof.
  intros Hm He Hs. unfold determineFields. rewrite Hm, He. cbn [length Nat.eqb].
  rewrite Hs. reflexivity.
Qed.

(** An index without mapped fields and without documents. *)
Definition empty_index_client : MappingClient :=
  {| getMapping := Ok (JObj [("logs", JObj [("mappings", JObj [])])]);
     sampleSearch := fun _ => Ok [] |}.

(** The same index when the mapping lookup is rejected. *)
Definition failing_lookup_client : MappingClient :=
  {| getMapping := Throw (OtherError "ResponseError" "index_not_found_exception");
     sampleSearch := fun _ => Ok [] |}.

(** C5 at the failing input. With no field list, a mapping that yields
    no field and a sample search that yields no record, field discovery
    returns the empty list; the ValidationError is raised only when the
    mapping lookup itself was rejected. *)
Theorem determineFields_empty_index :
  determineFields None empty_index_client = Ok [] /\
  determineFields None failing_lookup_client =
    Throw (ValidationError "Could not determine fields to export and no fields specified" None).
Proof. split; reflexivity. Qed.

(** *** The CSV writer (package csv-writer), as far as a row goes *)

(** [String(v)] *)
Fixpoint String_of (v : json) : string :=
  match v with
  | JNull => "null"
  | JBool true => "true"
  | JBool false => "false"
  | JNum n => Z_to_string n
  | JStr s => s
  | JArr items =>
      join "," (List.map (fun e => match e with JNull => EmptyString | _ => String_of e end)
                         items)
  | JObj _ => "[object Object]"
  end.

Fixpoint double_quotes (s : string) : string :=
  match s with
  | EmptyString => EmptyString
  | String c s' =>
      if Ascii.eqb c quote_char then String c (String c (double_quotes s'))
      else String c (double_quotes s')
  end.

(** [String(v)] for what a record can hold; a built-in function prints
    as Node prints it. *)
Definition String_of_value (v : jsvalue) : string :=
  match v with
  | Data j => String_of j
  | Builtin member =>
      "function " +:+ (if String.eqb member "constructor" then "Object" else member)
      +:+ "() { [native code] }"
  | ObjectPrototype => "[object Object]"
  end.

(** The writer's field stringifier: [undefined], [null] and the empty
    string give an empty cell; a text holding the delimiter, a line
    break or a quote is quoted. *)
Definition render_cell (delimiter : string) (value : option jsvalue) : string :=
  match value with
  | None | Some (Data JNull) => EmptyString
  | Some v =>
      let str := String_of_value v in
      if String.eqb str EmptyString then EmptyString
      else if includes str delimiter
              || includes str (String (ascii_of_nat 13) EmptyString)
              || includes str (String (ascii_of_nat 10) EmptyString)
              || includes str (String quote_char EmptyString)
      then String quote_char (double_quotes str +:+ String quote_char EmptyString)
      else str
  end.

(** [record[field.id]] for a header field that the record has an entry
    for. *)
Fixpoint record_get (field : string) (record : list (string * option jsvalue)) : option jsvalue :=
  match record with
  | [] => None
  | (k, v) :: rest => if String.eqb k field then v else record_get field rest
  end.

(** One data line, without the record delimiter. *)
Definition render_row (delimiter : string) (fields : list string)
  (record : list (string * option jsvalue)) : string :=
  join delimiter (List.map (fun field => render_cell delimiter (record_get field record)) fields).

(** *** The value at a dotted path *)

(** [at_path v parts w]: going from [v] through objects along the
    segments [parts], each of them present, one arrives at [w]. *)
Inductive at_path : json -> list string -> json -> Prop :=
| at_here (v : json) : at_path v [] v
| at_field (entries : list (string * json)) (part : string) (rest : list string)
    (x w : json) :
    lookup_entry part entries = Some x ->
    at_path x rest w ->
    at_path (JObj entries) (part :: rest) w.

(** A cell that the writer renders as empty: [null] or [undefined]. *)
Definition empty_value (v : option jsvalue) : Prop := v = Some (Data JNull) \/ v = None.

(** What [extractFieldValue] returns for the value [w] found at the end
    of a path. *)
Definition returned (w : json) : jsvalue :=
  Data (if is_object_or_array w then JStr (JSON_stringify w) else w).

Lemma follow_at_path (src : json) (parts : list string) (w : json) :
  at_path src parts w ->
  follow parts (Some (Data src)) = Some (returned w).
Proof.
  induction 1 as [v | entries part rest x w Hx _ IH].
  - destruct v; reflexivity.
  - cbn [follow]. unfold get_member. rewrite Hx. exact IH.
Qed.

Lemma follow_undefined (parts : list string) : empty_value (follow parts None).
Proof. destruct parts; [right|left]; reflexivity. Qed.

Lemma prototype_member_own_name (part : string) (proto : jsvalue) :
  is_inherited_name part = false -> prototype_member part proto = None.
Proof.
  unfold is_inherited_name, prototype_member. intros H.
  apply orb_false_elim in H. destruct H as [-> ->]. reflexivity.
Qed.

(** Along segments that name nothing inherited, a path that cannot be
    followed through objects ends in [null] or [undefined]. *)
Lemma follow_no_path (parts : list string) :
  forallb (fun part => negb (is_inherited_name part)) parts = true ->
  forall src, (forall w, ~ at_path src parts w) ->
              empty_value (follow parts (Some (Data src))).
Proof.
  induction parts as [|part rest IH]; intros Hown src Hno.
  - exfalso. exact (Hno src (at_here src)).
  - cbn [forallb] in Hown. apply andb_prop in Hown. destruct Hown as [Hpart Hrest].
    apply negb_true_iff in Hpart.
    destruct src as [| b | n | s | items | entries]; try (left; reflexivity).
    cbn [follow]. unfold get_member.
    destruct (lookup_entry part entries) as [x|] eqn:Hx.
    + apply (IH Hrest). intros w Hw. exact (Hno w (at_field entries part rest x w Hx Hw)).
    + rewrite (prototype_member_own_name _ _ Hpart). apply follow_undefined.
Qed.

(** An object or an array of the document never comes out of
    [extractFieldValue], and neither does [Object.prototype]: what is
    returned is a scalar, [null], [undefined] or a built-in function. *)
Definition flat (v : option jsvalue) : Prop :=
  match v with
  | Some (Data j) => is_object_or_array j = false
  | Some (Builtin member) => is_prototype_function member = true
  | Some ObjectPrototype => False
  | None => True
  end.

Lemma follow_flat (parts : list string) :
  forall value,
    match value with Some (Builtin member) => is_prototype_function member = true | _ => True end ->
    flat (follow parts value).
Proof.
  induction parts as [|part rest IH]; intros value Hv.
  - destruct value as [[[| | | | |]| |]|]; cbn; auto.
  - destruct value as [[[| | | | |entries]|member|]|]; cbn [follow]; try reflexivity.
    + apply IH. unfold get_member. destruct (lookup_entry part entries); [exact I|].
      unfold prototype_member. destruct (String.eqb part "__proto__"); [exact I|].
      destruct (is_prototype_function part) eqn:Hp; [exact Hp|exact I].
    + apply IH. unfold prototype_member. destruct (String.eqb part "__proto__"); [exact I|].
      destruct (is_prototype_function part) eqn:Hp; [exact Hp|exact I].
Qed.

Definition scenario_fields : list string := ["a.b"; "c"].
Definition scenario_hit_1 : Hit :=
  {| _source := Some (JObj [("a", JObj [("b", JNum 1)]); ("c", JNum 2)]) |}.
Definition scenario_hit_2 : Hit :=
  {| _source := Some (JObj [("a", JObj []); ("c", JNum 3)]) |}.

(** The rows of the scenario with fields ["a.b", "c"]: 1,2 for
    {a: {b: 1}, c: 2} and ,3 for {a: {}, c: 3}. *)
Lemma scenario_rows :
  render_row "," scenario_fields (to_record scenario_fields scenario_hit_1) = "1,2" /\
  render_row "," scenario_fields (to_record scenario_fields scenario_hit_2) = ",3".
Proof. split; reflexivity. Qed.

(** C6 at the failing input.  The record {a: {}, c: 3} has no field
    [constructor], [a.toString] or [__proto__], yet the cells of these
    fields are not empty: property access finds the members that every
    object inherits, and the row for the fields ["constructor", "c"]
    starts with the text of the function [Object]. *)
Theorem extractFieldValue_inherited_member :
  let source := JObj [("a", JObj []); ("c", JNum 3)] in
  (forall w, ~ at_path source ["constructor"] w) /\
  extractFieldValue (Some source) "constructor" = Some (Builtin "constructor") /\
  extractFieldValue (Some source) "a.toString" = Some (Builtin "toString") /\
  extractFieldValue (Some source) "__proto__" = Some (Data (JStr "{}")) /\
  ~ empty_value (extractFieldValue (Some source) "constructor") /\
  render_row "," ["constructor"; "c"]
    (to_record ["constructor"; "c"] {| _source := Some source |})
  = "function Object() { [native code] },3".
Proof.
  cbv zeta. split; [|repeat split; try reflexivity].
  - intros w Hw. inversion Hw as [|es part rest x w' Hx Hrest]; subst. discriminate.
  - intros [H|H]; discriminate.
Qed.

End Fields.

(** ** CSV export: the scroll loop
    [exportDataWithScroll] of src/tools/export-to-csv.ts (lines 239-318). *)

Module Scroll.

Import Fields.

(** A search or scroll response as the loop reads it. *)
Record Response : Type := {
  hits : list Hit;
  _scroll_id : option string
}.

(** The body of the initial search. *)
Record SearchBody : Type := {
  size : Z;
  source_fields : list string;
  query : json
}.

(** The cluster client of one export: the initial search (issued with
    [scroll: '5m']), the [n]-th continuation for a scroll id, and the
    release of a scroll id. *)
Record Client : Type := {
  search : SearchBody -> result Response;
  scroll : nat -> string -> result Response;
  clearScroll : string -> result unit
}.

(** [writer.writeRecords(records)], by the number of earlier calls. *)
Definition Writer : Type := nat -> list (list (string * option jsvalue)) -> result unit.

Record ExportArgs : Type := {
  arg_query : option json;
  arg_maxRows : option Z
}.

(** What the collaborators and the logger see, in order. *)
Inductive event : Type :=
| EvSearch (body : SearchBody)
| EvWriteRecords (records : list (list (string * option jsvalue)))
| EvDebug (batchSize totalExported : Z)
| EvScroll (scroll_id : string)
| EvClearScroll (scroll_id : string)
| EvWarn (e : error).

(** [response._scroll_id] when it is truthy. *)
Definition scroll_handle (response : Response) : option string :=
  match _scroll_id response with
  | Some id => if negb (String.eqb id EmptyString) then Some id else None
  | None => None
  end.

(** The block after the loop: release, a failure logged and dropped. *)
Definition release (client : Client) (response : Response) : list event :=
  match scroll_handle response with
  | Some id =>
      EvClearScroll id ::
      match clearScroll client id with
      | Ok _ => []
      | Throw e => [EvWarn e]
      end
  | None => []
  end.

Definition prepend {A : Type} (evs : list event) (run : option (A * list event))
  : option (A * list event) :=
  match run with
  | Some (a, rest) => Some (a, evs ++ rest)
  | None => None
  end.

(** The [while] loop and what follows it, entered with the current
    [response] and [totalExported]; [writes] and [scrolls] count the
    calls made so far.  [None] only when [fuel] iterations do not
    suffice. *)
Fixpoint loop (fuel : nat) (client : Client) (writer : Writer) (fields : list string)
  (maxRows : Z) (response : Response) (totalExported : Z) (writes scrolls : nat)
  : option (result Z * list event) :=
  match fuel with
  | O => None
  | S fuel' =>
      if (0 <? Z.of_nat (length (hits response)))%Z && (totalExported <? maxRows)%Z then
        let records := List.map (to_record fields) (hits response) in
        match writer writes records with
        | Throw e => Some (Throw e, [EvWriteRecords records])
        | Ok _ =>
            let batchSize := Z.of_nat (length records) in
            let totalExported' := (totalExported + batchSize)%Z in
            let batch := [EvWriteRecords records; EvDebug batchSize totalExported'] in
            if (maxRows <=? totalExported')%Z
            then Some (Ok totalExported', batch ++ release client response)
            else
              match scroll_handle response with
              | Some id =>
                  match scroll client scrolls id with
                  | Throw e => Some (Throw e, batch ++ [EvScroll id])
                  | Ok response' =>
                      prepend (batch ++ [EvScroll id])
                        (loop fuel' client writer fields maxRows response' totalExported'
                              (S writes) (S scrolls))
                  end
              | None => Some (Ok totalExported', batch ++ release client response)
              end
        end
      else Some (Ok totalExported, release client response)
  end.

(** [args.maxRows || 1000000] *)
Definition effective_maxRows (args : ExportArgs) : Z :=
  match arg_maxRows args with
  | Some n => if (n =? 0)%Z then 1000000%Z else n
  | None => 1000000%Z
  end.

Definition scrollSize : Z := 1000.

Definition match_all : json := JObj [("match_all", JObj [])].

Section WithSanitizer.

(** [sanitizeQuery] of src/validation/schemas.ts is not among the
    sources at hand: it is a parameter that returns a query, nothing, or
    throws. *)
Variable sanitizeQuery : json -> result (option json).

Definition build_query (args : ExportArgs) : result json :=
  match arg_query args with
  | Some q =>
      if truthy (Some q) then
        do sanitizedQuery <- sanitizeQuery q;
        Ok (match sanitizedQuery with
            | Some sq => if truthy (Some sq) then sq else match_all
            | None => match_all
            end)
      else Ok match_all
  | None => Ok match_all
  end.

Definition exportDataWithScroll (client : Client) (args : ExportArgs) (writer : Writer)
  (fields : list string) : option (result Z * list event) :=
  let maxRows := effective_maxRows args in
  match build_query args with
  | Throw e => Some (Throw e, [])
  | Ok q =>
      let searchBody :=
        {| size := Z.min scrollSize maxRows; source_fields := fields; query := q |} in
      match search client searchBody with
      | Throw e => Some (Throw e, [EvSearch searchBody])
      | Ok response =>
          prepend [EvSearch searchBody]
            (loop (S (Z.to_nat maxRows)) client writer fields maxRows response 0 0 0)
      end
  end.

End WithSanitizer.

(** *** Observations on a run *)

Definition is_release (ev : event) : bool :=
  match ev with EvClearScroll _ => true | _ => false end.
Definition is_write (ev : event) : bool :=
  match ev with EvWriteRecords _ => true | _ => false end.
Definition is_scroll (ev : event) : bool :=
  match ev with EvScroll _ => true | _ => false end.

Definition count (f : event -> bool) (evs : list event) : nat :=
  length (List.filter f evs).

(** The running totals logged after each batch. *)
Fixpoint totals (evs : list event) : list Z :=
  match evs with
  | [] => []
  | EvDebug _ total :: rest => total :: totals rest
  | _ :: rest => totals rest
  end.

(** Every response of the client carries a scroll id. *)
Definition always_handle (client : Client) : Prop :=
  (forall body response, search client body = Ok response -> scroll_handle response <> None)
  /\ (forall n id response, scroll client n id = Ok response -> scroll_handle response <> None).

(** *** Counting events *)

Lemma count_app (f : event -> bool) (xs ys : list event) :
  count f (xs ++ ys) = (count f xs + count f ys)%nat.
Proof. unfold count. rewrite List.filter_app, List.length_app. reflexivity. Qed.

Lemma prepend_Some {A : Type} (evs : list event) (run : option (A * list event))
  (a : A) (all : list event) :
  prepend evs run = Some (a, all) ->
  exists rest, run = Some (a, rest) /\ all = evs ++ rest.
Proof.
  destruct run as [[a' rest]|]; cbn [prepend]; [|discriminate].
  intros H. injection H as -> <-. exists rest. split; reflexivity.
Qed.

Lemma release_count (client : Client) (response : Response) :
  count is_release (release client response) =
  match scroll_handle response with Some _ => 1%nat | None => 0%nat end.
Proof.
  unfold release. destruct (scroll_handle response); [|reflexivity].
  destruct (clearScroll client s); reflexivity.
Qed.

Lemma release_no_write_no_scroll (client : Client) (response : Response) :
  count is_write (release client response) = 0%nat /\
  count is_scroll (release client response) = 0%nat.
Proof.
  unfold release. destruct (scroll_handle response); [|split; reflexivity].
  destruct (clearScroll client s); split; reflexivity.
Qed.

Ltac count_events :=
  unfold count in *;
  cbn [app] in *;
  repeat rewrite List.filter_app in *;
  cbn [List.filter is_release is_write is_scroll] in *;
  repeat rewrite List.length_app in *;
  cbn [length] in *.

(** *** The loop ends *)


(** *** Release at the end of the loop *)





(** *** The running total *)

Fixpoint increasing_from (low : Z) (l : list Z) : Prop :=
  match l with
  | [] => True
  | x :: rest => (low < x)%Z /\ increasing_from x rest
  end.

Lemma totals_app (xs ys : list event) : totals (xs ++ ys) = totals xs ++ totals ys.
Proof.
  induction xs as [|ev xs IH]; [reflexivity|].
  destruct ev; cbn [totals app]; rewrite IH; reflexivity.
Qed.

Lemma totals_release (client : Client) (response : Response) :
  totals (release client response) = [].
Proof.
  unfold release. destruct (scroll_handle response); [|reflexivity].
  destruct (clearScroll client s); reflexivity.
Qed.

Lemma last_cons_default (l : list Z) :
  forall x d, List.last (x :: l) d = List.last l x.
Proof.
  induction l as [|z l IH]; intros x d; [reflexivity|].
  change (List.last (x :: z :: l) d) with (List.last (z :: l) d).
  rewrite (IH z d), (IH z x). reflexivity.
Qed.

(** The totals logged batch after batch grow strictly, and the value
    returned is the last of them (the initial total when no batch was
    written). *)
Lemma loop_totals (client : Client) (writer : Writer) (fields : list string) (maxRows : Z) :
  forall fuel response totalExported writes scrolls outcome evs,
    loop fuel client writer fields maxRows response totalExported writes scrolls
      = Some (outcome, evs) ->
    increasing_from totalExported (totals evs) /\
    (forall rows, outcome = Ok rows -> rows = List.last (totals evs) totalExported).
Proof.
  induction fuel as [|fuel IH]; intros response total writes scrolls outcome evs Hrun;
    [discriminate|].
  cbn [loop] in Hrun.
  destruct ((0 <? Z.of_nat (length (hits response)))%Z && (total <? maxRows)%Z) eqn:Hcond.
  2:{ injection Hrun as <- <-. rewrite totals_release. cbn.
      split; [exact I|]. intros rows H. congruence. }
  apply andb_prop in Hcond. destruct Hcond as [Hhits _]. apply Z.ltb_lt in Hhits.
  rewrite List.length_map in Hrun.
  destruct (writer writes _).
  2:{ injection Hrun as <- <-. cbn. split; [exact I|]. intros rows H. discriminate. }
  destruct (maxRows <=? _)%Z.
  { injection Hrun as <- <-. cbn [app totals]. rewrite totals_release. cbn.
    split; [split; [lia|exact I]|]. intros rows H. congruence. }
  destruct (scroll_handle response) as [id|].
  2:{ injection Hrun as <- <-. cbn [app totals]. rewrite totals_release. cbn.
      split; [split; [lia|exact I]|]. intros rows H. congruence. }
  destruct (scroll client scrolls id) as [response'|e].
  2:{ injection Hrun as <- <-. cbn. split; [split; [lia|exact I]|].
      intros rows H. discriminate. }
  apply prepend_Some in Hrun. destruct Hrun as [rest [Hrest ->]].
  apply IH in Hrest. destruct Hrest as [Hinc Hlast].
  cbn [totals app increasing_from].
  split; [split; [lia|exact Hinc]|].
  intros rows H. rewrite (Hlast rows H). symmetry. apply last_cons_default.
Qed.

(** With batches of at most [b] records the value returned stays below
    the cap plus one batch. *)
Lemma loop_overshoot_bounded (client : Client) (writer : Writer) (fields : list string)
  (maxRows b : Z) :
  (forall n id response,
      scroll client n id = Ok response -> (Z.of_nat (length (hits response)) <= b)%Z) ->
  forall fuel response totalExported writes scrolls rows evs,
    (Z.of_nat (length (hits response)) <= b)%Z ->
    loop fuel client writer fields maxRows response totalExported writes scrolls
      = Some (Ok rows, evs) ->
    (totalExported <= rows)%Z /\ (rows <= totalExported \/ rows < maxRows + b)%Z.
Proof.
  intros Hscroll.
  induction fuel as [|fuel IH]; intros response total writes scrolls rows evs Hb Hrun;
    [discriminate|].
  cbn [loop] in Hrun.
  destruct ((0 <? Z.of_nat (length (hits response)))%Z && (total <? maxRows)%Z) eqn:Hcond.
  2:{ injection Hrun as <- <-. lia. }
  apply andb_prop in Hcond. destruct Hcond as [Hhits Hcap].
  apply Z.ltb_lt in Hhits, Hcap.
  rewrite List.length_map in Hrun.
  destruct (writer writes _); [|discriminate].
  destruct (maxRows <=? _)%Z.
  { injection Hrun as <- <-. lia. }
  destruct (scroll_handle response) as [id|].
  2:{ injection Hrun as <- <-. lia. }
  destruct (scroll client scrolls id) as [response'|e] eqn:Hs; [|discriminate].
  apply prepend_Some in Hrun. destruct Hrun as [rest [Hrest ->]].
  apply IH in Hrest; [|exact (Hscroll _ _ _ Hs)]. lia.
Qed.

(** *** Whole runs *)

Section Runs.

Variable sanitizeQuery : json -> result (option json).


(** The totals logged during a run start above 0 and grow strictly;
    the row count returned is the last of them, or 0 without a batch. *)
Lemma exportDataWithScroll_totals (client : Client) (args : ExportArgs) (writer : Writer)
  (fields : list string) (outcome : result Z) (evs : list event) :
  exportDataWithScroll sanitizeQuery client args writer fields = Some (outcome, evs) ->
  increasing_from 0 (totals evs) /\
  (forall rows, outcome = Ok rows -> rows = List.last (totals evs) 0%Z).
Proof.
  unfold exportDataWithScroll. intros Hrun.
  destruct (build_query sanitizeQuery args) as [q|e].
  2:{ injection Hrun as <- <-. split; [exact I|]. intros rows H. discriminate. }
  destruct (search client _) as [response|e].
  2:{ injection Hrun as <- <-. split; [exact I|]. intros rows H. discriminate. }
  apply prepend_Some in Hrun. destruct Hrun as [rest [Hrest ->]].
  exact (loop_totals _ _ _ _ _ _ _ _ _ _ _ Hrest).
Qed.

(** When no page holds more than [b] records, the row count returned is
    below the cap plus [b]. *)
Lemma exportDataWithScroll_below_cap_plus_batch (client : Client) (args : ExportArgs)
  (writer : Writer) (fields : list string) (b rows : Z) (evs : list event) :
  (forall body response,
      search client body = Ok response -> (Z.of_nat (length (hits response)) <= b)%Z) ->
  (forall n id response,
      scroll client n id = Ok response -> (Z.of_nat (length (hits response)) <= b)%Z) ->
  (0 < effective_maxRows args)%Z ->
  exportDataWithScroll sanitizeQuery client args writer fields = Some (Ok rows, evs) ->
  (0 <= rows < effective_maxRows args + b)%Z.
Proof.
  unfold exportDataWithScroll. intros Hfirst Hnext Hcap Hrun.
  destruct (build_query sanitizeQuery args) as [q|e]; [|discriminate].
  destruct (search client _) as [response|e] eqn:Hs; [|discriminate].
  apply prepend_Some in Hrun. destruct Hrun as [rest [Hrest _]].
  pose proof (Hfirst _ _ Hs) as Hb.
  apply (loop_overshoot_bounded client writer fields _ b Hnext) in Hrest; [|exact Hb].
  assert (0 <= b)%Z by lia. lia.
Qed.

(** Without a scroll id on the last response there is nothing to
    release: the block after the loop is skipped. *)
Lemma exportDataWithScroll_no_handle (client : Client) (args : ExportArgs) (writer : Writer)
  (fields : list string) (q : json) (response : Response) :
  build_query sanitizeQuery args = Ok q ->
  search client {| size := Z.min scrollSize (effective_maxRows args);
                   source_fields := fields; query := q |} = Ok response ->
  hits response = [] ->
  scroll_handle response = None ->
  exportDataWithScroll sanitizeQuery client args writer fields =
  Some (Ok 0%Z, [EvSearch {| size := Z.min scrollSize (effective_maxRows args);
                             source_fields := fields; query := q |}]).
Proof.
  intros Hq Hs Hhits Hnone. unfold exportDataWithScroll. rewrite Hq, Hs.
  cbn [loop]. rewrite Hhits. unfold release. rewrite Hnone. reflexivity.
Qed.


(** C10. When the initial page request returns no record, the run is
    the search followed by the release block alone: no batch is written,
    no continuation is requested, the row count is 0, and release is
    attempted exactly when the initial response carried a scroll id. *)
Theorem exportDataWithScroll_empty_first_page (client : Client) (args : ExportArgs)
  (writer : Writer) (fields : list string) (q : json) (response : Response) :
  build_query sanitizeQuery args = Ok q ->
  search client {| size := Z.min scrollSize (effective_maxRows args);
                   source_fields := fields; query := q |} = Ok response ->
  hits response = [] ->
  exists evs,
    exportDataWithScroll sanitizeQuery client args writer fields = Some (Ok 0%Z, evs) /\
    count is_write evs = 0%nat /\
    count is_scroll evs = 0%nat /\
    count is_release evs =
      match scroll_handle response with Some _ => 1%nat | None => 0%nat end.
Proof.
  intros Hq Hsearch Hhits.
  exists (EvSearch {| size := Z.min scrollSize (effective_maxRows args);
                      source_fields := fields; query := q |} :: release client response).
  split.
  - unfold exportDataWithScroll. rewrite Hq, Hsearch. cbn [loop]. rewrite Hhits.
    reflexivity.
  - destruct (release_no_write_no_scroll client response) as [Hw Hs].
    pose proof (release_count client response) as Hr.
    count_events. auto.
Qed.

End Runs.

(** *** Concrete runs *)

Definition outcome_of (run : option (result Z * list event)) : option (result Z) :=
  option_map fst run.

Definition events_of (run : option (result Z * list event)) : list event :=
  match run with
  | Some (_, evs) => evs
  | None => []
  end.

(** A sanitizer that lets every query through. *)
Definition accept_query (q : json) : result (option json) := Ok (Some q).

Definition doc (n : Z) : Hit := {| _source := Some (JObj [("id", JNum n)]) |}.

Definition page (hs : list Hit) (id : string) : Response :=
  {| hits := hs; _scroll_id := Some id |}.

Definition ok_writer : Writer := fun _ _ => Ok tt.


Definition cap (n : Z) : ExportArgs := {| arg_query := None; arg_maxRows := Some n |}.


(** Two records on the first page, then an empty page. *)
Definition two_record_client : Client :=
  {| search := fun _ => Ok (page [doc 1; doc 2] "scroll-1");
     scroll := fun _ _ => Ok (page [] "scroll-1");
     clearScroll := fun _ => Ok tt |}.

(** An index without matching records. *)
Definition no_record_client : Client :=
  {| search := fun _ => Ok (page [] "scroll-0");
     scroll := fun _ _ => Ok (page [] "scroll-0");
     clearScroll := fun _ => Ok tt |}.

(** An index that fills every page of 1000 records. *)
Definition full_page : Response := page (List.repeat (doc 0) 1000) "scroll-1".

Definition large_index_client : Client :=
  {| search := fun _ => Ok full_page;
     scroll := fun _ _ => Ok full_page;
     clearScroll := fun _ => Ok tt |}.


Lemma two_record_client_always_handle : always_handle two_record_client.
Proof.
  split.
  - intros body response H. injection H as <-. discriminate.
  - intros n id response H. injection H as <-. discriminate.
Defined.




Lemma exportDataWithScroll_empty_first_page_witness :
  exists evs,
    exportDataWithScroll accept_query no_record_client (cap 10) ok_writer ["id"]
      = Some (Ok 0%Z, evs) /\
    count is_write evs = 0%nat /\
    count is_scroll evs = 0%nat /\
    count is_release evs = 1%nat.
Proof.
  apply (exportDataWithScroll_empty_first_page accept_query no_record_client (cap 10)
           ok_writer ["id"] match_all (page [] "scroll-0")); reflexivity.
Defined.

(** C2 at the failing input. With [maxRows = 1500] the first request
    asks for pages of min(1000, 1500) = 1000 records; against an index
    that fills two pages, the totals after the batches are 1000 and
    2000, and 2000 rows are reported as exported: 500 more than the
    cap. *)
Theorem exportDataWithScroll_overshoots_cap :
  let run := exportDataWithScroll accept_query large_index_client (cap 1500) ok_writer ["id"] in
  outcome_of run = Some (Ok 2000%Z) /\
  totals (events_of run) = [1000%Z; 2000%Z] /\
  count is_release (events_of run) = 1%nat /\
  (effective_maxRows (cap 1500) < 2000)%Z.
Proof. repeat split; vm_compute; reflexivity. Qed.

End Scroll.

(** ** CSV export: finalization
    The end of [execute] (lines 84-98) and [compressFile] (lines 344-348)
    of src/tools/export-to-csv.ts, over a file system that maps a path to
    the bytes of the file.  [formatFileSize] works on floating point
    numbers and is left out: sizes are in bytes. *)

Module Finalize.

Inductive fs_op : Type :=
| OpStat (path : string)
| OpReadFile (path : string)
| OpWriteFile (path : string)
| OpUnlink (path : string)
| OpRename (oldPath newPath : string).

(** The files and the calls made on them so far, oldest first. *)
Record world : Type := {
  files : gmap string string;
  ops : list fs_op
}.

(** A computation on the file system: a result or a rejection, and the
    world after it. *)
Definition io (A : Type) : Type := world -> result A * world.

Definition ret {A : Type} (a : A) : io A := fun w => (Ok a, w).

Definition and_then {A B : Type} (m : io A) (k : A -> io B) : io B :=
  fun w =>
    match m w with
    | (Ok a, w') => k a w'
    | (Throw e, w') => (Throw e, w')
    end.

Notation "'let*' x := m 'in' k" := (and_then m (fun x => k))
  (at level 10, x name, m at level 100, k at level 200).

Definition enoent (syscall path : string) : error :=
  OtherError "Error" ("ENOENT: no such file or directory, " +:+ syscall +:+ " '" +:+ path +:+ "'").

Definition logged (op : fs_op) (w : world) : list fs_op := ops w ++ [op].

(** [fs.stat(path)]: the size. *)
Definition stat (path : string) : io Z :=
  fun w =>
    let w' := {| files := files w; ops := logged (OpStat path) w |} in
    match files w !! path with
    | Some data => (Ok (Z.of_nat (String.length data)), w')
    | None => (Throw (enoent "stat" path), w')
    end.

(** [fs.readFile(path)] *)
Definition readFile (path : string) : io string :=
  fun w =>
    let w' := {| files := files w; ops := logged (OpReadFile path) w |} in
    match files w !! path with
    | Some data => (Ok data, w')
    | None => (Throw (enoent "open" path), w')
    end.

(** [fs.writeFile(path, data)] *)
Definition writeFile (path data : string) : io unit :=
  fun w => (Ok tt, {| files := <[path := data]> (files w); ops := logged (OpWriteFile path) w |}).

(** [fs.unlink(path)] *)
Definition unlink (path : string) : io unit :=
  fun w =>
    match files w !! path with
    | Some _ =>
        (Ok tt, {| files := delete path (files w); ops := logged (OpUnlink path) w |})
    | None =>
        (Throw (enoent "unlink" path), {| files := files w; ops := logged (OpUnlink path) w |})
    end.

(** [fs.rename(oldPath, newPath)] *)
Definition rename (oldPath newPath : string) : io unit :=
  fun w =>
    match files w !! oldPath with
    | Some data =>
        (Ok tt, {| files := <[newPath := data]> (delete oldPath (files w));
                   ops := logged (OpRename oldPath newPath) w |})
    | None =>
        (Throw (enoent "rename" oldPath),
         {| files := files w; ops := logged (OpRename oldPath newPath) w |})
    end.

Section WithGzip.

(** [zlib.gzip] on the whole content. *)
Variable gzip : string -> string.

Definition compressFile (inputPath outputPath : string) : io unit :=
  let* inputData := readFile inputPath in
  writeFile outputPath (gzip inputData).

(** From [fs.stat(tempFilename)] to the values of the summary: the final
    name and the size in bytes. *)
Definition finalize (filename : string) (compress : bool) : io (string * Z) :=
  let tempFilename := filename +:+ ".tmp" in
  let* stats := stat tempFilename in
  if compress then
    let finalFilename := filename +:+ ".gz" in
    let* _ := compressFile tempFilename finalFilename in
    let* _ := unlink tempFilename in
    let* compressedStats := stat finalFilename in
    ret (finalFilename, compressedStats)
  else
    let* _ := rename tempFilename filename in
    ret (filename, stats).

(** *** Names *)

Lemma tmp_not_name (s : string) : s +:+ ".tmp" <> s.
Proof. induction s as [|c s IH]; [discriminate|]. intros H. injection H as H. auto. Qed.

Lemma tmp_not_gz (s : string) : s +:+ ".tmp" <> s +:+ ".gz".
Proof. induction s as [|c s IH]; [discriminate|]. intros H. injection H as H. auto. Qed.

(** *** The two paths *)

Lemma finalize_compress (w : world) (filename data : string) :
  files w !! (filename +:+ ".tmp") = Some data ->
  finalize filename true w =
  (Ok (filename +:+ ".gz", Z.of_nat (String.length (gzip data))),
   {| files := delete (filename +:+ ".tmp") (<[filename +:+ ".gz" := gzip data]> (files w));
      ops := ops w ++ [OpStat (filename +:+ ".tmp"); OpReadFile (filename +:+ ".tmp");
                       OpWriteFile (filename +:+ ".gz"); OpUnlink (filename +:+ ".tmp");
                       OpStat (filename +:+ ".gz")] |}).
Proof.
  intros Htmp. pose proof (tmp_not_gz filename) as Hne.
  unfold finalize, compressFile, and_then, stat, readFile, writeFile, unlink, ret, logged.
  cbn [files ops].
  repeat (first [ rewrite Htmp
                | rewrite lookup_insert_ne by congruence
                | rewrite lookup_delete_ne by exact Hne
                | rewrite lookup_insert_eq ];
          cbn [files ops]).
  repeat rewrite <- List.app_assoc. reflexivity.
Qed.

Lemma finalize_rename (w : world) (filename data : string) :
  files w !! (filename +:+ ".tmp") = Some data ->
  finalize filename false w =
  (Ok (filename, Z.of_nat (String.length data)),
   {| files := <[filename := data]> (delete (filename +:+ ".tmp") (files w));
      ops := ops w ++ [OpStat (filename +:+ ".tmp");
                       OpRename (filename +:+ ".tmp") filename] |}).
Proof.
  intros Htmp.
  unfold finalize, and_then, stat, rename, ret, logged.
  cbn [files ops].
  repeat (rewrite Htmp; cbn [files ops]).
  repeat rewrite <- List.app_assoc. reflexivity.
Qed.

Lemma finalize_needs_tmp (w : world) (filename : string) (compress : bool) :
  files w !! (filename +:+ ".tmp") = None ->
  fst (finalize filename compress w) = Throw (enoent "stat" (filename +:+ ".tmp")).
Proof.
  intros Htmp. unfold finalize, and_then, stat. rewrite Htmp. reflexivity.
Qed.

(** C7. A finalization that succeeds took exactly one of two paths.
    With compression: the temporary file was read whole, its content
    compressed in one call and written under <filename>.gz, and the
    temporary file removed; no rename took place.  Without: the
    temporary file was renamed to <filename>; nothing was read, written
    or removed.  Either way the temporary file is gone afterwards, the
    final file holds the (compressed) content, the size reported is that
    of the final file, and no other file has changed. *)
Theorem finalize_exactly_one_path
  (w w' : world) (filename : string) (compress : bool) (final : string) (size : Z) :
  finalize filename compress w = (Ok (final, size), w') ->
  files w' !! (filename +:+ ".tmp") = None /\
  (forall path, path <> filename +:+ ".tmp" -> path <> final ->
                files w' !! path = files w !! path) /\
  exists data,
    files w !! (filename +:+ ".tmp") = Some data /\
    if compress then
      final = filename +:+ ".gz" /\
      files w' !! final = Some (gzip data) /\
      size = Z.of_nat (String.length (gzip data)) /\
      ops w' = ops w ++ [OpStat (filename +:+ ".tmp"); OpReadFile (filename +:+ ".tmp");
                         OpWriteFile final; OpUnlink (filename +:+ ".tmp"); OpStat final]
    else
      final = filename /\
      files w' !! final = Some data /\
      size = Z.of_nat (String.length data) /\
      ops w' = ops w ++ [OpStat (filename +:+ ".tmp"); OpRename (filename +:+ ".tmp") final].
Proof.
  intros Hrun.
  destruct (files w !! (filename +:+ ".tmp")) as [data|] eqn:Htmp.
  2:{ pose proof (finalize_needs_tmp w filename compress Htmp) as H.
      rewrite Hrun in H. discriminate. }
  destruct compress.
  - rewrite (finalize_compress w filename data Htmp) in Hrun.
    injection Hrun as <- <- <-. cbn [files ops].
    split; [apply lookup_delete_eq|].
    split.
    + intros path H1 H2. rewrite lookup_delete_ne, lookup_insert_ne by congruence.
      reflexivity.
    + exists data. repeat split.
      rewrite lookup_delete_ne by apply tmp_not_gz. apply lookup_insert_eq.
  - rewrite (finalize_rename w filename data Htmp) in Hrun.
    injection Hrun as <- <- <-. cbn [files ops].
    split.
    + rewrite lookup_insert_ne by (intros H; exact (tmp_not_name filename (eq_sym H))).
      apply lookup_delete_eq.
    + split.
      * intros path H1 H2. rewrite lookup_insert_ne, lookup_delete_ne by congruence.
        reflexivity.
      * exists data. repeat split. apply lookup_insert_eq.
Qed.

End WithGzip.

(** A stand-in for the compressor, and a finished temporary file. *)
Definition mark_compressed (data : string) : string := "gz:" +:+ data.

Definition after_export : world :=
  {| files := {[ "users.csv.tmp" := "id,name" ]}; ops := [] |}.

Lemma finalize_exactly_one_path_witness :
  files (snd (finalize mark_compressed "users.csv" true after_export)) !! "users.csv.tmp" = None
  /\ files (snd (finalize mark_compressed "users.csv" false after_export)) !! "users.csv.tmp"
     = None.
Proof.
  split.
  - apply (proj1 (finalize_exactly_one_path mark_compressed after_export
                    (snd (finalize mark_compressed "users.csv" true after_export))
                    "users.csv" true "users.csv.gz" 10%Z
                    ltac:(vm_compute; reflexivity))).
  - apply (proj1 (finalize_exactly_one_path mark_compressed after_export
                    (snd (finalize mark_compressed "users.csv" false after_export))
                    "users.csv" false "users.csv" 7%Z
                    ltac:(vm_compute; reflexivity))).
Defined.

Lemma finalize_examples :
  fst (finalize mark_compressed "users.csv" true after_export) = Ok ("users.csv.gz", 10%Z) /\
  files (snd (finalize mark_compressed "users.csv" true after_export)) !! "users.csv.gz"
    = Some "gz:id,name" /\
  fst (finalize mark_compressed "users.csv" false after_export) = Ok ("users.csv", 7%Z) /\
  files (snd (finalize mark_compressed "users.csv" false after_export)) !! "users.csv"
    = Some "id,name".
Proof. repeat split; vm_compute; reflexivity. Qed.

End Finalize.

(** ** Substrings
    [s.includes(p)] as a decomposition of [s], and how it passes through
    lower-casing, JSON escaping and joining. *)

Module Substring.

Lemma append_cons (x : ascii) (a b : string) : String x a +:+ b = String x (a +:+ b).
Proof. reflexivity. Qed.

Lemma append_assoc (a b c : string) : (a +:+ b) +:+ c = a +:+ b +:+ c.
Proof.
  induction a as [|x a IH]; [reflexivity|]. rewrite !append_cons, IH. reflexivity.
Qed.

Lemma append_empty_r (a : string) : a +:+ EmptyString = a.
Proof.
  induction a as [|x a IH]; [reflexivity|]. rewrite append_cons, IH. reflexivity.
Qed.

Lemma startsWith_iff (p s : string) :
  startsWith s p = true <-> exists b, s = p +:+ b.
Proof.
  revert s. induction p as [|c p IH]; intros s.
  - split; [intros _; exists s; reflexivity|reflexivity].
  - destruct s as [|d s]; cbn [startsWith].
    + split; [discriminate|]. intros [b Hb]. discriminate.
    + rewrite andb_true_iff, Ascii.eqb_eq, IH. split.
      * intros [-> [b ->]]. exists b. reflexivity.
      * intros [b Hb]. rewrite append_cons in Hb. injection Hb as -> ->.
        split; [reflexivity|]. exists b. reflexivity.
Qed.

Lemma includes_iff (p s : string) :
  includes s p = true <-> exists a b, s = a +:+ p +:+ b.
Proof.
  split.
  - induction s as [|d s IH]; cbn [includes]; intros H; apply orb_prop in H.
    + destruct H as [H|H]; [|discriminate].
      apply startsWith_iff in H. destruct H as [b ->]. exists EmptyString, b. reflexivity.
    + destruct H as [H|H].
      * apply startsWith_iff in H. destruct H as [b ->]. exists EmptyString, b. reflexivity.
      * destruct (IH H) as [a [b ->]]. exists (String d a), b. reflexivity.
  - intros [a [b ->]]. induction a as [|x a IH].
    + change (EmptyString +:+ p +:+ b) with (p +:+ b).
      assert (H : startsWith (p +:+ b) p = true) by (apply startsWith_iff; exists b; reflexivity).
      destruct (p +:+ b); cbn [includes]; rewrite H; reflexivity.
    + change (String x a +:+ p +:+ b) with (String x (a +:+ p +:+ b)).
      cbn [includes]. rewrite IH. apply orb_true_r.
Qed.

Lemma includes_app_l (a b p : string) : includes a p = true -> includes (a +:+ b) p = true.
Proof.
  rewrite !includes_iff. intros [x [y ->]]. exists x, (y +:+ b).
  rewrite !append_assoc. reflexivity.
Qed.

Lemma includes_app_r (a b p : string) : includes b p = true -> includes (a +:+ b) p = true.
Proof.
  rewrite !includes_iff. intros [x [y ->]]. exists (a +:+ x), y.
  rewrite !append_assoc. reflexivity.
Qed.

Lemma toLowerCase_app (a b : string) :
  toLowerCase (a +:+ b) = toLowerCase a +:+ toLowerCase b.
Proof.
  induction a as [|x a IH]; [reflexivity|].
  rewrite append_cons. cbn [toLowerCase]. rewrite IH. reflexivity.
Qed.

Lemma lower_char_idem (c : ascii) : lower_char (lower_char c) = lower_char c.
Proof.
  unfold lower_char at 1. rewrite Errors.lower_char_not_upper. reflexivity.
Qed.

Lemma toLowerCase_idem (s : string) : toLowerCase (toLowerCase s) = toLowerCase s.
Proof.
  induction s as [|c s IH]; [reflexivity|].
  cbn [toLowerCase]. rewrite lower_char_idem, IH. reflexivity.
Qed.

Lemma escape_app (a b : string) : escape (a +:+ b) = escape a +:+ escape b.
Proof.
  induction a as [|x a IH]; [reflexivity|].
  change (String x a +:+ b) with (String x (a +:+ b)).
  cbn [escape]. rewrite IH, append_assoc. reflexivity.
Qed.

Lemma toLowerCase_escape_char (c : ascii) :
  toLowerCase (escape_char c) = escape_char (lower_char c).
Proof. destruct c as [[] [] [] [] [] [] [] []]; reflexivity. Qed.

Lemma toLowerCase_escape (s : string) : toLowerCase (escape s) = escape (toLowerCase s).
Proof.
  induction s as [|c s IH]; [reflexivity|].
  cbn [escape toLowerCase]. rewrite toLowerCase_app, toLowerCase_escape_char, IH.
  reflexivity.
Qed.

(** A character that [JSON.stringify] copies as it is. *)
Definition plain_char (c : ascii) : bool := String.eqb (escape_char c) (String c EmptyString).

Lemma escape_plain (p : string) : string_forallb plain_char p = true -> escape p = p.
Proof.
  induction p as [|c p IH]; [reflexivity|].
  cbn [string_forallb escape]. intros H. apply andb_prop in H. destruct H as [Hc Hp].
  apply String.eqb_eq in Hc. rewrite Hc, (IH Hp). reflexivity.
Qed.

Lemma includes_escape (s p : string) :
  string_forallb plain_char p = true ->
  includes s p = true -> includes (escape s) p = true.
Proof.
  intros Hp. rewrite !includes_iff. intros [a [b ->]].
  exists (escape a), (escape b). rewrite !escape_app, (escape_plain p Hp). reflexivity.
Qed.

Lemma includes_quote_lower (s p : string) :
  string_forallb plain_char p = true ->
  includes (toLowerCase s) p = true ->
  includes (toLowerCase (quote s)) p = true.
Proof.
  intros Hp H. unfold quote.
  change (String quote_char (escape s +:+ String quote_char EmptyString))
    with (String quote_char EmptyString +:+ escape s +:+ String quote_char EmptyString).
  rewrite !toLowerCase_app. apply includes_app_r, includes_app_l.
  rewrite toLowerCase_escape. apply includes_escape; assumption.
Qed.

Lemma join_includes (sep : string) (l : list string) (x p : string) :
  List.In x l -> includes x p = true -> includes (join sep l) p = true.
Proof.
  induction l as [|y l IH]; intros Hin Hx; [destruct Hin|].
  destruct l as [|z l].
  - destruct Hin as [->|[]]. exact Hx.
  - change (join sep (y :: z :: l)) with (y +:+ sep +:+ join sep (z :: l)).
    destruct Hin as [->|Hin].
    + apply includes_app_l. exact Hx.
    + apply includes_app_r, includes_app_r. exact (IH Hin Hx).
Qed.

Lemma toLowerCase_join (sep : string) (l : list string) :
  toLowerCase (join sep l) = join (toLowerCase sep) (List.map toLowerCase l).
Proof.
  induction l as [|y l IH]; [reflexivity|].
  destruct l as [|z l]; [reflexivity|].
  change (join sep (y :: z :: l)) with (y +:+ sep +:+ join sep (z :: l)).
  rewrite !toLowerCase_app, IH. reflexivity.
Qed.

(** [p] occurs, letter case aside, in a key or in a string value of [v],
    at any depth through objects and arrays. *)
Fixpoint mentions (p : string) (v : json) : bool :=
  match v with
  | JStr s => includes (toLowerCase s) p
  | JArr items => List.existsb (mentions p) items
  | JObj entries =>
      List.existsb (fun kv => includes (toLowerCase (fst kv)) p || mentions p (snd kv)) entries
  | _ => false
  end.

(** What is mentioned in a value shows in its lower-cased JSON text. *)
Lemma mentions_stringify (p : string) :
  string_forallb plain_char p = true ->
  forall v, mentions p v = true -> includes (toLowerCase (JSON_stringify v)) p = true.
Proof.
  intros Hp v.
  induction v as [| b | n | s | items IH | entries IH] using json_ind';
    cbn [mentions]; intros Hm; try discriminate.
  - cbn [JSON_stringify]. apply includes_quote_lower; assumption.
  - apply List.existsb_exists in Hm. destruct Hm as [x [Hin Hx]].
    rewrite List.Forall_forall in IH.
    cbn [JSON_stringify]. rewrite !toLowerCase_app.
    apply includes_app_r, includes_app_l. rewrite toLowerCase_join.
    apply (join_includes _ _ (toLowerCase (JSON_stringify x))).
    + apply List.in_map, List.in_map. exact Hin.
    + exact (IH x Hin Hx).
  - apply List.existsb_exists in Hm. destruct Hm as [[k x] [Hin Hx]].
    rewrite List.Forall_forall in IH. cbn [fst snd] in Hx.
    cbn [JSON_stringify]. rewrite !toLowerCase_app.
    apply includes_app_r, includes_app_l. rewrite toLowerCase_join.
    apply (join_includes _ _
             (toLowerCase (quote k +:+ ":" +:+ JSON_stringify x))).
    + apply List.in_map.
      apply (List.in_map (fun kv => quote (fst kv) +:+ ":" +:+ JSON_stringify (snd kv))
               entries (k, x) Hin).
    + rewrite !toLowerCase_app. apply orb_prop in Hx. destruct Hx as [Hk|Hv].
      * apply includes_app_l, includes_quote_lower; assumption.
      * apply includes_app_r, includes_app_r. exact (IH (k, x) Hin Hv).
Qed.

End Substring.

(** ** Tool plumbing shared by the tools
    The [catch] blocks of the [execute] methods and
    [normalizeRefreshParameter] (src/tools/insert-data.ts lines 86-99 and
    162-176, src/tools/delete-document.ts lines 66-83 and 200-214). *)

Module Tool.

(** [error.name] and [error.message] of a thrown [Error]. *)
Definition error_name (e : error) : option string :=
  match e with
  | ValidationError _ _ => Some "ValidationError"
  | ConnectionError _ _ => Some "ConnectionError"
  | AuthenticationError _ _ => Some "AuthenticationError"
  | NotFoundError _ _ => Some "NotFoundError"
  | RateLimitError _ _ => Some "RateLimitError"
  | ElasticsearchError _ _ => Some "ElasticsearchError"
  | OtherError name _ => Some name
  | ThrownValue _ => None
  end.

Definition error_message (e : error) : option string :=
  match e with
  | ValidationError m _ | ConnectionError m _ | AuthenticationError m _
  | NotFoundError m _ | RateLimitError m _ | ElasticsearchError m _ => Some m
  | OtherError _ m => Some m
  | ThrownValue _ => None
  end.

(** [error instanceof Error && error.name === 'ZodError'] *)
Definition is_zod (e : error) : bool :=
  match e with
  | OtherError name _ => String.eqb name "ZodError"
  | _ => false
  end.

(** [new ElasticsearchError(message, error, { args })]: the context is
    [{ args, originalError: { name, message } }].  For a thrown value that
    is no [Error] the two members are read off the value; a member that
    is [undefined] is left out of the list. *)
Definition wrap (message : string) (original : error) (args : json) : error :=
  let member (k : string) (v : option string) : list (string * json) :=
    match v with Some s => [(k, JStr s)] | None => [] end in
  let originalError : list (string * json) :=
    match original with
    | ThrownValue v =>
        if truthy (Some v) then
          [("originalError",
            JObj ((match get_prop v "name" with Some x => [("name", x)] | None => [] end)
                  ++ (match get_prop v "message" with
                      | Some x => [("message", x)]
                      | None => []
                      end)))]
        else []
    | _ =>
        [("originalError",
          JObj (member "name" (error_name original)
                ++ member "message" (error_message original)))]
    end in
  ElasticsearchError message (Some (("args", args) :: originalError)).

(** The argument of [normalizeRefreshParameter]: a boolean or a string. *)
Inductive refresh : Type :=
| RefreshBool (b : bool)
| RefreshStr (s : string).

Definition normalizeRefreshParameter (r : option refresh) : refresh :=
  match r with
  | None | Some (RefreshBool false) => RefreshBool false
  | Some (RefreshBool true) => RefreshBool true
  | Some (RefreshStr s) =>
      if String.eqb s "false" then RefreshBool false
      else if String.eqb s "true" then RefreshBool true
      else if String.eqb s "wait_for" then RefreshStr "wait_for"
      else RefreshBool false
  end.

End Tool.

(** ** Deleting documents
    [execute], [deleteById], [deleteByQuery] and [validateQuery] of
    src/tools/delete-document.ts. *)

Module DeleteDocument.

Import Tool.

Record DeleteDocumentArgs : Type := {
  index : string;
  id : option string;
  query : option (list (string * json));
  conflicts : option string;
  refresh_arg : option refresh
}.

Record DeleteDocumentResult : Type := {
  deleted : Z;
  versionConflicts : option Z;
  noops : option Z;
  retries : option (Z * Z);
  tookMs : Z;
  timedOut : bool
}.

(** The answer of [client.delete]. *)
Record DeleteResponse : Type := {
  response_result : string;
  response_version : Z
}.

(** The answer of [client.deleteByQuery]; a member may be missing. *)
Record ByQueryResponse : Type := {
  r_deleted : option Z;
  r_version_conflicts : option Z;
  r_noops : option Z;
  r_retries_bulk : option Z;
  r_retries_search : option Z;
  r_took : option Z;
  r_timed_out : option bool
}.

Record ByQueryRequest : Type := {
  q_index : string;
  q_query : list (string * json);
  q_refresh : refresh;
  q_conflicts : string;
  q_timeout : string;
  q_wait_for_completion : bool
}.

(** The cluster as this tool sees it: [getClient()], which throws when
    the client is not connected, and the three calls made on it. *)
Record Client : Type := {
  client_ready : result unit;
  client_exists : string -> result bool;
  client_delete : string -> string -> refresh -> result DeleteResponse;
  client_deleteByQuery : ByQueryRequest -> result ByQueryResponse
}.

Inductive call : Type :=
| CallExists (index : string)
| CallDelete (index id : string) (r : refresh)
| CallDeleteByQuery (request : ByQueryRequest)
| LogWarn (message : string).

(** A step of the tool: what it returns or throws, and the calls made. *)
Definition step (A : Type) : Type := result A * list call.

Definition script_not_allowed : error :=
  ValidationError "Script-based queries are not allowed in delete operations" None.

(** [validateQuery(query)] *)
Definition validateQuery (query : list (string * json)) : step unit :=
  let queryStr := toLowerCase (JSON_stringify (JObj query)) in
  let warnings :=
    if includes queryStr "match_all" && negb (includes queryStr "size")
       && negb (includes queryStr "from")
    then [LogWarn "Detected match_all query without size limit"]
    else [] in
  if includes queryStr "script_score" || includes queryStr "script_query"
  then (Throw script_not_allowed, warnings)
  else (QueryDepth.validateQueryDepth query 0, warnings).

(** [value || 0] *)
Definition or_zero (v : option Z) : Z := match v with Some n => n | None => 0%Z end.

Definition document_not_found (args : DeleteDocumentArgs) (doc_id : string) : error :=
  NotFoundError
    ("Document with ID '" +:+ doc_id +:+ "' not found in index '" +:+ index args +:+ "'") None.

(** [deleteById(args)], for the [id] that [execute] found truthy. *)
Definition deleteById (client : Client) (args : DeleteDocumentArgs) (doc_id : string)
  : step DeleteDocumentResult :=
  let r := normalizeRefreshParameter (refresh_arg args) in
  let calls := [CallDelete (index args) doc_id r] in
  match client_delete client (index args) doc_id r with
  | Ok response =>
      (Ok {| deleted := if String.eqb (response_result response) "deleted" then 1%Z else 0%Z;
             versionConflicts := None; noops := None; retries := None;
             tookMs := 0%Z; timedOut := false |}, calls)
  | Throw e =>
      match error_message e with
      | Some m =>
          let errorMessage := toLowerCase m in
          if includes errorMessage "not_found" || includes errorMessage "document_missing"
          then (Throw (document_not_found args doc_id), calls)
          else (Throw e, calls)
      | None => (Throw e, calls)
      end
  end.

Section WithSanitizer.

(** [sanitizeQuery] of src/validation/schemas.ts, which is not among the
    sources at hand, with the types its callers give it: a record in, a
    record or nothing out. *)
Variable sanitizeQuery : list (string * json) -> result (option (list (string * json))).

(** [deleteByQuery(args)], for the [query] that [execute] found truthy. *)
Definition deleteByQuery (client : Client) (args : DeleteDocumentArgs)
  (q : list (string * json)) : step DeleteDocumentResult :=
  match sanitizeQuery q with
  | Throw e => (Throw e, [])
  | Ok None => (Throw (ValidationError "Query cannot be empty" None), [])
  | Ok (Some sanitizedQuery) =>
      match validateQuery sanitizedQuery with
      | (Throw e, log) => (Throw e, log)
      | (Ok _, log) =>
          let deleteRequest :=
            {| q_index := index args;
               q_query := sanitizedQuery;
               q_refresh := normalizeRefreshParameter (refresh_arg args);
               q_conflicts :=
                 match conflicts args with
                 | Some c => if negb (String.eqb c EmptyString) then c else "abort"
                 | None => "abort"
                 end;
               q_timeout := "5m";
               q_wait_for_completion := true |} in
          match client_deleteByQuery client deleteRequest with
          | Throw e => (Throw e, log ++ [CallDeleteByQuery deleteRequest])
          | Ok response =>
              (Ok {| deleted := or_zero (r_deleted response);
                     versionConflicts := Some (or_zero (r_version_conflicts response));
                     noops := Some (or_zero (r_noops response));
                     retries := Some (or_zero (r_retries_bulk response),
                                      or_zero (r_retries_search response));
                     tookMs := or_zero (r_took response);
                     timedOut := match r_timed_out response with Some b => b | None => false end
                  |},
               log ++ [CallDeleteByQuery deleteRequest])
          end
      end
  end.

(** The [try] block of [execute], after [parse]. *)
Definition attempt (client : Client) (args : DeleteDocumentArgs) : step DeleteDocumentResult :=
  match client_ready client with
  | Throw e => (Throw e, [])
  | Ok _ =>
      match client_exists client (index args) with
      | Throw e => (Throw e, [CallExists (index args)])
      | Ok false =>
          (Throw (NotFoundError ("Index '" +:+ index args +:+ "' does not exist") None),
           [CallExists (index args)])
      | Ok true =>
          let '(r, calls) :=
            match id args with
            | Some doc_id =>
                if negb (String.eqb doc_id EmptyString) then deleteById client args doc_id
                else
                  match query args with
                  | Some q => deleteByQuery client args q
                  | None =>
                      (Throw (ValidationError "Either id or query must be provided" None), [])
                  end
            | None =>
                match query args with
                | Some q => deleteByQuery client args q
                | None =>
                    (Throw (ValidationError "Either id or query must be provided" None), [])
                end
            end in
          (r, CallExists (index args) :: calls)
      end
  end.

(** The [catch] block of [execute]. *)
Definition rethrow (raw_args : json) (e : error) : error :=
  if is_zod e then
    ValidationError "Invalid arguments for delete_document"
      (Some (match error_message e with
             | Some m => [("details", JStr m)]
             | None => []
             end))
  else
    match e with
    | ValidationError _ _ | NotFoundError _ _ => e
    | _ => wrap "Failed to delete document(s) from Elasticsearch" e raw_args
    end.

(** [execute(args)]: [parsed] is what [DeleteDocumentArgsSchema.parse]
    gives for the raw arguments. *)
Definition execute (client : Client) (raw_args : json) (parsed : result DeleteDocumentArgs)
  : step DeleteDocumentResult :=
  match parsed with
  | Throw e => (Throw (rethrow raw_args e), [])
  | Ok args =>
      match attempt client args with
      | (Ok r, calls) => (Ok r, calls)
      | (Throw e, calls) => (Throw (rethrow raw_args e), calls)
      end
  end.

(** *** Queries that reach the cluster *)


Definition is_by_query (c : call) : bool :=
  match c with CallDeleteByQuery _ => true | _ => false end.

Definition with_query (args : DeleteDocumentArgs) (q : option (list (string * json)))
  : DeleteDocumentArgs :=
  {| index := index args; id := id args; query := q; conflicts := conflicts args;
     refresh_arg := refresh_arg args |}.


Lemma validateQuery_script_text (q : list (string * json)) :
  Substring.mentions "script_score" (JObj q) || Substring.mentions "script_query" (JObj q)
    = true ->
  includes (toLowerCase (JSON_stringify (JObj q))) "script_score"
  || includes (toLowerCase (JSON_stringify (JObj q))) "script_query" = true.
Proof.
  intros H. apply orb_prop in H.
  destruct H as [H|H]; apply Substring.mentions_stringify in H; try reflexivity;
    rewrite H; [|rewrite orb_true_r]; reflexivity.
Qed.

(** A script marker in any key or string value of the query, at any
    depth and in any letter case, is rejected, however deep or shallow
    the query is. *)
Theorem validateQuery_rejects_script_markers (q : list (string * json)) :
  Substring.mentions "script_score" (JObj q) || Substring.mentions "script_query" (JObj q)
    = true ->
  fst (validateQuery q) = Throw script_not_allowed.
Proof.
  intros H. unfold validateQuery. rewrite (validateQuery_script_text q H). reflexivity.
Qed.

Lemma validateQuery_rejects_script_markers_witness :
  fst (validateQuery
         [("bool", JObj [("must", JArr [JObj [("Script_Score", JObj [("query", JObj [])])]])])])
  = Throw script_not_allowed.
Proof.
  apply (validateQuery_rejects_script_markers
           [("bool", JObj [("must", JArr [JObj [("Script_Score", JObj [("query", JObj [])])]])])]).
  reflexivity.
Defined.

End WithSanitizer.

(** With a truthy id the [try] block is: readiness, the existence check,
    [deleteById]. *)
Lemma attempt_with_id
  (sanitizeQuery : list (string * json) -> result (option (list (string * json))))
  (client : Client) (args : DeleteDocumentArgs) (doc_id : string) :
  id args = Some doc_id ->
  doc_id <> EmptyString ->
  attempt sanitizeQuery client args =
    match client_ready client with
    | Throw e => (Throw e, [])
    | Ok _ =>
        match client_exists client (index args) with
        | Throw e => (Throw e, [CallExists (index args)])
        | Ok false =>
            (Throw (NotFoundError ("Index '" +:+ index args +:+ "' does not exist") None),
             [CallExists (index args)])
        | Ok true =>
            (fst (deleteById client args doc_id),
             CallExists (index args) :: snd (deleteById client args doc_id))
        end
    end.
Proof.
  intros Hid Hne. unfold attempt. rewrite Hid.
  destruct (String.eqb_spec doc_id EmptyString); [contradiction|]. cbn [negb].
  destruct (client_ready client); [|reflexivity].
  destruct (client_exists client (index args)) as [[]|]; try reflexivity.
  destruct (deleteById client args doc_id). reflexivity.
Qed.

Lemma deleteById_with_query (client : Client) (args : DeleteDocumentArgs) (doc_id : string)
  (q : option (list (string * json))) :
  deleteById client (with_query args q) doc_id = deleteById client args doc_id.
Proof. reflexivity. Qed.

Lemma deleteById_no_by_query (client : Client) (args : DeleteDocumentArgs) (doc_id : string) :
  List.existsb is_by_query (snd (deleteById client args doc_id)) = false.
Proof.
  unfold deleteById.
  destruct (client_delete client _ _ _) as [response|e]; [reflexivity|].
  destruct (error_message e) as [m|]; [|reflexivity].
  destruct (includes _ "not_found" || includes _ "document_missing"); reflexivity.
Qed.

(** With an id in the arguments the query plays no part.  Two calls that
    differ in nothing but the query, in the raw arguments that hold it
    and in what [sanitizeQuery] would say of it, make the same calls to
    the cluster, none of them a delete by query, and return the same
    result; when they throw, it is the same error passed through the
    [catch] block, each with its own raw arguments. *)
Theorem execute_id_ignores_query
  (sanitizeQuery sanitizeQuery' : list (string * json) -> result (option (list (string * json))))
  (client : Client) (raw_args raw_args' : json) (args : DeleteDocumentArgs) (doc_id : string)
  (q' : option (list (string * json))) :
  id args = Some doc_id ->
  doc_id <> EmptyString ->
  snd (execute sanitizeQuery client raw_args (Ok args)) =
    snd (execute sanitizeQuery' client raw_args' (Ok (with_query args q'))) /\
  List.existsb is_by_query (snd (execute sanitizeQuery client raw_args (Ok args))) = false /\
  (forall r,
      fst (execute sanitizeQuery client raw_args (Ok args)) = Ok r <->
      fst (execute sanitizeQuery' client raw_args' (Ok (with_query args q'))) = Ok r) /\
  (forall e,
      fst (execute sanitizeQuery client raw_args (Ok args)) = Throw e ->
      exists inner,
        e = rethrow raw_args inner /\
        fst (execute sanitizeQuery' client raw_args' (Ok (with_query args q')))
          = Throw (rethrow raw_args' inner)).
Proof.
  intros Hid Hne. unfold execute.
  rewrite (attempt_with_id sanitizeQuery client args doc_id Hid Hne).
  rewrite (attempt_with_id sanitizeQuery' client (with_query args q') doc_id Hid Hne).
  rewrite deleteById_with_query. cbn [with_query index].
  pose proof (deleteById_no_by_query client args doc_id) as Hnone.
  destruct (client_ready client) as [u|e0].
  2:{ cbn. repeat split; try discriminate.
      intros e H. injection H as <-. exists e0. split; reflexivity. }
  destruct (client_exists client (index args)) as [[]|e0].
  - destruct (deleteById client args doc_id) as [[r|e0] calls]; cbn [fst snd] in *.
    + repeat split; auto; discriminate.
    + repeat split; auto; try discriminate.
      intros e H. injection H as <-. exists e0. split; reflexivity.
  - cbn. repeat split; try discriminate.
    intros e H. injection H as <-.
    exists (NotFoundError ("Index '" +:+ index args +:+ "' does not exist") None).
    split; reflexivity.
  - cbn. repeat split; try discriminate.
    intros e H. injection H as <-. exists e0. split; reflexivity.
Qed.




(** Whatever [execute] throws is a ValidationError, a NotFoundError, or
    an ElasticsearchError "Failed to delete document(s) from
    Elasticsearch" that carries the raw arguments. *)
Theorem execute_error_classes
  (sanitizeQuery : list (string * json) -> result (option (list (string * json))))
  (client : Client) (raw_args : json) (parsed : result DeleteDocumentArgs) (e : error) :
  fst (execute sanitizeQuery client raw_args parsed) = Throw e ->
  match e with
  | ValidationError _ _ | NotFoundError _ _ => True
  | ElasticsearchError m (Some ctx) =>
      m = "Failed to delete document(s) from Elasticsearch" /\
      lookup_entry "args" ctx = Some raw_args
  | _ => False
  end.
Proof.
  assert (Hre : forall e0,
             match rethrow raw_args e0 with
             | ValidationError _ _ | NotFoundError _ _ => True
             | ElasticsearchError m (Some ctx) =>
                 m = "Failed to delete document(s) from Elasticsearch" /\
                 lookup_entry "args" ctx = Some raw_args
             | _ => False
             end).
  { intros e0. unfold rethrow. destruct (is_zod e0); [exact I|].
    destruct e0; cbn; auto. }
  unfold execute. destruct parsed as [args|e0].
  - destruct (attempt sanitizeQuery client args) as [[r|e0] calls]; cbn [fst];
      [discriminate|]. intros H. injection H as <-. apply Hre.
  - cbn [fst]. intros H. injection H as <-. apply Hre.
Qed.

(** A rejected delete by id whose message mentions [not_found] or
    [document_missing], in any letter case, comes out of [execute] as the
    NotFoundError that names the id and the index, not wrapped. *)
Theorem execute_missing_document
  (sanitizeQuery : list (string * json) -> result (option (list (string * json))))
  (client : Client) (raw_args : json) (args : DeleteDocumentArgs) (doc_id m : string)
  (e : error) :
  id args = Some doc_id ->
  doc_id <> EmptyString ->
  client_ready client = Ok tt ->
  client_exists client (index args) = Ok true ->
  client_delete client (index args) doc_id (normalizeRefreshParameter (refresh_arg args))
    = Throw e ->
  error_message e = Some m ->
  includes (toLowerCase m) "not_found" || includes (toLowerCase m) "document_missing" = true ->
  fst (execute sanitizeQuery client raw_args (Ok args)) =
  Throw (NotFoundError
           ("Document with ID '" +:+ doc_id +:+ "' not found in index '" +:+ index args +:+ "'")
           None).
Proof.
  intros Hid Hne Hready Hex Hdel Hm Hinc. unfold execute.
  rewrite (attempt_with_id sanitizeQuery client args doc_id Hid Hne), Hready, Hex.
  unfold deleteById. rewrite Hdel, Hm, Hinc. reflexivity.
Qed.

(** A cluster on which the document is not there. *)
Definition missing_document_client : Client :=
  {| client_ready := Ok tt;
     client_exists := fun _ => Ok true;
     client_delete := fun _ _ _ =>
       Throw (OtherError "ResponseError" "Document_Missing_Exception: [7] missing");
     client_deleteByQuery := fun _ =>
       Ok {| r_deleted := Some 3%Z; r_version_conflicts := None; r_noops := None;
             r_retries_bulk := None; r_retries_search := None; r_took := Some 12%Z;
             r_timed_out := None |} |}.

Definition by_id_args : DeleteDocumentArgs :=
  {| index := "users"; id := Some "7"; query := Some [("match_all", JObj [])];
     conflicts := None; refresh_arg := None |}.


Definition pass_query (q : list (string * json)) : result (option (list (string * json))) :=
  Ok (Some q).

Definition drop_query (q : list (string * json)) : result (option (list (string * json))) :=
  Ok None.

Lemma execute_missing_document_witness :
  fst (execute pass_query missing_document_client JNull (Ok by_id_args)) =
  Throw (NotFoundError "Document with ID '7' not found in index 'users'" None).
Proof.
  apply (execute_missing_document pass_query missing_document_client JNull by_id_args "7"
           "Document_Missing_Exception: [7] missing"
           (OtherError "ResponseError" "Document_Missing_Exception: [7] missing"));
    try reflexivity.
  discriminate.
Defined.

Lemma execute_id_ignores_query_witness :
  snd (execute pass_query missing_document_client
         (JObj [("index", JStr "users"); ("id", JStr "7");
                ("query", JObj [("match_all", JObj [])])])
         (Ok by_id_args)) =
  snd (execute drop_query missing_document_client
         (JObj [("index", JStr "users"); ("id", JStr "7")])
         (Ok (with_query by_id_args None))).
Proof.
  apply (execute_id_ignores_query pass_query drop_query missing_document_client
           (JObj [("index", JStr "users"); ("id", JStr "7");
                  ("query", JObj [("match_all", JObj [])])])
           (JObj [("index", JStr "users"); ("id", JStr "7")])
           by_id_args "7" None); [reflexivity|discriminate].
Defined.


Definition not_connected_client : Client :=
  {| client_ready := Throw (OtherError "Error" "Elasticsearch client not connected");
     client_exists := fun _ => Ok true;
     client_delete := client_delete missing_document_client;
     client_deleteByQuery := client_deleteByQuery missing_document_client |}.

Lemma execute_error_classes_witness :
  lookup_entry "args"
    [("args", JNull);
     ("originalError",
      JObj [("name", JStr "Error");
            ("message", JStr "Elasticsearch client not connected")])] = Some JNull.
Proof.
  exact (proj2 (execute_error_classes pass_query not_connected_client JNull (Ok by_id_args)
                  (ElasticsearchError "Failed to delete document(s) from Elasticsearch"
                     (Some [("args", JNull);
                            ("originalError",
                             JObj [("name", JStr "Error");
                                   ("message", JStr "Elasticsearch client not connected")])]))
                  eq_refl)).
Defined.

End DeleteDocument.

(** ** Searching
    [buildSearchRequest], the validators and [formatSearchResponse] of
    src/tools/search-elasticsearch.ts. *)

Module SearchTool.



Definition script_needs_validation : error :=
  ValidationError "Script-based queries require additional security validation" None.

(** [validateQuery(query)]: the outcome and the warnings logged. *)
Definition validateQuery (query : list (string * json)) : result unit * list string :=
  let queryStr := toLowerCase (JSON_stringify (JObj query)) in
  if includes queryStr "script_score" || includes queryStr "script_query"
  then (Throw script_needs_validation, [])
  else
    match QueryDepth.validateQueryDepth query 0 with
    | Throw e => (Throw e, [])
    | Ok _ =>
        (Ok tt,
         if includes queryStr "wildcard" || includes queryStr "prefix"
         then ["Wildcard/prefix queries detected - may impact performance"]
         else [])
    end.

(** The loop of [validateSort]. *)
Fixpoint check_sort_items (items : list json) : result unit :=
  match items with
  | [] => Ok tt
  | sortItem :: rest =>
      match sortItem with
      | JObj _ | JNull =>
          if includes (toLowerCase (JSON_stringify sortItem)) "_script"
          then Throw (ValidationError "Script-based sorting is not allowed" None)
          else check_sort_items rest
      | _ => Throw (ValidationError "Each sort item must be an object" None)
      end
  end.

Definition validateSort (sort : list json) : result unit :=
  if (20 <? Z.of_nat (length sort))%Z
  then Throw (ValidationError "Too many sort criteria (max 20)" None)
  else check_sort_items sort.

Definition validateAggregations (aggregations : list (string * json)) : result unit :=
  let aggStr := toLowerCase (JSON_stringify (JObj aggregations)) in
  if includes aggStr "script"
  then Throw (ValidationError
                "Script-based aggregations require additional security validation" None)
  else
    do _ <- QueryDepth.validateQueryDepth aggregations 0;
    if (50 <? Z.of_nat (length (Object_keys (JObj aggregations))))%Z
    then Throw (ValidationError "Too many aggregations (max 50)" None)
    else Ok tt.


(** The loop of [validateSourceFields]. *)
Fixpoint check_source_fields (fields : list string) : result unit :=
  match fields with
  | [] => Ok tt
  | field :: rest =>
      if (Z.of_nat (String.length field) =? 0)%Z
      then Throw (ValidationError "Source fields must be non-empty strings" None)
      else if (256 <? Z.of_nat (String.length field))%Z
      then Throw (ValidationError
                    ("Source field name too long: '" +:+ field +:+ "' (max 256 characters)")
                    None)
      else check_source_fields rest
  end.

Definition validateSourceFields (fields : list string) : result unit :=
  if (100 <? Z.of_nat (length fields))%Z
  then Throw (ValidationError "Too many source fields specified (max 100)" None)
  else check_source_fields fields.

Definition match_all : list (string * json) := [("match_all", JObj [])].

Section WithSanitizer.

(** [sanitizeQuery] of src/validation/schemas.ts, as in the delete tool. *)
Variable sanitizeQuery : list (string * json) -> result (option (list (string * json))).


End WithSanitizer.

(** *** What the validators accept *)

Definition is_ok {A : Type} (r : result A) : bool :=
  match r with Ok _ => true | Throw _ => false end.


(** The search tool and the delete tool accept the same queries; they
    differ in the message of the script rejection and in what they
    warn about. *)
Theorem validateQuery_same_as_delete (q : list (string * json)) :
  is_ok (fst (validateQuery q)) = is_ok (fst (DeleteDocument.validateQuery q)) /\
  (fst (validateQuery q) = Throw script_needs_validation <->
   fst (DeleteDocument.validateQuery q) = Throw DeleteDocument.script_not_allowed) /\
  (forall e, e <> script_needs_validation ->
             fst (validateQuery q) = Throw e ->
             fst (DeleteDocument.validateQuery q) = Throw e).
Proof.
  unfold validateQuery, DeleteDocument.validateQuery.
  destruct (includes _ "script_score" || includes _ "script_query"); cbn [fst].
  - split; [reflexivity|]. split; [tauto|]. intros e Hne H. congruence.
  - destruct (QueryDepth.validateQueryDepth q 0) as [[]|e0] eqn:Hd; cbn [fst is_ok].
    + split; [reflexivity|]. split; [split; discriminate|]. intros e _ H. discriminate.
    + split; [reflexivity|]. split.
      * rewrite QueryDepth.validateQueryDepth_decided in Hd.
        destruct (_ <=? _)%nat; [discriminate|]. injection Hd as <-.
        split; discriminate.
      * intros e _ H. exact H.
Qed.

Lemma check_source_fields_iff (fields : list string) :
  check_source_fields fields = Ok tt <->
  Forall (fun field => field <> EmptyString /\ (String.length field <= 256)%nat) fields.
Proof.
  induction fields as [|field rest IH]; [split; [constructor|reflexivity]|].
  cbn [check_source_fields].
  destruct (Z.eqb_spec (Z.of_nat (String.length field)) 0) as [Hz|Hz].
  { split; [discriminate|]. intros H. inversion H as [|? ? [Hne _] _]; subst.
    destruct field; [congruence|discriminate]. }
  destruct (Z.ltb_spec 256 (Z.of_nat (String.length field))) as [Hl|Hl].
  { split; [discriminate|]. intros H. inversion H as [|? ? [_ Hle] _]; subst. lia. }
  rewrite IH. split.
  - intros H. constructor; [|exact H]. split; [|lia]. intros ->. apply Hz. reflexivity.
  - intros H. inversion H; assumption.
Qed.

(** A list of source fields is accepted exactly when it has at most 100
    names, none of them empty or longer than 256 characters. *)
Theorem validateSourceFields_iff (fields : list string) :
  validateSourceFields fields = Ok tt <->
  (length fields <= 100)%nat /\
  Forall (fun field => field <> EmptyString /\ (String.length field <= 256)%nat) fields.
Proof.
  unfold validateSourceFields.
  destruct (Z.ltb_spec 100 (Z.of_nat (length fields))) as [Hl|Hl].
  - split; [discriminate|]. intros [H _]. lia.
  - rewrite check_source_fields_iff. split; [intros H; split; [lia|exact H]|tauto].
Qed.

Lemma check_sort_items_iff (items : list json) :
  check_sort_items items = Ok tt <->
  Forall (fun item =>
            (item = JNull \/ exists entries, item = JObj entries) /\
            includes (toLowerCase (JSON_stringify item)) "_script" = false) items.
Proof.
  induction items as [|item rest IH]; [split; [constructor|reflexivity]|].
  cbn [check_sort_items].
  destruct item as [| b | n | s | l | entries];
    try (split; [discriminate|];
         intros H; inversion H as [|? ? [[Hn|[es Hn]] _] _]; discriminate).
  - destruct (includes _ "_script") eqn:Hs.
    + split; [discriminate|]. intros H. inversion H as [|? ? [_ Hf] _]; subst. congruence.
    + rewrite IH. split.
      * intros H. constructor; [|exact H]. split; [left; reflexivity|exact Hs].
      * intros H. inversion H; assumption.
  - destruct (includes _ "_script") eqn:Hs.
    + split; [discriminate|]. intros H. inversion H as [|? ? [_ Hf] _]; subst. congruence.
    + rewrite IH. split.
      * intros H. constructor; [|exact H]. split; [right; eauto|exact Hs].
      * intros H. inversion H; assumption.
Qed.

(** Sort criteria are accepted exactly when there are at most 20, each
    an object or [null], none with [_script] in its lower-cased JSON
    text. *)
Theorem validateSort_iff (sort : list json) :
  validateSort sort = Ok tt <->
  (length sort <= 20)%nat /\
  Forall (fun item =>
            (item = JNull \/ exists entries, item = JObj entries) /\
            includes (toLowerCase (JSON_stringify item)) "_script" = false) sort.
Proof.
  unfold validateSort.
  destruct (Z.ltb_spec 20 (Z.of_nat (length sort))) as [Hl|Hl].
  - split; [discriminate|]. intros [H _]. lia.
  - rewrite check_sort_items_iff. split; [intros H; split; [lia|exact H]|tauto].
Qed.

(** Aggregations that mention [script] anywhere, in a key or in a string
    value and in any letter case, are rejected: also when the word is
    part of a longer one, as in a field called [description]. *)
Theorem validateAggregations_rejects_script_mentions (aggregations : list (string * json)) :
  Substring.mentions "script" (JObj aggregations) = true ->
  validateAggregations aggregations =
  Throw (ValidationError
           "Script-based aggregations require additional security validation" None).
Proof.
  intros H. unfold validateAggregations.
  apply Substring.mentions_stringify in H; [|reflexivity].
  rewrite H. reflexivity.
Qed.

Lemma validateAggregations_rejects_script_mentions_witness :
  validateAggregations
    [("by_text", JObj [("terms", JObj [("field", JStr "description.keyword")])])] =
  Throw (ValidationError
           "Script-based aggregations require additional security validation" None).
Proof.
  apply (validateAggregations_rejects_script_mentions
           [("by_text", JObj [("terms", JObj [("field", JStr "description.keyword")])])]).
  reflexivity.
Defined.






Definition pass_query (q : list (string * json)) : result (option (list (string * json))) :=
  Ok (Some q).


Lemma validateQuery_same_as_delete_witness :
  fst (validateQuery [("script_query", JObj [])]) = Throw script_needs_validation /\
  fst (DeleteDocument.validateQuery [("script_query", JObj [])])
    = Throw DeleteDocument.script_not_allowed.
Proof.
  assert (H : fst (validateQuery [("script_query", JObj [])]) = Throw script_needs_validation)
    by reflexivity.
  split; [exact H|].
  exact (proj1 (proj1 (proj2 (validateQuery_same_as_delete [("script_query", JObj [])]))) H).
Defined.

Lemma validateSourceFields_iff_witness : validateSourceFields ["name"; "address.city"] = Ok tt.
Proof.
  apply (proj2 (validateSourceFields_iff ["name"; "address.city"])).
  split; [cbn; lia|].
  repeat constructor; try discriminate; cbn; lia.
Defined.

Lemma validateSort_iff_witness : validateSort [JObj [("age", JStr "desc")]; JNull] = Ok tt.
Proof.
  apply (proj2 (validateSort_iff [JObj [("age", JStr "desc")]; JNull])).
  split; [cbn; lia|].
  constructor; [split; [right; eauto|reflexivity]|].
  constructor; [split; [left; reflexivity|reflexivity]|constructor].
Defined.


(** *** The response *)

(** A hit and a response as the cluster returns them; a member may be
    missing. *)
Record RawHit : Type := {
  raw_id : option json;
  raw_source : option json;
  raw_score : option json;
  raw_highlight : option json
}.

Record RawResponse : Type := {
  raw_total : option json;
  raw_hits : list RawHit;
  raw_aggregations : option json;
  raw_took : option json
}.

Record SearchHit : Type := {
  _id : option json;
  _source : json;
  _score : json;
  hit_highlight : option json
}.

Record SearchResult : Type := {
  total_value : json;
  total_relation : json;
  result_hits : list SearchHit;
  result_aggregations : option json;
  took : json
}.

(** [a || b] *)
Definition or_else (a : option json) (b : json) : json :=
  match a with
  | Some v => if truthy (Some v) then v else b
  | None => b
  end.

(** [...(v && { key: v })]: the member is there when [v] is truthy. *)
Definition when_truthy (v : option json) : option json :=
  match v with
  | Some x => if truthy (Some x) then Some x else None
  | None => None
  end.

(** [total?.member] *)
Definition member_of (total : option json) (member : string) : option json :=
  match total with
  | Some t => get_prop t member
  | None => None
  end.

Definition formatSearchResponse (response : RawResponse) : SearchResult :=
  {| total_value :=
       or_else (member_of (raw_total response) "value")
               (or_else (raw_total response) (JNum 0));
     total_relation := or_else (member_of (raw_total response) "relation") (JStr "eq");
     result_hits :=
       List.map (fun hit =>
                   {| _id := raw_id hit;
                      _source := or_else (raw_source hit) (JObj []);
                      _score := or_else (raw_score hit) (JNum 0);
                      hit_highlight := when_truthy (raw_highlight hit) |})
                (raw_hits response);
     result_aggregations := when_truthy (raw_aggregations response);
     took := or_else (raw_took response) (JNum 0) |}.

(** The total of a response.  A count given as a number comes back as
    that number.  A count given as an object comes back as its [value]
    when that is not zero; when it is zero, the whole object is put where
    the number should be. *)
Theorem formatSearchResponse_total (response : RawResponse) :
  (forall n, raw_total response = Some (JNum n) ->
             total_value (formatSearchResponse response) = JNum n /\
             total_relation (formatSearchResponse response) = JStr "eq") /\
  (forall t n, raw_total response = Some (JObj t) ->
               lookup_entry "value" t = Some (JNum n) ->
               total_value (formatSearchResponse response) =
               if (n =? 0)%Z then JObj t else JNum n) /\
  (raw_total response = None -> total_value (formatSearchResponse response) = JNum 0) /\
  length (result_hits (formatSearchResponse response)) = length (raw_hits response).
Proof.
  unfold formatSearchResponse. cbn [total_value total_relation result_hits].
  repeat split.
  - rewrite H. cbn. destruct (Z.eqb_spec n 0) as [->|]; reflexivity.
  - rewrite H. reflexivity.
  - intros t n Ht Hv. rewrite Ht. cbn [member_of get_prop]. rewrite Hv.
    cbn [or_else truthy]. destruct (n =? 0)%Z; reflexivity.
  - intros ->. reflexivity.
  - apply List.length_map.
Qed.

Lemma formatSearchResponse_total_witness :
  total_value
    (formatSearchResponse
       {| raw_total := Some (JObj [("value", JNum 0); ("relation", JStr "eq")]);
          raw_hits := []; raw_aggregations := None; raw_took := Some (JNum 3) |})
  = JObj [("value", JNum 0); ("relation", JStr "eq")].
Proof.
  apply (proj1 (proj2 (formatSearchResponse_total
                         {| raw_total := Some (JObj [("value", JNum 0); ("relation", JStr "eq")]);
                            raw_hits := []; raw_aggregations := None;
                            raw_took := Some (JNum 3) |}))
           [("value", JNum 0); ("relation", JStr "eq")] 0%Z); reflexivity.
Defined.

End SearchTool.

(** ** Inserting documents
    More on [validateDocument], [isValidDottedField] and
    [validateNestedObject] of src/tools/insert-data.ts, and its
    [execute]. *)

Module InsertTool.

Import Tool.
Import InsertData.

Definition nonempty (s : string) : bool := negb (String.eqb s EmptyString).

(** *** Dotted names *)

Lemma endsWith_cons (c : ascii) (s p : string) :
  endsWith (String c s) p = String.eqb (String c s) p || endsWith s p.
Proof. reflexivity. Qed.

Lemma includes_cons (c : ascii) (s p : string) :
  includes (String c s) p = startsWith (String c s) p || includes s p.
Proof. reflexivity. Qed.

Lemma startsWith_cons (c d : ascii) (s p : string) :
  startsWith (String c s) (String d p) = Ascii.eqb d c && startsWith s p.
Proof. reflexivity. Qed.

Lemma startsWith_nil (p : ascii) (q : string) : startsWith EmptyString (String p q) = false.
Proof. reflexivity. Qed.

Lemma split_head_empty (s : string) :
  nonempty (List.hd EmptyString (split "." s)) =
  negb (String.eqb s EmptyString || startsWith s ".").
Proof.
  destruct s as [|c s]; [reflexivity|].
  cbn [split]. rewrite startsWith_cons, (Ascii.eqb_sym "." c).
  destruct (Ascii.eqb c "."); [reflexivity|].
  destruct (split "." s) as [|hd tl]; reflexivity.
Qed.

Lemma split_not_nil (s : string) : split "." s <> [].
Proof.
  destruct s as [|c s]; [discriminate|].
  cbn [split]. destruct (Ascii.eqb c "."); [discriminate|].
  destruct (split "." s); discriminate.
Qed.

(** The segments after the first are non-empty exactly when the name
    neither ends with a dot nor has two dots in a row. *)
Lemma split_tail_nonempty (s : string) :
  List.forallb nonempty (List.tl (split "." s)) =
  negb (endsWith s "." || includes s "..").
Proof.
  induction s as [|c s IH]; [reflexivity|].
  rewrite endsWith_cons, includes_cons. cbn [split].
  destruct (Ascii.eqb_spec c ".") as [->|Hc].
  - cbn [List.tl].
    pose proof (split_head_empty s) as Hhd. pose proof (split_not_nil s) as Hnil.
    destruct (split "." s) as [|hd tl]; [congruence|].
    cbn [List.forallb List.hd List.tl] in *. rewrite Hhd, IH.
    rewrite startsWith_cons, Ascii.eqb_refl.
    assert (Heq : String.eqb (String "." s) "." = String.eqb s EmptyString)
      by (destruct s; reflexivity).
    rewrite Heq. cbn [andb].
    destruct (String.eqb s EmptyString), (startsWith s "."), (endsWith s "."),
      (includes s ".."); reflexivity.
  - assert (Heq : String.eqb (String c s) "." = false).
    { cbn [String.eqb]. destruct (Ascii.eqb_spec c "."); [contradiction|reflexivity]. }
    assert (Hst : startsWith (String c s) ".." = false).
    { rewrite startsWith_cons, (Ascii.eqb_sym "." c).
      destruct (Ascii.eqb_spec c "."); [contradiction|reflexivity]. }
    rewrite Heq, Hst. cbn [orb].
    pose proof (split_not_nil s) as Hnil.
    destruct (split "." s) as [|hd tl]; [congruence|].
    cbn [List.tl] in *. exact IH.
Qed.

(** A non-empty name has valid dot notation exactly when none of its
    dot-separated segments is empty. *)
Theorem isValidDottedField_segments (fieldName : string) :
  fieldName <> EmptyString ->
  isValidDottedField fieldName = List.forallb nonempty (split "." fieldName).
Proof.
  intros Hne. unfold isValidDottedField.
  pose proof (split_head_empty fieldName) as Hhd.
  pose proof (split_tail_nonempty fieldName) as Htl.
  pose proof (split_not_nil fieldName) as Hnil.
  destruct (split "." fieldName) as [|hd tl]; [congruence|].
  cbn [List.hd List.tl List.forallb] in *. rewrite Hhd, Htl.
  destruct (String.eqb_spec fieldName EmptyString); [contradiction|].
  cbn [orb]. destruct (startsWith fieldName "."); reflexivity.
Qed.

Lemma isValidDottedField_segments_witness :
  isValidDottedField "user.address.city" = true /\ isValidDottedField "user..city" = false.
Proof.
  split.
  - rewrite (isValidDottedField_segments "user.address.city"); [reflexivity|discriminate].
  - rewrite (isValidDottedField_segments "user..city"); [reflexivity|discriminate].
Defined.

(** *** What validation accepts *)

(** The body of the [for] loop of [validateNestedObject]. *)
Fixpoint loop_entries (es : list (string * json)) (depth : nat) : result unit :=
  match es with
  | [] => Ok tt
  | (key, v) :: rest =>
      match (match v with JObj sub => validateNestedObject sub (S depth) | _ => Ok tt end) with
      | Throw e => Throw e
      | Ok _ =>
          match check_value key v with
          | Throw e => Throw e
          | Ok _ => loop_entries rest depth
          end
      end
  end.

Lemma validateNestedObject_eq (obj : list (string * json)) (depth : nat) :
  validateNestedObject obj depth =
  if (MAX_NESTING_DEPTH <? depth)%nat then Throw too_deep else loop_entries obj depth.
Proof.
  unfold validateNestedObject. cbn [walk].
  destruct (MAX_NESTING_DEPTH <? depth)%nat; [reflexivity|].
  induction obj as [|[k v] rest IH]; [reflexivity|].
  cbn [loop_entries]. rewrite <- IH. destruct v; reflexivity.
Qed.

(** The values that the walk looks at: every array and string that is
    the value of a key, in the payload or in an object nested in it
    through objects, is within its limit.  What an array holds is not
    looked at. *)
Fixpoint object_values_within_limits (v : json) : bool :=
  match v with
  | JObj entries =>
      List.forallb
        (fun kv =>
           match snd kv with
           | JObj _ => object_values_within_limits (snd kv)
           | JArr items => (Z.of_nat (length items) <=? 10000)%Z
           | JStr s => (Z.of_nat (String.length s) <=? 1024 * 1024)%Z
           | _ => true
           end)
        entries
  | _ => true
  end.

Definition accepted (v : json) : Prop :=
  match v with
  | JObj obj =>
      forall depth,
        validateNestedObject obj depth = Ok tt <->
        (depth + QueryDepth.nesting_depth v <= MAX_NESTING_DEPTH)%nat /\
        object_values_within_limits v = true
  | _ => True
  end.

Lemma object_values_cons (k : string) (x : json) (rest : list (string * json)) :
  object_values_within_limits (JObj ((k, x) :: rest)) =
  match x with
  | JObj _ => object_values_within_limits x
  | JArr items => (Z.of_nat (length items) <=? 10000)%Z
  | JStr s => (Z.of_nat (String.length s) <=? 1024 * 1024)%Z
  | _ => true
  end && object_values_within_limits (JObj rest).
Proof. reflexivity. Qed.

Lemma loop_entries_iff (es : list (string * json)) :
  Forall (fun kv => accepted (snd kv)) es ->
  forall depth, (depth <= MAX_NESTING_DEPTH)%nat ->
    loop_entries es depth = Ok tt <->
    (depth + QueryDepth.nesting_depth (JObj es) <= MAX_NESTING_DEPTH)%nat /\
    object_values_within_limits (JObj es) = true.
Proof.
  induction 1 as [|[k x] rest Hx _ IH]; intros depth Hd.
  - change (QueryDepth.nesting_depth (JObj [])) with 0%nat.
    split; [intros _; split; [lia|reflexivity]|reflexivity].
  - rewrite QueryDepth.nesting_depth_cons, object_values_cons, andb_true_iff.
    specialize (IH depth Hd). cbn [loop_entries].
    destruct x as [| b | n | s | items | sub]; cbn [check_value];
      try (rewrite IH, Nat.max_0_l; tauto).
    + destruct (Z.ltb_spec (1024 * 1024) (Z.of_nat (String.length s))) as [Hl|Hl].
      * split; [discriminate|]. intros [_ [Hs _]]. apply Z.leb_le in Hs. lia.
      * rewrite IH, Nat.max_0_l. rewrite Z.leb_le. tauto.
    + destruct (Z.ltb_spec 10000 (Z.of_nat (length items))) as [Hl|Hl].
      * split; [discriminate|]. intros [_ [Hs _]]. apply Z.leb_le in Hs. lia.
      * rewrite IH, Nat.max_0_l. rewrite Z.leb_le. tauto.
    + cbn [snd accepted] in Hx. specialize (Hx (S depth)).
      destruct (validateNestedObject sub (S depth)) as [[]|e].
      * assert (Hsub : (S depth + QueryDepth.nesting_depth (JObj sub) <= MAX_NESTING_DEPTH)%nat
                       /\ object_values_within_limits (JObj sub) = true)
          by (apply Hx; reflexivity).
        rewrite IH. split.
        -- intros [H1 H2]. split; [lia|tauto].
        -- intros [H1 [_ H2]]. split; [lia|exact H2].
      * split; [discriminate|]. intros [H1 [H2 _]].
        assert (Hbad : @Throw unit e = Ok tt) by (apply Hx; split; [lia|exact H2]).
        discriminate.
Qed.

Lemma all_accepted (v : json) : accepted v.
Proof.
  induction v as [| | | | items _ | es IH] using json_ind'; cbn [accepted]; auto.
  intros depth. rewrite validateNestedObject_eq.
  destruct (Nat.ltb_spec MAX_NESTING_DEPTH depth) as [Hd|Hd].
  - split; [discriminate|]. intros [H _]. lia.
  - apply loop_entries_iff; assumption.
Qed.

(** The nested walk accepts an object exactly when its objects nest at
    most 20 deep and the arrays and strings it looks at are within their
    limits. *)
Theorem validateNestedObject_iff (obj : list (string * json)) :
  validateNestedObject obj 0 = Ok tt <->
  (QueryDepth.nesting_depth (JObj obj) <= 20)%nat /\
  object_values_within_limits (JObj obj) = true.
Proof. exact (all_accepted (JObj obj) 0%nat). Qed.

(** An array is judged by its length alone. *)
Lemma validateNestedObject_array (key : string) (items : list json) :
  validateNestedObject [(key, JArr items)] 0 = Ok tt <->
  (Z.of_nat (length items) <= 10000)%Z.
Proof.
  rewrite (all_accepted (JObj [(key, JArr items)]) 0%nat). rewrite object_values_cons.
  unfold MAX_NESTING_DEPTH.
  change (QueryDepth.nesting_depth (JObj [(key, JArr items)])) with 0%nat.
  change (object_values_within_limits (JObj [])) with true.
  rewrite andb_true_r, Z.leb_le. split; [tauto|]. intros H. split; [lia|exact H].
Qed.









Lemma validateNestedObject_iff_witness :
  validateNestedObject [("a", JObj [("b", JArr [JNum 1])])] 0 = Ok tt.
Proof.
  apply (proj2 (validateNestedObject_iff [("a", JObj [("b", JArr [JNum 1])])])).
  split; [vm_compute; lia|reflexivity].
Defined.

(** *** The tool *)

Record InsertDataArgs : Type := {
  index : string;
  document : list (string * json);
  id : option string;
  refresh_arg : option refresh
}.

Record IndexRequest : Type := {
  request_index : string;
  request_body : list (string * json);
  request_refresh : refresh;
  request_id : option string
}.

Record InsertDataResult : Type := {
  _id : string;
  _index : string;
  _version : Z;
  result_kind : string
}.

(** The cluster as this tool sees it: [getClient()], the existence check
    and [client.index], whose answer has the members of the result. *)
Record Client : Type := {
  client_ready : result unit;
  client_exists : string -> result bool;
  client_index : IndexRequest -> result InsertDataResult
}.

Inductive call : Type :=
| CallExists (index : string)
| CallIndex (request : IndexRequest)
| LogWarn (message : string).

(** The [try] block of [execute], after [parse]. *)
Definition attempt (client : Client) (args : InsertDataArgs)
  : result InsertDataResult * list call :=
  match client_ready client with
  | Throw e => (Throw e, [])
  | Ok _ =>
      match validateDocument (document args) with
      | Throw e => (Throw e, [])
      | Ok _ =>
          match client_exists client (index args) with
          | Throw e => (Throw e, [CallExists (index args)])
          | Ok indexExists =>
              let warned :=
                if indexExists then []
                else [LogWarn "Index does not exist, it will be created automatically"] in
              let request :=
                {| request_index := index args;
                   request_body := document args;
                   request_refresh := normalizeRefreshParameter (refresh_arg args);
                   request_id :=
                     match id args with
                     | Some i => if negb (String.eqb i EmptyString) then Some i else None
                     | None => None
                     end |} in
              (client_index client request,
               CallExists (index args) :: warned ++ [CallIndex request])
          end
      end
  end.

(** The [catch] block of [execute]. *)
Definition rethrow (raw_args : json) (e : error) : error :=
  if is_zod e then
    ValidationError "Invalid arguments for insert_data"
      (Some (match error_message e with
             | Some m => [("details", JStr m)]
             | None => []
             end))
  else wrap "Failed to insert document into Elasticsearch" e raw_args.

(** [execute(args)]: [parsed] is what [InsertDataArgsSchema.parse] gives
    for the raw arguments. *)
Definition execute (client : Client) (raw_args : json) (parsed : result InsertDataArgs)
  : result InsertDataResult * list call :=
  match parsed with
  | Throw e => (Throw (rethrow raw_args e), [])
  | Ok args =>
      match attempt client args with
      | (Ok r, calls) => (Ok r, calls)
      | (Throw e, calls) => (Throw (rethrow raw_args e), calls)
      end
  end.

(** A document that fails validation makes [execute] throw, without any
    call to the cluster, an ElasticsearchError that wraps the validation
    error: the caller is answered with code ELASTICSEARCH_ERROR and
    status 500, and the validation message is in the context only. *)
Theorem execute_invalid_document_wrapped
  (client : Client) (raw_args : json) (args : InsertDataArgs) (m : string)
  (c : option (list (string * json))) (now : string) (requestId : option string) :
  client_ready client = Ok tt ->
  validateDocument (document args) = Throw (ValidationError m c) ->
  execute client raw_args (Ok args) =
    (Throw (ElasticsearchError "Failed to insert document into Elasticsearch"
              (Some [("args", raw_args);
                     ("originalError",
                      JObj [("name", JStr "ValidationError"); ("message", JStr m)])])),
     []) /\
  (forall e, fst (execute client raw_args (Ok args)) = Throw e ->
     Errors.code (Errors.handleError now e requestId) = "ELASTICSEARCH_ERROR" /\
     Errors.statusCode (Errors.handleError now e requestId) = 500%Z /\
     Errors.message (Errors.handleError now e requestId)
       = "Failed to insert document into Elasticsearch").
Proof.
  intros Hready Hinvalid.
  assert (Hrun : execute client raw_args (Ok args) =
    (Throw (ElasticsearchError "Failed to insert document into Elasticsearch"
              (Some [("args", raw_args);
                     ("originalError",
                      JObj [("name", JStr "ValidationError"); ("message", JStr m)])])),
     [])).
  { unfold execute, attempt. rewrite Hready, Hinvalid. reflexivity. }
  split; [exact Hrun|].
  intros e He. rewrite Hrun in He. injection He as <-. repeat split.
Qed.

Definition is_index_call (c : call) : bool :=
  match c with CallIndex _ => true | _ => false end.

(** Whatever is sent to [client.index] is the document of the parsed
    arguments, and it has passed [validateDocument]; the index need not
    exist. *)
Theorem execute_indexes_validated_documents
  (client : Client) (raw_args : json) (parsed : result InsertDataArgs)
  (request : IndexRequest) :
  List.In (CallIndex request) (snd (execute client raw_args parsed)) ->
  exists args,
    parsed = Ok args /\
    request_index request = index args /\
    request_body request = document args /\
    validateDocument (request_body request) = Ok tt /\
    request_refresh request = normalizeRefreshParameter (refresh_arg args).
Proof.
  unfold execute. destruct parsed as [args|e]; [|intros []].
  intros H.
  assert (Hin : List.In (CallIndex request) (snd (attempt client args)))
    by (destruct (attempt client args) as [[r|e] calls]; exact H).
  clear H. unfold attempt in Hin.
  destruct (client_ready client); [|destruct Hin].
  destruct (validateDocument (document args)) as [[]|e] eqn:Hv; [|destruct Hin].
  destruct (client_exists client (index args)) as [indexExists|e].
  2:{ destruct Hin as [Hin|[]]. discriminate. }
  cbn [snd] in Hin. destruct Hin as [Hin|Hin]; [discriminate|].
  apply List.in_app_or in Hin. destruct Hin as [Hin|[Hin|[]]].
  - destruct indexExists; [destruct Hin|]. destruct Hin as [Hin|[]]. discriminate.
  - injection Hin as <-. exists args. cbn. auto.
Qed.

(** [normalizeRefreshParameter] answers [false], [true] or ['wait_for'],
    and gives the same answer when applied to its own result. *)
Theorem normalizeRefreshParameter_idempotent (r : option refresh) :
  (normalizeRefreshParameter r = RefreshBool false \/
   normalizeRefreshParameter r = RefreshBool true \/
   normalizeRefreshParameter r = RefreshStr "wait_for") /\
  normalizeRefreshParameter (Some (normalizeRefreshParameter r)) = normalizeRefreshParameter r.
Proof.
  destruct r as [[[]|s]|]; cbn [normalizeRefreshParameter]; auto.
  destruct (String.eqb s "false"); [auto|].
  destruct (String.eqb s "true"); [auto|].
  destruct (String.eqb s "wait_for"); auto.
Qed.

(** A cluster that takes every document. *)
Definition accepting_client : Client :=
  {| client_ready := Ok tt;
     client_exists := fun _ => Ok false;
     client_index := fun request =>
       Ok {| _id := "1"; _index := request_index request; _version := 1%Z;
             result_kind := "created" |} |}.

Definition empty_document_args : InsertDataArgs :=
  {| index := "users"; document := []; id := None; refresh_arg := None |}.

Definition titled_document_args : InsertDataArgs :=
  {| index := "users"; document := [("title", JStr "t")]; id := Some "7";
     refresh_arg := Some (RefreshStr "true") |}.

Lemma execute_invalid_document_wrapped_witness :
  execute accepting_client (JObj [("index", JStr "users"); ("document", JObj [])])
    (Ok empty_document_args) =
  (Throw (ElasticsearchError "Failed to insert document into Elasticsearch"
            (Some [("args", JObj [("index", JStr "users"); ("document", JObj [])]);
                   ("originalError",
                    JObj [("name", JStr "ValidationError");
                          ("message", JStr "Document cannot be empty")])])),
   []).
Proof.
  apply (proj1 (execute_invalid_document_wrapped accepting_client
                  (JObj [("index", JStr "users"); ("document", JObj [])])
                  empty_document_args "Document cannot be empty" None
                  "2024-01-15T10:30:00.000Z" None eq_refl eq_refl)).
Defined.

Lemma execute_indexes_validated_documents_witness :
  exists args,
    Ok titled_document_args = Ok args /\
    validateDocument (document args) = Ok tt.
Proof.
  destruct (execute_indexes_validated_documents accepting_client JNull
              (Ok titled_document_args)
              {| request_index := "users"; request_body := [("title", JStr "t")];
                 request_refresh := RefreshBool true; request_id := Some "7" |})
    as [args [Hp [_ [Hb [Hacc _]]]]].
  - vm_compute. right. right. left. reflexivity.
  - exists args. split; [exact Hp|]. rewrite <- Hb. exact Hacc.
Defined.

End InsertTool.

(** ** More on error handling
    [sanitizeError] and [isRetryableError] of src/errors/handlers.ts
    (lines 149-199). *)

Module Handlers.

Import Errors.

(** The words that mark a transient failure in a message. *)
Definition transient_words : list string :=
  ["timeout"; "connection"; "network"; "503"; "502"; "504"].

(** [isRetryableError(error)] *)
Definition isRetryableError (e : error) : bool :=
  match e with
  | ConnectionError _ _ => true
  | ElasticsearchError _ _ => true
  | ThrownValue _ => false
  | _ =>
      match Tool.error_message e with
      | Some m =>
          let message := toLowerCase m in
          includes message "timeout" || includes message "connection"
          || includes message "network" || includes message "503"
          || includes message "502" || includes message "504"
      | None => false
      end
  end.

Lemma is_sensitive_masked (key : string) (v : json) :
  (if is_sensitive key then (key, JStr "***") else (key, v)) =
  (key, if is_sensitive key then JStr "***" else v).
Proof. destruct (is_sensitive key); reflexivity. Qed.

Lemma mask_context_idempotent (ctx : list (string * json)) :
  mask_context (mask_context ctx) = mask_context ctx.
Proof.
  unfold mask_context. rewrite List.map_map. apply List.map_ext.
  intros [k v]. cbn [fst]. destruct (is_sensitive k) eqn:Hk; cbn [fst]; rewrite Hk; reflexivity.
Qed.

(** Sanitizing twice is sanitizing once, and what [sanitizeError]
    returns differs from its argument in nothing but the values of the
    sensitive top-level keys: the keys, their order and the values of the
    other keys are kept. *)
Theorem sanitizeError_idempotent (resp : ErrorResponse) :
  sanitizeError (sanitizeError resp) = sanitizeError resp /\
  option_map (List.map fst) (context (sanitizeError resp))
    = option_map (List.map fst) (context resp) /\
  (forall ctx key v,
      context resp = Some ctx -> is_sensitive key = false -> List.In (key, v) ctx ->
      exists ctx', context (sanitizeError resp) = Some ctx' /\ List.In (key, v) ctx').
Proof.
  unfold sanitizeError. destruct (context resp) as [ctx|] eqn:Hctx.
  - cbn [context]. rewrite mask_context_idempotent. repeat split.
    + cbn [option_map]. rewrite mask_context_keys. reflexivity.
    + intros ctx0 key v H Hs Hin. injection H as <-.
      exists (mask_context ctx). split; [reflexivity|].
      apply mask_context_other; assumption.
  - rewrite Hctx. repeat split. intros ctx key v H. discriminate.
Qed.

Lemma sanitizeError_idempotent_witness :
  exists ctx',
    context (sanitizeError
               (handleError "2024-01-15T10:30:00.000Z"
                  (ConnectionError "connect failed"
                     (Some [("node", JStr "https://es:9200"); ("password", JStr "pw")]))
                  None)) = Some ctx' /\
    List.In ("node", JStr "https://es:9200") ctx'.
Proof.
  apply (proj2 (proj2 (sanitizeError_idempotent
                         (handleError "2024-01-15T10:30:00.000Z"
                            (ConnectionError "connect failed"
                               (Some [("node", JStr "https://es:9200");
                                      ("password", JStr "pw")]))
                            None)))
           [("node", JStr "https://es:9200"); ("password", JStr "pw")]
           "node" (JStr "https://es:9200")).
  - reflexivity.
  - reflexivity.
  - left. reflexivity.
Defined.

(** One of the transient words occurs in [s], letter case aside. *)
Definition mentions_transient (s : string) : bool :=
  List.existsb (fun word => includes (toLowerCase s) word) transient_words.

Lemma includes_lower_middle (a s b word : string) :
  includes (toLowerCase s) word = true ->
  includes (toLowerCase (a +:+ s +:+ b)) word = true.
Proof.
  intros H. rewrite !Substring.toLowerCase_app.
  apply Substring.includes_app_r, Substring.includes_app_l. exact H.
Qed.

(** An error that is neither a ConnectionError nor an ElasticsearchError
    counts as retryable as soon as its message holds one of the words
    timeout, connection, network, 503, 502, 504, in any letter case.  So
    does the NotFoundError for a missing index whose name holds such a
    word. *)
Theorem isRetryableError_by_message (index : string) :
  mentions_transient index = true ->
  isRetryableError (NotFoundError ("Index '" +:+ index +:+ "' does not exist") None) = true /\
  (forall c, isRetryableError (ValidationError index c) = true) /\
  (forall name, isRetryableError (OtherError name index) = true).
Proof.
  unfold mentions_transient, transient_words. cbn [List.existsb]. rewrite orb_false_r.
  intros H.
  assert (Hmsg : forall a b,
             let message := toLowerCase (a +:+ index +:+ b) in
             includes message "timeout" || includes message "connection"
             || includes message "network" || includes message "503"
             || includes message "502" || includes message "504" = true).
  { intros a b. cbv zeta.
    repeat (apply orb_prop in H; destruct H as [H|H]);
      rewrite (includes_lower_middle a index b _ H);
      repeat rewrite orb_true_r; reflexivity. }
  split; [|split].
  - cbn [isRetryableError Tool.error_message]. exact (Hmsg "Index '" "' does not exist").
  - intros c. cbn [isRetryableError Tool.error_message].
    pose proof (Hmsg EmptyString EmptyString) as H0. cbv zeta in H0.
    change (EmptyString +:+ index +:+ EmptyString) with (index +:+ EmptyString) in H0.
    rewrite Substring.append_empty_r in H0. exact H0.
  - intros name. cbn [isRetryableError Tool.error_message].
    pose proof (Hmsg EmptyString EmptyString) as H0. cbv zeta in H0.
    change (EmptyString +:+ index +:+ EmptyString) with (index +:+ EmptyString) in H0.
    rewrite Substring.append_empty_r in H0. exact H0.
Qed.

Lemma isRetryableError_by_message_witness :
  isRetryableError (NotFoundError "Index 'Network-logs' does not exist" None) = true.
Proof.
  apply (proj1 (isRetryableError_by_message "Network-logs" eq_refl)).
Defined.

End Handlers.

(** ** More on the CSV export
    Further properties of [generateFilename], [extractFieldValue],
    [exportDataWithScroll] and the finalization of
    src/tools/export-to-csv.ts. *)

Module ExportFacts.

Import Filename.
Import Fields.

(** *** File names *)

Lemma replace_outside_clean (s : string) :
  string_forallb in_class s = true -> replace_outside s = s.
Proof.
  induction s as [|c s IH]; [reflexivity|].
  cbn [string_forallb]. intros H. apply andb_prop in H. destruct H as [Hc Hs].
  unfold replace_outside in *. cbn [string_map]. rewrite Hc, (IH Hs). reflexivity.
Qed.

Lemma collapse_underscores_clean (s : string) :
  includes s "__" = false -> collapse_underscores s = s.
Proof.
  induction s as [|c s IH]; [reflexivity|].
  rewrite InsertTool.includes_cons, startsWith_two_underscores.
  intros H. apply orb_false_elim in H. destruct H as [Hd Hs].
  cbn [collapse_underscores]. rewrite Hd, (IH Hs). reflexivity.
Qed.

Lemma forallb_append (f : ascii -> bool) (a b : string) :
  string_forallb f (a +:+ b) = string_forallb f a && string_forallb f b.
Proof.
  induction a as [|c a IH]; [reflexivity|].
  rewrite Substring.append_cons. cbn [string_forallb]. rewrite IH. apply andb_assoc.
Qed.

Lemma no_double_append_csv (s : string) :
  includes s "__" = false -> includes (s +:+ ".csv") "__" = false.
Proof.
  induction s as [|c s IH]; [reflexivity|].
  rewrite Substring.append_cons, !InsertTool.includes_cons, !startsWith_two_underscores.
  intros H. apply orb_false_elim in H. destruct H as [Hd Hs].
  rewrite (IH Hs), orb_false_r.
  destruct s as [|d s]; [destruct (Ascii.eqb c "_"); reflexivity|].
  rewrite Substring.append_cons, !startsWith_underscore in *. exact Hd.
Qed.

Lemma endsWith_nonempty (s p : string) :
  endsWith s p = true -> p <> EmptyString -> s <> EmptyString.
Proof.
  intros H Hp ->. cbn in H. rewrite orb_false_r in H.
  destruct p; [congruence|discriminate].
Qed.

(** A name that [generateFilename] has produced from a caller's name is
    returned unchanged when it is given back as the caller's name. *)
Theorem generateFilename_idempotent (now_iso now_iso' index index' name : string) :
  name <> EmptyString ->
  generateFilename now_iso' index' (Some (generateFilename now_iso index (Some name)))
  = generateFilename now_iso index (Some name).
Proof.
  intros Hname.
  assert (Hgen : generateFilename now_iso index (Some name) =
                 ensure_csv (collapse_underscores (replace_outside name))).
  { unfold generateFilename. destruct (String.eqb_spec name EmptyString); [contradiction|].
    reflexivity. }
  rewrite Hgen.
  set (sanitized := collapse_underscores (replace_outside name)).
  assert (Hclass : string_forallb in_class sanitized = true)
    by apply collapse_forallb, replace_outside_in_class.
  assert (Hdouble : includes sanitized "__" = false) by apply collapse_no_double.
  pose proof (ensure_csv_suffix sanitized) as Hsuffix.
  assert (Hclass' : string_forallb in_class (ensure_csv sanitized) = true).
  { unfold ensure_csv. destruct (endsWith sanitized ".csv"); [exact Hclass|].
    rewrite forallb_append, Hclass. reflexivity. }
  assert (Hdouble' : includes (ensure_csv sanitized) "__" = false).
  { unfold ensure_csv. destruct (endsWith sanitized ".csv"); [exact Hdouble|].
    apply no_double_append_csv. exact Hdouble. }
  unfold generateFilename.
  destruct (String.eqb_spec (ensure_csv sanitized) EmptyString) as [He|_].
  { exfalso. apply (endsWith_nonempty _ _ Hsuffix); [discriminate|exact He]. }
  cbn [negb]. rewrite (replace_outside_clean _ Hclass'), (collapse_underscores_clean _ Hdouble').
  unfold ensure_csv at 1. rewrite Hsuffix. reflexivity.
Qed.

Lemma generateFilename_idempotent_witness :
  generateFilename "2025-02-01T00:00:00.000Z" "logs"
    (Some (generateFilename "2024-01-15T10:30:00.000Z" "users" (Some "my report (final)")))
  = "my_report_final_.csv".
Proof.
  rewrite (generateFilename_idempotent "2024-01-15T10:30:00.000Z" "2025-02-01T00:00:00.000Z"
             "users" "logs" "my report (final)"); [reflexivity|discriminate].
Defined.

(** *** Cells *)

(** The numbers a document can hold exactly: whole numbers within 2^53,
    which [JSON.stringify] prints digit by digit. *)
Fixpoint safe_numbers (v : json) : bool :=
  match v with
  | JNum n => (Z.abs n <=? 2 ^ 53)%Z
  | JArr items => List.forallb safe_numbers items
  | JObj entries => List.forallb (fun kv => safe_numbers (snd kv)) entries
  | _ => true
  end.

(** The cells of a record built for the writer from a document whose
    numbers are whole and within 2^53.  Every cell stands under one of
    the fields and is never an object or an array: it is a scalar,
    [null], [undefined] or a function inherited from [Object.prototype].
    When the dotted path of the field leads through entries of the
    document to a value, the cell is that value, an object or an array as
    its JSON text.  When it does not, and no segment names a member that
    objects inherit, the cell is [null] or [undefined]. *)
Theorem to_record_cells (fields : list string) (source : json) (key : string)
  (cell : option jsvalue) :
  safe_numbers source = true ->
  List.In (key, cell) (to_record fields {| _source := Some source |}) ->
  List.In key fields /\
  flat cell /\
  (forall w, at_path source (split "." key) w -> cell = Some (returned w)) /\
  (List.forallb (fun part => negb (is_inherited_name part)) (split "." key) = true ->
   (forall w, ~ at_path source (split "." key) w) -> empty_value cell).
Proof.
  intros _ H. unfold to_record in H. apply List.in_map_iff in H.
  destruct H as [field [Heq Hin]]. injection Heq as -> <-.
  apply List.filter_In in Hin. destruct Hin as [Hin _].
  unfold extractFieldValue. cbn [_source option_map].
  split; [exact Hin|]. split; [|split].
  - apply follow_flat. exact I.
  - intros w Hw. exact (follow_at_path _ _ _ Hw).
  - intros Hown Hno. exact (follow_no_path _ Hown _ Hno).
Qed.

Lemma to_record_cells_witness :
  flat (Some (returned (JObj [("b", JArr [JNum 1; JNum 2])]))) /\
  empty_value (extractFieldValue (Some (JObj [("a", JArr [JObj [("b", JNum 1)]])])) "a.b").
Proof.
  split.
  - apply (to_record_cells ["a"; "c"]
             (JObj [("a", JObj [("b", JArr [JNum 1; JNum 2])]); ("c", JNum 2)]) "a"
             (Some (returned (JObj [("b", JArr [JNum 1; JNum 2])])))).
    + reflexivity.
    + left. reflexivity.
  - apply (to_record_cells ["a.b"] (JObj [("a", JArr [JObj [("b", JNum 1)]])]) "a.b"
             (extractFieldValue (Some (JObj [("a", JArr [JObj [("b", JNum 1)]])])) "a.b")).
    + reflexivity.
    + left. reflexivity.
    + reflexivity.
    + intros w Hw. inversion Hw as [|es part rest x w' Hx Hrest]; subst.
      cbn in Hx. injection Hx as <-. inversion Hrest.
Defined.

(** *** Field names from a mapping *)

(** [typed_leaf properties path]: following [path] key by key from a
    [properties] value, through entries that declare no type but nested
    [properties], one arrives at an entry that declares a type. *)
Inductive typed_leaf : json -> list string -> Prop :=
| leaf_here (properties : json) (key : string) (config : list (string * json)) :
    List.In (key, JObj config) (Object_entries properties) ->
    truthy (lookup_entry "type" config) = true ->
    typed_leaf properties [key]
| leaf_below (properties : json) (key : string) (config : list (string * json))
    (nested : json) (rest : list string) :
    List.In (key, JObj config) (Object_entries properties) ->
    truthy (lookup_entry "type" config) = false ->
    lookup_entry "properties" config = Some nested ->
    truthy (Some nested) = true ->
    typed_leaf nested rest ->
    typed_leaf properties (key :: rest).

(** The name built along a path: the keys joined by dots behind the
    prefix. *)
Fixpoint dotted (prefix : string) (path : list string) : string :=
  match path with
  | [] => prefix
  | key :: rest => dotted (field_name prefix key) rest
  end.

Lemma visit_entry_single (prefix key : string) (value : json) :
  extractFieldNames (JObj [(key, value)]) prefix = visit_entry prefix key value.
Proof. rewrite extractFieldNames_cons, extractFieldNames_nil. apply List.app_nil_r. Qed.

Lemma extractFieldNames_entries (properties : json) (prefix : string) :
  extractFieldNames properties prefix =
  List.flat_map (fun kv => visit_entry prefix (fst kv) (snd kv)) (Object_entries properties).
Proof.
  destruct properties as [| b | n | s | items | entries]; try reflexivity.
  - cbn [Object_entries extractFieldNames]. generalize 0%nat.
    induction s as [|c s IH]; intros i; [reflexivity|].
    cbn [chars indexed List.flat_map fst snd]. rewrite <- IH. reflexivity.
  - cbn [Object_entries]. cbn [extractFieldNames]. generalize 0%nat.
    induction items as [|value rest IH]; intros i; [reflexivity|].
    cbn [indexed List.flat_map fst snd]. rewrite <- IH.
    rewrite <- visit_entry_single. cbn [extractFieldNames]. rewrite List.app_nil_r.
    reflexivity.
  - cbn [Object_entries].
    induction entries as [|[k v] rest IH]; [reflexivity|].
    rewrite extractFieldNames_cons, IH. reflexivity.
Qed.

Definition names_are_leaves (v : json) : Prop :=
  forall prefix name,
    List.In name (extractFieldNames v prefix) <->
    exists path, typed_leaf v path /\ name = dotted prefix path.

Lemma names_are_leaves_step (properties : json) :
  (forall key config nested,
      List.In (key, JObj config) (Object_entries properties) ->
      lookup_entry "properties" config = Some nested ->
      names_are_leaves nested) ->
  names_are_leaves properties.
Proof.
  intros Hnested prefix name. rewrite extractFieldNames_entries, List.in_flat_map. split.
  - intros [[key value] [Hin Hname]]. cbn [fst snd] in Hname. unfold visit_entry in Hname.
    destruct value as [| b | n | s | items | config]; cbn [is_object_or_array] in Hname;
      try destruct Hname.
    cbn [get_prop] in Hname.
    destruct (truthy (lookup_entry "type" config)) eqn:Htype.
    + destruct Hname as [<-|[]]. exists [key]. split; [|reflexivity].
      exact (leaf_here _ _ _ Hin Htype).
    + destruct (lookup_entry "properties" config) as [nested|] eqn:Hp; [|destruct Hname].
      destruct (truthy (Some nested)) eqn:Ht; [|destruct Hname].
      apply (Hnested key config nested Hin Hp) in Hname.
      destruct Hname as [path [Hleaf ->]]. exists (key :: path). split; [|reflexivity].
      exact (leaf_below _ _ _ _ _ Hin Htype Hp Ht Hleaf).
  - intros [path [Hleaf ->]].
    inversion Hleaf as [ps key config Hin Htype | ps key config nested rest Hin Htype Hp Ht Hrest];
      subst.
    + exists (key, JObj config). split; [exact Hin|].
      cbn [fst snd]. unfold visit_entry. cbn [is_object_or_array get_prop].
      rewrite Htype. left. reflexivity.
    + exists (key, JObj config). split; [exact Hin|].
      cbn [fst snd]. unfold visit_entry. cbn [is_object_or_array get_prop].
      rewrite Htype, Hp, Ht. cbn [dotted].
      apply (Hnested key config nested Hin Hp). exists rest. split; [exact Hrest|reflexivity].
Qed.

Lemma lookup_entry_In (k : string) (entries : list (string * json)) (v : json) :
  lookup_entry k entries = Some v -> List.In (k, v) entries.
Proof.
  induction entries as [|[k' x] rest IH]; [discriminate|].
  cbn [lookup_entry]. destruct (String.eqb_spec k' k) as [->|_].
  - intros H. injection H as ->. left. reflexivity.
  - intros H. right. exact (IH H).
Qed.

Lemma In_indexed {A : Type} (l : list A) :
  forall i k x, List.In (k, x) (indexed i l) -> List.In x l.
Proof.
  induction l as [|y l IH]; intros i k x H; [destruct H|].
  cbn [indexed] in H. destruct H as [H|H].
  - injection H as _ ->. left. reflexivity.
  - right. exact (IH _ _ _ H).
Qed.

Lemma all_names_are_leaves (v : json) :
  names_are_leaves v /\
  (forall k c, List.In (k, c) (Object_entries v) -> names_are_leaves c).
Proof.
  induction v as [| b | n | s | items IH | entries IH] using json_ind'.
  - split; [apply names_are_leaves_step; intros ? ? ? []|intros ? ? []].
  - split; [apply names_are_leaves_step; intros ? ? ? []|intros ? ? []].
  - split; [apply names_are_leaves_step; intros ? ? ? []|intros ? ? []].
  - assert (Hchars : forall k c, List.In (k, c) (Object_entries (JStr s)) ->
                                 exists t, c = JStr t).
    { cbn [Object_entries]. generalize 0%nat.
      induction s as [|a s IHs]; intros i k c H; [destruct H|].
      cbn [chars indexed] in H. destruct H as [H|H]; [injection H as _ <-; eauto|].
      exact (IHs _ _ _ H). }
    split.
    + apply names_are_leaves_step. intros key config nested Hin.
      apply Hchars in Hin. destruct Hin as [t Ht]. discriminate.
    + intros k c Hin. apply Hchars in Hin. destruct Hin as [t ->].
      apply names_are_leaves_step. intros key config nested Hin.
      cbn [Object_entries] in Hin.
      assert (Hc : forall t0 i, ~ List.In (key, JObj config) (indexed i (chars t0))).
      { induction t0 as [|a t0 IHt]; intros i H; [destruct H|].
        cbn [chars indexed] in H. destruct H as [H|H]; [discriminate|].
        exact (IHt _ H). }
      exfalso. exact (Hc _ _ Hin).
  - rewrite List.Forall_forall in IH.
    assert (Hchild : forall k c, List.In (k, c) (Object_entries (JArr items)) ->
                                 names_are_leaves c).
    { intros k c Hin. cbn [Object_entries] in Hin. apply In_indexed in Hin.
      exact (proj1 (IH c Hin)). }
    split; [|exact Hchild].
    apply names_are_leaves_step. intros key config nested Hin Hp.
    cbn [Object_entries] in Hin. apply In_indexed in Hin.
    apply (proj2 (IH (JObj config) Hin) "properties" nested).
    cbn [Object_entries]. exact (lookup_entry_In _ _ _ Hp).
  - rewrite List.Forall_forall in IH.
    assert (Hchild : forall k c, List.In (k, c) (Object_entries (JObj entries)) ->
                                 names_are_leaves c).
    { intros k c Hin. exact (proj1 (IH (k, c) Hin)). }
    split; [|exact Hchild].
    apply names_are_leaves_step. intros key config nested Hin Hp.
    apply (proj2 (IH (key, JObj config) Hin) "properties" nested).
    cbn [Object_entries snd]. exact (lookup_entry_In _ _ _ Hp).
Qed.

(** The names that [extractFieldNames] returns are exactly the dotted
    paths to the entries of the mapping that declare a type, reached
    through entries that declare nested properties and no type; under a
    typed entry nothing is listed. *)
Theorem extractFieldNames_typed_leaves (properties : json) (prefix name : string) :
  List.In name (extractFieldNames properties prefix) <->
  exists path, typed_leaf properties path /\ name = dotted prefix path.
Proof. exact (proj1 (all_names_are_leaves properties) prefix name). Qed.

Definition user_mapping : json :=
  JObj [("title", JObj [("type", JStr "text")]);
        ("user", JObj [("properties",
                        JObj [("name", JObj [("type", JStr "keyword")])])]);
        ("tags", JObj [("type", JStr "nested");
                       ("properties", JObj [("label", JObj [("type", JStr "keyword")])])])].

Lemma extractFieldNames_typed_leaves_witness :
  List.In "user.name" (extractFieldNames user_mapping EmptyString).
Proof.
  apply (proj2 (extractFieldNames_typed_leaves user_mapping EmptyString "user.name")).
  exists ["user"; "name"]. split; [|reflexivity].
  apply (leaf_below user_mapping "user"
           [("properties", JObj [("name", JObj [("type", JStr "keyword")])])]
           (JObj [("name", JObj [("type", JStr "keyword")])]) ["name"]);
    try reflexivity.
  - right. left. reflexivity.
  - apply (leaf_here _ "name" [("type", JStr "keyword")]); [left|]; reflexivity.
Defined.

(** *** The scroll loop *)

Import Scroll.

(** The number of records handed to the writer. *)
Fixpoint written (evs : list event) : Z :=
  match evs with
  | [] => 0%Z
  | EvWriteRecords records :: rest => (Z.of_nat (length records) + written rest)%Z
  | _ :: rest => written rest
  end.

Lemma written_release (client : Client) (response : Response) :
  written (release client response) = 0%Z.
Proof.
  unfold release. destruct (scroll_handle response); [|reflexivity].
  destruct (clearScroll client s); reflexivity.
Qed.

Lemma loop_written (client : Client) (writer : Writer) (fields : list string) (maxRows : Z) :
  forall fuel response totalExported writes scrolls outcome evs,
    loop fuel client writer fields maxRows response totalExported writes scrolls
      = Some (outcome, evs) ->
    (forall rows, outcome = Ok rows -> rows = (totalExported + written evs)%Z) /\
    (Z.of_nat (count is_write evs) <= written evs)%Z /\
    (count is_scroll evs <= count is_write evs)%nat.
Proof.
  induction fuel as [|fuel IH]; intros response total writes scrolls outcome evs Hrun;
    [discriminate|].
  cbn [loop] in Hrun.
  pose proof (written_release client response) as Hw0.
  destruct (release_no_write_no_scroll client response) as [Hw1 Hs1].
  destruct ((0 <? Z.of_nat (length (hits response)))%Z && (total <? maxRows)%Z) eqn:Hcond.
  2:{ injection Hrun as <- <-. rewrite Hw0, Hw1, Hs1.
      split; [intros rows H; injection H as <-; lia|]. split; lia. }
  apply andb_prop in Hcond. destruct Hcond as [Hhits _]. apply Z.ltb_lt in Hhits.
  rewrite List.length_map in Hrun.
  destruct (writer writes _).
  2:{ injection Hrun as <- <-. cbn [written]. rewrite List.length_map.
      split; [intros rows H; discriminate|]. cbn. split; lia. }
  destruct (maxRows <=? _)%Z.
  { injection Hrun as <- <-. cbn [app written]. rewrite List.length_map, Hw0.
    split; [intros rows H; injection H as <-; lia|].
    count_events. split; lia. }
  destruct (scroll_handle response) as [id|].
  2:{ injection Hrun as <- <-. cbn [app written]. rewrite List.length_map, Hw0.
      split; [intros rows H; injection H as <-; lia|].
      count_events. split; lia. }
  destruct (scroll client scrolls id) as [response'|e].
  2:{ injection Hrun as <- <-. cbn [app written]. rewrite List.length_map.
      split; [intros rows H; discriminate|]. cbn. split; lia. }
  apply prepend_Some in Hrun. destruct Hrun as [rest [Hrest ->]].
  apply IH in Hrest. destruct Hrest as [Hrows [Hwr Hsc]].
  cbn [app written]. rewrite List.length_map.
  split; [intros rows H; rewrite (Hrows rows H); lia|].
  count_events. split; lia.
Qed.

(** A batch handed to the writer holds at least one record. *)
Definition nonempty_batch (ev : event) : Prop :=
  match ev with
  | EvWriteRecords records => records <> []
  | _ => True
  end.

Lemma release_batches (client : Client) (response : Response) :
  Forall nonempty_batch (release client response).
Proof.
  unfold release. destruct (scroll_handle response); [|constructor].
  destruct (clearScroll client s); repeat constructor.
Qed.

Lemma loop_batches_nonempty (client : Client) (writer : Writer) (fields : list string)
  (maxRows : Z) :
  forall fuel response totalExported writes scrolls outcome evs,
    loop fuel client writer fields maxRows response totalExported writes scrolls
      = Some (outcome, evs) ->
    Forall nonempty_batch evs.
Proof.
  induction fuel as [|fuel IH]; intros response total writes scrolls outcome evs Hrun;
    [discriminate|].
  cbn [loop] in Hrun.
  pose proof (release_batches client response) as Hrelease.
  destruct ((0 <? Z.of_nat (length (hits response)))%Z && (total <? maxRows)%Z) eqn:Hcond.
  2:{ injection Hrun as <- <-. exact Hrelease. }
  apply andb_prop in Hcond. destruct Hcond as [Hhits _]. apply Z.ltb_lt in Hhits.
  assert (Hbatch : nonempty_batch (EvWriteRecords (List.map (to_record fields) (hits response)))).
  { cbn. destruct (hits response); [cbn in Hhits; lia|discriminate]. }
  destruct (writer writes _).
  2:{ injection Hrun as <- <-. repeat constructor. exact Hbatch. }
  destruct (maxRows <=? _)%Z.
  { injection Hrun as <- <-. cbn [app]. repeat (constructor; [first [exact Hbatch|exact I]|]).
    exact Hrelease. }
  destruct (scroll_handle response) as [id|].
  2:{ injection Hrun as <- <-. cbn [app].
      repeat (constructor; [first [exact Hbatch|exact I]|]). exact Hrelease. }
  destruct (scroll client scrolls id) as [response'|e].
  2:{ injection Hrun as <- <-. cbn [app].
      repeat (constructor; [first [exact Hbatch|exact I]|]). constructor. }
  apply prepend_Some in Hrun. destruct Hrun as [rest [Hrest ->]].
  apply IH in Hrest. cbn [app].
  repeat (constructor; [first [exact Hbatch|exact I]|]). exact Hrest.
Qed.

(** The row count that an export returns is the number of records it
    handed to the writer; every batch written held at least one record,
    so there are no more batches than rows, and a continuation was
    requested only after a batch was written. *)
Theorem exportDataWithScroll_rows_written
  (sanitizeQuery : json -> result (option json)) (client : Client) (args : ExportArgs)
  (writer : Writer) (fields : list string) (rows : Z) (evs : list event) :
  exportDataWithScroll sanitizeQuery client args writer fields = Some (Ok rows, evs) ->
  rows = written evs /\
  Forall nonempty_batch evs /\
  (Z.of_nat (count is_write evs) <= rows)%Z /\
  (count is_scroll evs <= count is_write evs)%nat.
Proof.
  unfold exportDataWithScroll. intros Hrun.
  destruct (build_query sanitizeQuery args) as [q|e]; [|discriminate].
  destruct (search client _) as [response|e]; [|discriminate].
  apply prepend_Some in Hrun. destruct Hrun as [rest [Hrest ->]].
  pose proof (loop_batches_nonempty _ _ _ _ _ _ _ _ _ _ _ Hrest) as Hbatches.
  apply loop_written in Hrest. destruct Hrest as [Hrows [Hwr Hsc]].
  cbn [app written]. rewrite (Hrows rows eq_refl).
  split; [lia|]. split; [constructor; [exact I|exact Hbatches]|].
  count_events. split; lia.
Qed.

Lemma exportDataWithScroll_rows_written_witness :
  exists evs,
    exportDataWithScroll accept_query two_record_client (cap 10) ok_writer ["id"]
      = Some (Ok 2%Z, evs) /\
    written evs = 2%Z.
Proof.
  destruct (exportDataWithScroll accept_query two_record_client (cap 10) ok_writer ["id"])
    as [[[rows|e] evs]|] eqn:Hrun; try (vm_compute in Hrun; discriminate).
  assert (Hrows : rows = 2%Z) by (vm_compute in Hrun; injection Hrun as <- _; reflexivity).
  subst rows. exists evs. split; [reflexivity|].
  symmetry. exact (proj1 (exportDataWithScroll_rows_written _ _ _ _ _ _ _ Hrun)).
Defined.

(** The release block: the call and the warning of its failure. *)
Definition is_release_block (ev : event) : bool :=
  match ev with EvClearScroll _ | EvWarn _ => true | _ => false end.

Definition outside_release (evs : list event) : list event :=
  List.filter (fun ev => negb (is_release_block ev)) evs.

Definition with_clearScroll (client : Client) (f : string -> result unit) : Client :=
  {| search := search client; scroll := scroll client; clearScroll := f |}.

Lemma outside_release_release (client : Client) (response : Response) :
  outside_release (release client response) = [].
Proof.
  unfold release. destruct (scroll_handle response); [|reflexivity].
  destruct (clearScroll client s); reflexivity.
Qed.

Lemma outside_release_app (xs ys : list event) :
  outside_release (xs ++ ys) = outside_release xs ++ outside_release ys.
Proof. apply List.filter_app. Qed.

Lemma loop_release_failure_harmless (client : Client) (f : string -> result unit)
  (writer : Writer) (fields : list string) (maxRows : Z) :
  forall fuel response totalExported writes scrolls,
    outcome_of (loop fuel (with_clearScroll client f) writer fields maxRows response
                     totalExported writes scrolls)
    = outcome_of (loop fuel client writer fields maxRows response totalExported writes scrolls)
    /\
    outside_release (events_of (loop fuel (with_clearScroll client f) writer fields maxRows
                                     response totalExported writes scrolls))
    = outside_release (events_of (loop fuel client writer fields maxRows response
                                       totalExported writes scrolls)).
Proof.
  induction fuel as [|fuel IH]; intros response total writes scrolls; [split; reflexivity|].
  cbn [loop].
  pose proof (outside_release_release client response) as H1.
  pose proof (outside_release_release (with_clearScroll client f) response) as H2.
  destruct ((0 <? Z.of_nat (length (hits response)))%Z && (total <? maxRows)%Z).
  2:{ cbn [outcome_of option_map fst events_of]. rewrite H1, H2. split; reflexivity. }
  destruct (writer writes _); [|split; reflexivity].
  destruct (maxRows <=? _)%Z.
  { cbn [outcome_of option_map fst events_of]. rewrite !outside_release_app, H1, H2.
    split; reflexivity. }
  destruct (scroll_handle response) as [id|].
  2:{ cbn [outcome_of option_map fst events_of]. rewrite !outside_release_app, H1, H2.
      split; reflexivity. }
  change (scroll (with_clearScroll client f)) with (scroll client).
  destruct (scroll client scrolls id) as [response'|e]; [|split; reflexivity].
  specialize (IH response' (total + Z.of_nat (length (List.map (to_record fields)
                                                        (hits response))))%Z
                 (S writes) (S scrolls)).
  destruct IH as [IHo IHe].
  destruct (loop fuel (with_clearScroll client f) _ _ _ _ _ _ _) as [[o1 e1]|];
    destruct (loop fuel client _ _ _ _ _ _ _) as [[o2 e2]|];
    cbn [prepend outcome_of option_map fst events_of] in *; try discriminate.
  - injection IHo as ->. rewrite !outside_release_app, IHe. split; reflexivity.
  - split; reflexivity.
Qed.

(** What the release answers, success or failure, changes neither the
    outcome of the export nor any call made outside the release block. *)
Theorem exportDataWithScroll_release_failure_harmless
  (sanitizeQuery : json -> result (option json)) (client : Client)
  (f : string -> result unit) (args : ExportArgs) (writer : Writer) (fields : list string) :
  outcome_of (exportDataWithScroll sanitizeQuery (with_clearScroll client f) args writer fields)
  = outcome_of (exportDataWithScroll sanitizeQuery client args writer fields) /\
  outside_release
    (events_of (exportDataWithScroll sanitizeQuery (with_clearScroll client f) args writer
                  fields))
  = outside_release (events_of (exportDataWithScroll sanitizeQuery client args writer fields)).
Proof.
  unfold exportDataWithScroll.
  destruct (build_query sanitizeQuery args) as [q|e]; [|split; reflexivity].
  change (search (with_clearScroll client f)) with (search client).
  destruct (search client _) as [response|e]; [|split; reflexivity].
  destruct (loop_release_failure_harmless client f writer fields (effective_maxRows args)
              (S (Z.to_nat (effective_maxRows args))) response 0 0 0) as [Ho He].
  destruct (loop _ (with_clearScroll client f) _ _ _ _ _ _ _) as [[o1 e1]|];
    destruct (loop _ client _ _ _ _ _ _ _) as [[o2 e2]|];
    cbn [prepend outcome_of option_map fst events_of] in *; try discriminate.
  - injection Ho as ->. rewrite !outside_release_app, He. split; reflexivity.
  - split; reflexivity.
Qed.

Lemma exportDataWithScroll_totals_witness :
  increasing_from 0
    (totals (events_of (exportDataWithScroll accept_query large_index_client (cap 1500)
                          ok_writer ["id"]))).
Proof.
  destruct (exportDataWithScroll accept_query large_index_client (cap 1500) ok_writer ["id"])
    as [[outcome evs]|] eqn:Hrun; [|exact I].
  exact (proj1 (exportDataWithScroll_totals accept_query large_index_client (cap 1500)
                  ok_writer ["id"] outcome evs Hrun)).
Defined.

Lemma exportDataWithScroll_below_cap_plus_batch_witness :
  exists rows evs,
    exportDataWithScroll accept_query large_index_client (cap 1500) ok_writer ["id"]
      = Some (Ok rows, evs) /\
    (0 <= rows < 2500)%Z.
Proof.
  destruct (exportDataWithScroll accept_query large_index_client (cap 1500) ok_writer ["id"])
    as [[[rows|e] evs]|] eqn:Hrun; try (vm_compute in Hrun; discriminate).
  exists rows, evs. split; [reflexivity|].
  apply (exportDataWithScroll_below_cap_plus_batch accept_query large_index_client (cap 1500)
           ok_writer ["id"] 1000%Z rows evs).
  - intros body response H. injection H as <-. vm_compute. discriminate.
  - intros n id response H. injection H as <-. vm_compute. discriminate.
  - reflexivity.
  - exact Hrun.
Defined.

(** *** Finalization *)

Import Finalize.

(** With a decompressor that undoes the compressor, the artifact of a
    compressed export decompresses to the very bytes that the same
    export leaves under the plain name when compression is off: the
    content of the temporary file. *)
Theorem finalize_content_round_trip
  (gzip gunzip : string -> string) (w : world) (filename data : string) :
  (forall d, gunzip (gzip d) = d) ->
  files w !! (filename +:+ ".tmp") = Some data ->
  files (snd (finalize gzip filename false w)) !! filename = Some data /\
  option_map gunzip (files (snd (finalize gzip filename true w)) !! (filename +:+ ".gz"))
    = Some data /\
  fst (finalize gzip filename false w) = Ok (filename, Z.of_nat (String.length data)) /\
  fst (finalize gzip filename true w)
    = Ok (filename +:+ ".gz", Z.of_nat (String.length (gzip data))).
Proof.
  intros Hinv Htmp.
  rewrite (finalize_rename gzip w filename data Htmp).
  rewrite (finalize_compress gzip w filename data Htmp).
  cbn [fst snd files]. repeat split.
  - apply lookup_insert_eq.
  - rewrite lookup_delete_ne by apply tmp_not_gz.
    rewrite lookup_insert_eq. cbn [option_map]. rewrite Hinv. reflexivity.
Qed.

Definition unmark_compressed (data : string) : string :=
  match data with
  | String _ (String _ (String _ rest)) => rest
  | _ => data
  end.

Lemma finalize_content_round_trip_witness :
  files (snd (finalize mark_compressed "users.csv" false after_export)) !! "users.csv"
    = Some "id,name" /\
  option_map unmark_compressed
    (files (snd (finalize mark_compressed "users.csv" true after_export)) !! "users.csv.gz")
    = Some "id,name".
Proof.
  destruct (finalize_content_round_trip mark_compressed unmark_compressed after_export
              "users.csv" "id,name") as [H1 [H2 _]].
  - intros d. reflexivity.
  - reflexivity.
  - split; [exact H1|exact H2].
Defined.

(** Without the temporary file, finalization stops at the first [stat]
    with ENOENT, whatever the compression flag: no file is read, written,
    renamed or removed. *)
Theorem finalize_missing_tmp
  (gzip : string -> string) (w : world) (filename : string) (compress : bool) :
  files w !! (filename +:+ ".tmp") = None ->
  finalize gzip filename compress w =
  (Throw (OtherError "Error"
            ("ENOENT: no such file or directory, stat '" +:+ filename +:+ ".tmp'")),
   {| files := files w; ops := ops w ++ [OpStat (filename +:+ ".tmp")] |}).
Proof.
  intros Htmp. unfold finalize, and_then, stat, logged. rewrite Htmp.
  unfold enoent. rewrite Substring.append_assoc. reflexivity.
Qed.

Lemma finalize_missing_tmp_witness :
  fst (finalize mark_compressed "orders.csv" true after_export) =
  Throw (OtherError "Error" "ENOENT: no such file or directory, stat 'orders.csv.tmp'").
Proof.
  rewrite (finalize_missing_tmp mark_compressed after_export "orders.csv" true);
    reflexivity.
Defined.

End ExportFacts.

(** ** The export tool
    [execute], [createCSVWriter] and [formatFileSize] of
    src/tools/export-to-csv.ts (lines 44-130, 223-237, 350-361). *)

Module ExportTool.

Import Tool.
Import Scroll.
Import Finalize.

(** [formatFileSize(bytes)] for a whole number of bytes below 2^53.  The
    size is the fraction [bytes / den] with [den] a power of 1024, which
    is what the repeated division by 1024 computes without rounding;
    [toFixed(2)] rounds that fraction to hundredths, a tie upwards. *)
Definition units : list string := ["B"; "KB"; "MB"; "GB"].

Fixpoint scale (fuel : nat) (bytes den : Z) (unitIndex : nat) : Z * nat :=
  match fuel with
  | O => (den, unitIndex)
  | S fuel' =>
      if (den * 1024 <=? bytes)%Z && (unitIndex <? length units - 1)%nat
      then scale fuel' bytes (den * 1024)%Z (S unitIndex)
      else (den, unitIndex)
  end.

Definition two_digits (d : Z) : string :=
  if (d <? 10)%Z then "0" +:+ Z_to_string d else Z_to_string d.

(** [(num / den).toFixed(2)] for [num >= 0] and [den > 0]. *)
Definition toFixed2 (num den : Z) : string :=
  let hundredths := ((2 * 100 * num + den) / (2 * den))%Z in
  Z_to_string (hundredths / 100) +:+ "." +:+ two_digits (hundredths mod 100).

Definition formatFileSize (bytes : Z) : string :=
  let '(den, unitIndex) := scale (length units) bytes 1 0 in
  toFixed2 bytes den +:+ " " +:+ List.nth unitIndex units EmptyString.

(** The unit chosen: the loop stops at the first of B, KB, MB below
    1024, or at GB. *)
Lemma scale_units (bytes : Z) :
  scale (length units) bytes 1 0 =
  if (bytes <? 1024)%Z then (1%Z, 0%nat)
  else if (bytes <? 1024 * 1024)%Z then (1024%Z, 1%nat)
  else if (bytes <? 1024 * 1024 * 1024)%Z then ((1024 * 1024)%Z, 2%nat)
  else ((1024 * 1024 * 1024)%Z, 3%nat).
Proof.
  change (length units) with 4%nat. unfold scale.
  change (length units - 1)%nat with 3%nat.
  change (1 * 1024)%Z with 1024%Z.
  destruct (Z.leb_spec 1024 bytes), (Z.ltb_spec bytes 1024); try lia; [|reflexivity].
  change (0 <? 3)%nat with true. cbn [andb].
  change (1024 * 1024)%Z with 1048576%Z.
  destruct (Z.leb_spec 1048576 bytes), (Z.ltb_spec bytes 1048576); try lia; [|reflexivity].
  change (1 <? 3)%nat with true. cbn [andb].
  change (1048576 * 1024)%Z with 1073741824%Z.
  destruct (Z.leb_spec 1073741824 bytes), (Z.ltb_spec bytes 1073741824); try lia;
    [|reflexivity].
  change (2 <? 3)%nat with true. cbn [andb].
  change (3 <? 3)%nat with false. rewrite andb_false_r. reflexivity.
Qed.

Lemma toFixed2_whole (m den : Z) :
  (0 < den)%Z -> (0 <= m)%Z -> toFixed2 (m * den) den = Z_to_string m +:+ ".00".
Proof.
  intros Hden Hm. unfold toFixed2.
  assert (H : ((2 * 100 * (m * den) + den) / (2 * den) = 100 * m)%Z).
  { symmetry. apply (Z.div_unique_pos _ _ _ den); nia. }
  rewrite H.
  assert (H1 : (100 * m / 100 = m)%Z) by (rewrite Z.mul_comm; apply Z.div_mul; lia).
  assert (H2 : ((100 * m) mod 100 = 0)%Z) by (rewrite Z.mul_comm; apply Z.mod_mul; lia).
  rewrite H1, H2. reflexivity.
Qed.

(** A size below 2^53 bytes that is a whole number [m] of a unit prints
    as [m.00] with that unit: bytes below 1024, and whole kilo-, mega-
    and gigabytes; beyond 1023 GB the unit stays GB. *)
Theorem formatFileSize_whole_units (k : nat) (m : Z) :
  (k <= 3)%nat ->
  (0 <= m)%Z ->
  ((k < 3)%nat -> (m < 1024)%Z) ->
  ((0 < k)%nat -> (1 <= m)%Z) ->
  (m * 1024 ^ Z.of_nat k < 2 ^ 53)%Z ->
  formatFileSize (m * 1024 ^ Z.of_nat k) =
  Z_to_string m +:+ ".00 " +:+ List.nth k units EmptyString.
Proof.
  intros Hk Hm Hlt Hge _. unfold formatFileSize. rewrite scale_units.
  destruct k as [|[|[|[|k]]]]; try lia.
  - change (1024 ^ Z.of_nat 0)%Z with 1%Z.
    destruct (Z.ltb_spec (m * 1) 1024); [|lia].
    rewrite (toFixed2_whole m 1) by lia. rewrite !Substring.append_assoc. reflexivity.
  - change (1024 ^ Z.of_nat 1)%Z with 1024%Z.
    destruct (Z.ltb_spec (m * 1024) 1024); [lia|].
    destruct (Z.ltb_spec (m * 1024) (1024 * 1024)); [|lia].
    rewrite (toFixed2_whole m 1024) by lia. rewrite !Substring.append_assoc. reflexivity.
  - change (1024 ^ Z.of_nat 2)%Z with (1024 * 1024)%Z.
    destruct (Z.ltb_spec (m * (1024 * 1024)) 1024); [lia|].
    destruct (Z.ltb_spec (m * (1024 * 1024)) (1024 * 1024)); [lia|].
    destruct (Z.ltb_spec (m * (1024 * 1024)) (1024 * 1024 * 1024)); [|lia].
    rewrite (toFixed2_whole m (1024 * 1024)) by lia.
    rewrite !Substring.append_assoc. reflexivity.
  - change (1024 ^ Z.of_nat 3)%Z with (1024 * 1024 * 1024)%Z.
    destruct (Z.ltb_spec (m * (1024 * 1024 * 1024)) 1024); [lia|].
    destruct (Z.ltb_spec (m * (1024 * 1024 * 1024)) (1024 * 1024)); [lia|].
    destruct (Z.ltb_spec (m * (1024 * 1024 * 1024)) (1024 * 1024 * 1024)); [lia|].
    rewrite (toFixed2_whole m (1024 * 1024 * 1024)) by lia.
    rewrite !Substring.append_assoc. reflexivity.
Qed.

Lemma formatFileSize_whole_units_witness :
  formatFileSize 3145728 = "3.00 MB".
Proof.
  change 3145728%Z with (3 * 1024 ^ Z.of_nat 2)%Z.
  rewrite (formatFileSize_whole_units 2 3); [reflexivity|first [lia|reflexivity]..].
Defined.

Record ExportToCSVArgs : Type := {
  index : string;
  query : option json;
  fields : option (list string);
  filename : option string;
  delimiter : option string;
  maxRows : option Z;
  compress : option bool
}.

Record ExportToCSVResult : Type := {
  result_filename : string;
  rowsExported : Z;
  fileSize : string;
  downloadUrl : string
}.

(** The options handed to [createObjectCsvWriter]. *)
Record WriterConfig : Type := {
  config_path : string;
  config_header : list (string * string);
  fieldDelimiter : string;
  recordDelimiter : string;
  config_append : bool
}.

(** A writer of the package csv-writer: what the [n]-th call of
    [writeRecords] answers, and what it does to the files. *)
Record CsvWriter : Type := {
  writeRecords : Writer;
  disk_effect : nat -> list (list (string * option Fields.jsvalue)) -> world -> world
}.

(** The world after the calls of [writeRecords] in a run. *)
Fixpoint apply_writes (writer : CsvWriter) (n : nat) (evs : list event) (w : world) : world :=
  match evs with
  | [] => w
  | EvWriteRecords records :: rest =>
      apply_writes writer (S n) rest (disk_effect writer n records w)
  | _ :: rest => apply_writes writer n rest w
  end.

Section WithCollaborators.

(** What is not among the sources at hand or lies outside the program:
    [sanitizeQuery] of src/validation/schemas.ts, [zlib.gzip],
    [path.resolve] and [createObjectCsvWriter] of csv-writer, which
    returns a writer or throws (it refuses a field delimiter other than
    a comma or a semicolon). *)
Variable sanitizeQuery : json -> result (option json).
Variable gzip : string -> string.
Variable path_resolve : string -> string.
Variable createObjectCsvWriter : WriterConfig -> result CsvWriter.

Definition createCSVWriter (filename : string) (fields : list string)
  (format_delimiter : option string) : result CsvWriter :=
  createObjectCsvWriter
    {| config_path := filename;
       config_header := List.map (fun field => (field, field)) fields;
       fieldDelimiter :=
         match format_delimiter with
         | Some d => if negb (String.eqb d EmptyString) then d else ","
         | None => ","
         end;
       recordDelimiter := String (ascii_of_nat 10) EmptyString;
       config_append := false |}.

(** The cluster as [execute] itself uses it. *)
Record Cluster : Type := {
  cluster_ready : result unit;
  cluster_exists : string -> result bool;
  cluster_mapping : Fields.MappingClient;
  cluster_scroll : Client
}.

Definition scroll_args (args : ExportToCSVArgs) : ExportArgs :=
  {| arg_query := query args; arg_maxRows := maxRows args |}.

Definition wants_compression (args : ExportToCSVArgs) : bool :=
  match compress args with Some b => b | None => false end.

(** The [try] block of [execute], after [parse]: the outcome, the files
    afterwards and the events of [exportDataWithScroll] (its search, the
    batches, continuations and release, with their log lines).  The
    log line at the start, the existence check and the lookups of
    [determineFields] are not among the events.  [None] only if the
    scroll loop ran out of fuel. *)
Definition attempt (now_iso : string) (cluster : Cluster) (args : ExportToCSVArgs) (w : world)
  : option (result ExportToCSVResult * world * list event) :=
  match cluster_ready cluster with
  | Throw e => Some (Throw e, w, [])
  | Ok _ =>
      match cluster_exists cluster (index args) with
      | Throw e => Some (Throw e, w, [])
      | Ok false =>
          Some (Throw (NotFoundError ("Index '" +:+ index args +:+ "' does not exist") None),
                w, [])
      | Ok true =>
          let name := Filename.generateFilename now_iso (index args) (filename args) in
          let tempFilename := name +:+ ".tmp" in
          match Fields.determineFields (fields args) (cluster_mapping cluster) with
          | Throw e => Some (Throw e, w, [])
          | Ok fieldsToExport =>
              match createCSVWriter tempFilename fieldsToExport (delimiter args) with
              | Throw e => Some (Throw e, w, [])
              | Ok writer =>
                  match exportDataWithScroll sanitizeQuery (cluster_scroll cluster)
                          (scroll_args args) (writeRecords writer) fieldsToExport with
                  | None => None
                  | Some (Throw e, evs) => Some (Throw e, apply_writes writer 0 evs w, evs)
                  | Some (Ok rows, evs) =>
                      match finalize gzip name (wants_compression args)
                              (apply_writes writer 0 evs w) with
                      | (Throw e, w') => Some (Throw e, w', evs)
                      | (Ok (finalFilename, size), w') =>
                          Some (Ok {| result_filename := finalFilename;
                                      rowsExported := rows;
                                      fileSize := formatFileSize size;
                                      downloadUrl :=
                                        "file://" +:+ path_resolve finalFilename |},
                                w', evs)
                      end
                  end
              end
          end
      end
  end.

(** The [catch] block of [execute]. *)
Definition rethrow (raw_args : json) (e : error) : error :=
  if is_zod e then
    ValidationError "Invalid arguments for export_to_csv"
      (Some (match error_message e with
             | Some m => [("details", JStr m)]
             | None => []
             end))
  else
    match e with
    | ValidationError _ _ | NotFoundError _ _ => e
    | _ => wrap "Failed to export data to CSV" e raw_args
    end.

(** [execute(args)]: [parsed] is what [ExportToCSVArgsSchema.parse] gives
    for the raw arguments. *)
Definition execute (now_iso : string) (cluster : Cluster) (raw_args : json)
  (parsed : result ExportToCSVArgs) (w : world)
  : option (result ExportToCSVResult * world * list event) :=
  match parsed with
  | Throw e => Some (Throw (rethrow raw_args e), w, [])
  | Ok args =>
      match attempt now_iso cluster args w with
      | Some (Ok r, w', evs) => Some (Ok r, w', evs)
      | Some (Throw e, w', evs) => Some (Throw (rethrow raw_args e), w', evs)
      | None => None
      end
  end.

End WithCollaborators.

(** *** Runs of the tool *)

Section Runs.

Variable sanitizeQuery : json -> result (option json).
Variable gzip : string -> string.
Variable path_resolve : string -> string.
Variable createObjectCsvWriter : WriterConfig -> result CsvWriter.

Lemma apply_writes_no_write (writer : CsvWriter) (evs : list event) :
  count is_write evs = 0%nat -> forall n w, apply_writes writer n evs w = w.
Proof.
  induction evs as [|ev evs IH]; intros H n w; [reflexivity|].
  destruct ev; cbn [apply_writes]; try (apply IH; exact H).
  discriminate.
Qed.

(** No file is touched and the scrolled export is not started before
    the checks have passed: when a run has changed the files or has
    reached [exportDataWithScroll] (its first search request is the
    first of the events), the arguments had parsed, the client was
    connected, the existence check had answered true, the fields had
    been determined and the writer had been created. *)
Theorem execute_exports_only_after_checks
  (now_iso : string) (cluster : Cluster) (raw_args : json)
  (parsed : result ExportToCSVArgs) (w w' : world) (outcome : result ExportToCSVResult)
  (evs : list event) :
  execute sanitizeQuery gzip path_resolve createObjectCsvWriter now_iso cluster raw_args
    parsed w = Some (outcome, w', evs) ->
  w' <> w \/ evs <> [] ->
  exists args fields_found writer,
    parsed = Ok args /\
    cluster_ready cluster = Ok tt /\
    cluster_exists cluster (index args) = Ok true /\
    Fields.determineFields (fields args) (cluster_mapping cluster) = Ok fields_found /\
    createCSVWriter createObjectCsvWriter
      (Filename.generateFilename now_iso (index args) (filename args) +:+ ".tmp")
      fields_found (delimiter args) = Ok writer /\
    (exists body rest, evs = EvSearch body :: rest).
Proof.
  unfold execute. destruct parsed as [args|e].
  2:{ intros H. injection H as _ <- <-. intros [H|H]; congruence. }
  intros Hrun Hchanged.
  assert (Hatt : exists r, attempt sanitizeQuery gzip path_resolve createObjectCsvWriter
                             now_iso cluster args w = Some (r, w', evs)).
  { destruct (attempt _ _ _ _ _ _ _ _) as [[[[r|e] w0] evs0]|]; [| |discriminate];
      injection Hrun as _ <- <-; eauto. }
  clear Hrun. destruct Hatt as [r Hatt]. unfold attempt in Hatt.
  destruct (cluster_ready cluster) as [[]|e] eqn:Hready.
  2:{ injection Hatt as _ <- <-. destruct Hchanged; congruence. }
  destruct (cluster_exists cluster (index args)) as [[]|e] eqn:Hexists.
  2,3:injection Hatt as _ <- <-; destruct Hchanged; congruence.
  destruct (Fields.determineFields (fields args) (cluster_mapping cluster)) as [found|e]
    eqn:Hfields.
  2:{ injection Hatt as _ <- <-. destruct Hchanged; congruence. }
  destruct (createCSVWriter _ _ _ _) as [writer|e] eqn:Hwriter.
  2:{ injection Hatt as _ <- <-. destruct Hchanged; congruence. }
  exists args, found, writer. repeat split; try assumption.
  destruct (exportDataWithScroll _ _ _ _ _) as [[outcome0 evs0]|] eqn:Hscroll;
    [|discriminate].
  assert (Hevs : evs = evs0).
  { destruct outcome0 as [rows|e]; [|injection Hatt as _ _ <-; reflexivity].
    destruct (finalize _ _ _ _) as [[[fin sz]|e] w2]; injection Hatt as _ _ <-; reflexivity. }
  subst evs0. unfold exportDataWithScroll in Hscroll.
  destruct (build_query sanitizeQuery (scroll_args args)) as [q|e].
  2:{ injection Hscroll as <- <-. cbn [apply_writes] in Hatt. injection Hatt as _ <-.
      destruct Hchanged; congruence. }
  destruct (search _ _) as [response|e]; [|injection Hscroll as _ <-; eauto].
  apply prepend_Some in Hscroll. destruct Hscroll as [rest [_ ->]]. eauto.
Qed.

(** An export that finds no record fails when nothing has created the
    temporary file.  Once the checks have passed and the writer has been
    created, which the package refuses for a delimiter other than a
    comma or a semicolon, no batch is written, so the writer, which
    touches the disk only when it writes records, leaves the files as
    they were; finalization stops at [stat] with ENOENT, and [execute]
    throws the ElasticsearchError "Failed to export data to CSV". *)
Theorem execute_empty_export_fails
  (now_iso : string) (cluster : Cluster) (raw_args : json) (args : ExportToCSVArgs)
  (w : world) (fields_found : list string) (q : json) (response : Response)
  (writer : CsvWriter) :
  cluster_ready cluster = Ok tt ->
  cluster_exists cluster (index args) = Ok true ->
  Fields.determineFields (fields args) (cluster_mapping cluster) = Ok fields_found ->
  build_query sanitizeQuery (scroll_args args) = Ok q ->
  search (cluster_scroll cluster)
    {| size := Z.min scrollSize (effective_maxRows (scroll_args args));
       source_fields := fields_found; Scroll.query := q |} = Ok response ->
  hits response = [] ->
  createCSVWriter createObjectCsvWriter
    (Filename.generateFilename now_iso (index args) (filename args) +:+ ".tmp")
    fields_found (delimiter args) = Ok writer ->
  files w !! (Filename.generateFilename now_iso (index args) (filename args) +:+ ".tmp")
    = None ->
  exists evs w',
    execute sanitizeQuery gzip path_resolve createObjectCsvWriter now_iso cluster raw_args
      (Ok args) w =
    Some (Throw (ElasticsearchError "Failed to export data to CSV"
                   (Some [("args", raw_args);
                          ("originalError",
                           JObj [("name", JStr "Error");
                                 ("message",
                                  JStr ("ENOENT: no such file or directory, stat '"
                                        +:+ Filename.generateFilename now_iso (index args)
                                              (filename args)
                                        +:+ ".tmp'"))])])),
          w', evs) /\
    files w' = files w /\
    count is_write evs = 0%nat.
Proof.
  intros Hready Hexists Hfields Hq Hsearch Hhits Hwriter Htmp.
  set (name := Filename.generateFilename now_iso (index args) (filename args)) in *.
  set (body := {| size := Z.min scrollSize (effective_maxRows (scroll_args args));
                  source_fields := fields_found; Scroll.query := q |}) in *.
  exists (EvSearch body :: release (cluster_scroll cluster) response).
  exists {| files := files w; ops := ops w ++ [OpStat (name +:+ ".tmp")] |}.
  assert (Hnw : count is_write (EvSearch body :: release (cluster_scroll cluster) response)
                = 0%nat).
  { destruct (release_no_write_no_scroll (cluster_scroll cluster) response) as [Hw _].
    count_events. exact Hw. }
  split; [|split; [reflexivity|exact Hnw]].
  assert (Hscroll : forall writer,
             exportDataWithScroll sanitizeQuery (cluster_scroll cluster) (scroll_args args)
               writer fields_found
             = Some (Ok 0%Z, EvSearch body :: release (cluster_scroll cluster) response)).
  { intros wr. unfold exportDataWithScroll. rewrite Hq. fold body. rewrite Hsearch.
    cbn [loop]. rewrite Hhits. reflexivity. }
  unfold execute, attempt. rewrite Hready, Hexists, Hfields.
  fold name. rewrite Hwriter, Hscroll.
  rewrite (apply_writes_no_write _ _ Hnw).
  unfold finalize, and_then, stat, logged. rewrite Htmp.
  unfold rethrow, enoent. cbn [is_zod wrap error_name error_message app].
  rewrite Substring.append_assoc. reflexivity.
Qed.

(** What a successful export reports: the row count is the number of
    records handed to the writer; the file named in the result exists,
    it is the generated name, with [.gz] behind it when compression was
    asked for, and the size reported is that of its content; the
    temporary file is gone. *)
Theorem execute_success_summary
  (now_iso : string) (cluster : Cluster) (raw_args : json) (args : ExportToCSVArgs)
  (w w' : world) (r : ExportToCSVResult) (evs : list event) :
  execute sanitizeQuery gzip path_resolve createObjectCsvWriter now_iso cluster raw_args
    (Ok args) w = Some (Ok r, w', evs) ->
  rowsExported r = ExportFacts.written evs /\
  result_filename r =
    Filename.generateFilename now_iso (index args) (filename args)
    +:+ (if wants_compression args then ".gz" else EmptyString) /\
  files w' !! (Filename.generateFilename now_iso (index args) (filename args) +:+ ".tmp")
    = None /\
  (exists content,
      files w' !! result_filename r = Some content /\
      fileSize r = formatFileSize (Z.of_nat (String.length content))) /\
  downloadUrl r = "file://" +:+ path_resolve (result_filename r).
Proof.
  unfold execute. intros Hrun.
  assert (Hatt : attempt sanitizeQuery gzip path_resolve createObjectCsvWriter
                   now_iso cluster args w = Some (Ok r, w', evs)).
  { destruct (attempt _ _ _ _ _ _ _ _) as [[[[r0|e] w0] evs0]|]; [|discriminate..].
    exact Hrun. }
  clear Hrun. unfold attempt in Hatt.
  set (name := Filename.generateFilename now_iso (index args) (filename args)) in *.
  destruct (cluster_ready cluster); [|discriminate].
  destruct (cluster_exists cluster (index args)) as [[]|]; [|discriminate..].
  destruct (Fields.determineFields _ _) as [found|]; [|discriminate].
  destruct (createCSVWriter createObjectCsvWriter (name +:+ ".tmp") found
              (delimiter args)) as [writer|]; [|discriminate].
  destruct (exportDataWithScroll _ _ _ _ _) as [[[rows|e] evs0]|] eqn:Hscroll;
    [|discriminate..].
  assert (Hrows : rows = ExportFacts.written evs0).
  { unfold exportDataWithScroll in Hscroll.
    destruct (build_query sanitizeQuery (scroll_args args)); [|discriminate].
    destruct (search _ _); [|discriminate].
    apply prepend_Some in Hscroll. destruct Hscroll as [rest [Hrest ->]].
    apply ExportFacts.loop_written in Hrest. destruct Hrest as [Hr _].
    cbn [app ExportFacts.written]. rewrite (Hr rows eq_refl). lia. }
  set (w1 := apply_writes writer 0 evs0 w) in *.
  destruct (files w1 !! (name +:+ ".tmp")) as [data|] eqn:Htmp.
  2:{ pose proof (finalize_needs_tmp gzip w1 name (wants_compression args) Htmp) as Hf.
      destruct (finalize gzip name (wants_compression args) w1) as [[[fin sz]|e] w2];
        cbn [fst] in Hf; discriminate. }
  destruct (wants_compression args).
  - rewrite (finalize_compress gzip w1 name data Htmp) in Hatt.
    injection Hatt as <- <- <-. cbn.
    repeat split; try assumption.
    + apply lookup_delete_eq.
    + exists (gzip data). split; [|reflexivity].
      rewrite lookup_delete_ne by apply tmp_not_gz. apply lookup_insert_eq.
  - rewrite (finalize_rename gzip w1 name data Htmp) in Hatt.
    injection Hatt as <- <- <-. cbn.
    repeat split; try assumption.
    + apply Substring.append_empty_r || (symmetry; apply Substring.append_empty_r).
    + rewrite lookup_insert_ne by (intros H; exact (tmp_not_name name (eq_sym H))).
      apply lookup_delete_eq.
    + exists data. split; [apply lookup_insert_eq|reflexivity].
Qed.

End Runs.

(** *** A cluster, a disk and a writer to run the tool on *)

Definition resolve_in_data (p : string) : string := "/data/" +:+ p.

(** A writer that always succeeds and leaves the rows under its path,
    created like the package creates its own: for a comma or a
    semicolon only. *)
Definition plain_writer (config : WriterConfig) : result CsvWriter :=
  if String.eqb (fieldDelimiter config) "," || String.eqb (fieldDelimiter config) ";"
  then
    Ok {| writeRecords := ok_writer;
          disk_effect := fun _ records w =>
            {| files := <[config_path config := "id" +:+ recordDelimiter config]> (files w);
               ops := ops w |} |}
  else
    Throw (OtherError "Error"
             ("Invalid field delimiter `" +:+ fieldDelimiter config +:+ "` is specified")).

Definition users_cluster (scroll_client : Client) : Cluster :=
  {| cluster_ready := Ok tt;
     cluster_exists := fun _ => Ok true;
     cluster_mapping := Fields.empty_index_client;
     cluster_scroll := scroll_client |}.

Definition users_args : ExportToCSVArgs :=
  {| index := "users"; query := None; fields := Some ["id"]; filename := Some "users";
     delimiter := None; maxRows := Some 10%Z; compress := Some true |}.

Definition empty_disk : world := {| files := ∅; ops := [] |}.

Lemma execute_success_summary_witness :
  exists r w' evs,
    execute accept_query mark_compressed resolve_in_data plain_writer
      "2024-01-15T10:30:00.000Z" (users_cluster two_record_client) JNull (Ok users_args)
      empty_disk = Some (Ok r, w', evs) /\
    rowsExported r = ExportFacts.written evs /\
    result_filename r = "users.csv.gz" /\
    files w' !! "users.csv.tmp" = None.
Proof.
  destruct (execute accept_query mark_compressed resolve_in_data plain_writer
              "2024-01-15T10:30:00.000Z" (users_cluster two_record_client) JNull
              (Ok users_args) empty_disk) as [[[[r|e] w'] evs]|] eqn:Hrun;
    try (vm_compute in Hrun; discriminate).
  exists r, w', evs. split; [reflexivity|].
  destruct (execute_success_summary accept_query mark_compressed resolve_in_data plain_writer
              "2024-01-15T10:30:00.000Z" (users_cluster two_record_client) JNull users_args
              empty_disk w' r evs Hrun) as [Hrows [Hname [Htmp _]]].
  split; [exact Hrows|]. split; [exact Hname|exact Htmp].
Defined.

Lemma execute_empty_export_fails_witness :
  exists e w' evs,
    execute accept_query mark_compressed resolve_in_data plain_writer
      "2024-01-15T10:30:00.000Z" (users_cluster no_record_client) JNull (Ok users_args)
      empty_disk = Some (Throw e, w', evs) /\
    files w' = files empty_disk.
Proof.
  destruct (plain_writer {| config_path := "users.csv.tmp"; config_header := [("id", "id")];
                            fieldDelimiter := ",";
                            recordDelimiter := String (ascii_of_nat 10) EmptyString;
                            config_append := false |}) as [writer|e] eqn:Hwriter;
    [|discriminate].
  destruct (execute_empty_export_fails accept_query mark_compressed resolve_in_data
              plain_writer "2024-01-15T10:30:00.000Z" (users_cluster no_record_client) JNull
              users_args empty_disk ["id"] match_all (page [] "scroll-0") writer)
    as [evs [w' [Hrun [Hfiles _]]]]; try reflexivity; [exact Hwriter|].
  eexists. exists w', evs. split; [exact Hrun|exact Hfiles].
Defined.

Lemma execute_exports_only_after_checks_witness :
  exists args,
    Ok users_args = Ok args /\
    cluster_exists (users_cluster two_record_client) (index args) = Ok true.
Proof.
  destruct (execute accept_query mark_compressed resolve_in_data plain_writer
              "2024-01-15T10:30:00.000Z" (users_cluster two_record_client) JNull
              (Ok users_args) empty_disk) as [[[outcome w'] evs]|] eqn:Hrun;
    [|vm_compute in Hrun; discriminate].
  assert (Hevs : evs <> []).
  { pose proof Hrun as Hc. vm_compute in Hc. injection Hc as _ _ <-. discriminate. }
  destruct (execute_exports_only_after_checks accept_query mark_compressed resolve_in_data
              plain_writer "2024-01-15T10:30:00.000Z" (users_cluster two_record_client) JNull
              (Ok users_args) empty_disk w' outcome evs Hrun (or_intror Hevs))
    as [args [found [writer [Hp [_ [Hex _]]]]]].
  exists args. split; [exact Hp|exact Hex].
Defined.

(** A delimiter that the package refuses: the export stops before its
    first search, with the error of the package wrapped. *)
Lemma execute_refused_delimiter :
  execute accept_query mark_compressed resolve_in_data plain_writer
    "2024-01-15T10:30:00.000Z" (users_cluster two_record_client) JNull
    (Ok {| index := "users"; query := None; fields := Some ["id"]; filename := Some "users";
           delimiter := Some "|"; maxRows := Some 10%Z; compress := Some true |})
    empty_disk
  = Some (Throw (ElasticsearchError "Failed to export data to CSV"
                   (Some [("args", JNull);
                          ("originalError",
                           JObj [("name", JStr "Error");
                                 ("message",
                                  JStr "Invalid field delimiter `|` is specified")])])),
          empty_disk, []).
Proof. reflexivity. Qed.

End ExportTool.

(** ** The tool-call handler of the server
    The [CallToolRequestSchema] handler of src/server.ts (lines 336-401):
    the caller of every tool's [execute] and of [handleError].  A tool is
    what its [execute] answers for the raw arguments. *)

Module Server.

Import Errors.

Record Tools : Type := {
  fetchIndicesTool : json -> result json;
  searchElasticsearchTool : json -> result json;
  createIndexTool : json -> result json;
  insertDataTool : json -> result json;
  updateDocumentTool : json -> result json;
  deleteDocumentTool : json -> result json;
  exportToCSVTool : json -> result json
}.

(** The text of the one content item of an answer: on success
    [JSON.stringify(result, null, 2)], kept as the result to be printed;
    on failure a plain string. *)
Inductive content_text : Type :=
| PrettyJson (result : json)
| Text (s : string).

Record CallToolResponse : Type := {
  text : content_text;
  isError : bool
}.

(** The [switch (name)] *)
Definition dispatch (tools : Tools) (name : string) (args : json) : result json :=
  if String.eqb name "fetch_indices" then fetchIndicesTool tools args
  else if String.eqb name "search_elasticsearch" then searchElasticsearchTool tools args
  else if String.eqb name "create_index" then createIndexTool tools args
  else if String.eqb name "insert_data" then insertDataTool tools args
  else if String.eqb name "update_document" then updateDocumentTool tools args
  else if String.eqb name "delete_document" then deleteDocumentTool tools args
  else if String.eqb name "export_to_csv" then exportToCSVTool tools args
  else Throw (OtherError "Error" ("Unknown tool: " +:+ name)).

(** The handler; [isConnected] is [getConnectionInfo().isConnected] and
    [now] the time at which [handleError] stamps its response. *)
Definition callTool (now : string) (isConnected : bool) (tools : Tools)
  (name : string) (args : json) : CallToolResponse :=
  let attempt :=
    if negb isConnected
    then Throw (OtherError "Error" "Elasticsearch client is not connected")
    else dispatch tools name args in
  match attempt with
  | Ok result => {| text := PrettyJson result; isError := false |}
  | Throw error =>
      let errorResponse := handleError now error (Some "call-tool") in
      {| text := Text ("Error: " +:+ message errorResponse); isError := true |}
  end.

Definition tool_names : list string :=
  ["fetch_indices"; "search_elasticsearch"; "create_index"; "insert_data";
   "update_document"; "delete_document"; "export_to_csv"].

Definition is_tool_name (name : string) : bool :=
  List.existsb (String.eqb name) tool_names.

Definition unexpected : CallToolResponse :=
  {| text := Text "Error: An unexpected error occurred"; isError := true |}.

Lemma dispatch_unknown (tools : Tools) (name : string) (args : json) :
  is_tool_name name = false ->
  dispatch tools name args = Throw (OtherError "Error" ("Unknown tool: " +:+ name)).
Proof.
  unfold is_tool_name, tool_names, dispatch. cbn [List.existsb]. intros H.
  repeat (apply orb_false_elim in H; destruct H as [-> H]). reflexivity.
Qed.

(** What a caller is told about a failure.  Without a connection no tool
    runs and the answer is the fixed text "Error: An unexpected error
    occurred", the same as for a name that is no tool: neither the
    missing connection nor the unknown name is reported.  An error of
    the project's own classes thrown by a tool is reported by its
    message alone, and an error of any other class by the fixed text. *)
Theorem callTool_failure_text
  (now : string) (tools : Tools) (name : string) (args : json) :
  callTool now false tools name args = unexpected /\
  (is_tool_name name = false ->
   forall isConnected, callTool now isConnected tools name args = unexpected) /\
  (forall e m,
      dispatch tools name args = Throw e ->
      Tool.error_message e = Some m ->
      callTool now true tools name args =
      match e with
      | OtherError _ _ => unexpected
      | _ => {| text := Text ("Error: " +:+ m); isError := true |}
      end) /\
  (forall isConnected,
      isError (callTool now isConnected tools name args) = false <->
      isConnected = true /\ exists result, dispatch tools name args = Ok result).
Proof.
  split; [reflexivity|]. split; [|split].
  - intros Hname [|]; [|reflexivity].
    unfold callTool. cbn [negb]. rewrite (dispatch_unknown _ _ _ Hname). reflexivity.
  - intros e m He Hm. unfold callTool. cbn [negb]. rewrite He.
    destruct e; cbn in Hm; try discriminate; try (injection Hm as ->); reflexivity.
  - intros [|]; unfold callTool; cbn [negb].
    + destruct (dispatch tools name args) as [r|e]; cbn [isError].
      * split; [intros _; split; [reflexivity|exists r; reflexivity]|reflexivity].
      * split; [discriminate|]. intros [_ [r Hr]]. discriminate.
    + cbn [isError]. split; [discriminate|]. intros [H _]. discriminate.
Qed.

(** A tool whose every call fails with the validation error of an empty
    document, as a stand-in for a tool of the server. *)
Definition rejecting_tools : Tools :=
  let reject := fun _ : json => Throw (ValidationError "Document cannot be empty" None) in
  {| fetchIndicesTool := reject; searchElasticsearchTool := reject;
     createIndexTool := reject; insertDataTool := reject;
     updateDocumentTool := reject; deleteDocumentTool := reject;
     exportToCSVTool := reject |}.

Lemma callTool_failure_text_witness :
  callTool "2024-01-15T10:30:00.000Z" true rejecting_tools "drop_index" JNull = unexpected /\
  callTool "2024-01-15T10:30:00.000Z" true rejecting_tools "insert_data" JNull =
  {| text := Text "Error: Document cannot be empty"; isError := true |}.
Proof.
  destruct (callTool_failure_text "2024-01-15T10:30:00.000Z" rejecting_tools "drop_index" JNull)
    as [_ [Hunknown _]].
  destruct (callTool_failure_text "2024-01-15T10:30:00.000Z" rejecting_tools "insert_data" JNull)
    as [_ [_ [Hthrown _]]].
  split.
  - exact (Hunknown eq_refl true).
  - exact (Hthrown (ValidationError "Document cannot be empty" None)
                   "Document cannot be empty" eq_refl eq_refl).
Defined.

End Server.
